(** * Client-side subscription engine (src/client/src/tscSub.c)

    A shallow embedding of the progress set, the progress file and the
    consume cycle of [tscSub.c], and the properties of them that the
    specification states.

    Conventions.
    - [int64_t] and [TSKEY] values are [Z]; where the C code does
      arithmetic on them the two's-complement wrap-around is written out.
    - C strings and file contents are [list ascii].
    - An [SArray] is the [list] of its elements, in order.
    - A pointer that may be [NULL] is an [option].
    - Code that touches the outside world (clock, files, the query
      executor, the table resolver) runs in the monad [M]: a state monad
      over [World] whose [None] stands for "no defined result" (a [NULL]
      passed to [strlen] or read as a string, or a loop that never
      ends). *)

From Stdlib Require Import ZArith Ascii String Lia.
From stdpp Require Import base option list sorting gmap strings.

Local Open Scope Z_scope.

(** ** Machine integers *)

Definition INT64_MIN : Z := - 2 ^ 63.
Definition INT64_MAX : Z := 2 ^ 63 - 1.

Definition is_int64 (z : Z) : Prop := INT64_MIN <= z <= INT64_MAX.

(** Two's-complement reduction to [w] bits, signed. *)
Definition wrap_signed (w : Z) (z : Z) : Z :=
  (z + 2 ^ (w - 1)) mod 2 ^ w - 2 ^ (w - 1).

Definition int64_sub (a b : Z) : Z := wrap_signed 64 (a - b).
Definition int32_sub (a b : Z) : Z := wrap_signed 32 (a - b).
Definition to_int32 (z : Z) : Z := wrap_signed 32 z.

(** ** The progress entry (lines 29-32) *)

Abbreviation TSKEY := Z (only parsing).

Record SSubscriptionProgress : Type := MkProgress {
  uid : Z;
  key : TSKEY
}.

Global Instance SSubscriptionProgress_eq_dec : EqDecision SSubscriptionProgress.
Proof. solve_decision. Defined.

(** Lines 49-55. *)
Definition tscCompareSubscriptionProgress (x y : SSubscriptionProgress) : Z :=
  if uid x >? uid y then 1
  else if uid x <? uid y then -1
  else 0.

(** ** The dynamic array primitives

    The dynamic array lives in [tarray.c], outside [tscSub.c]; the
    specification lists it among the external collaborators and fixes
    the contract the engine relies on. *)
Section tarray.
Context {A : Type}.

(** Modelled from the spec: [taosArrayInit] is missing; it gives an
    empty array (the capacity is only a reservation). *)
Definition taosArrayInit (capacity : nat) : list A := [].

(** Modelled from the spec: [taosArrayPush] is missing; it appends one
    element at the end. *)
Definition taosArrayPush (pArray : list A) (x : A) : list A := pArray ++ [x].

(** Modelled from the spec: [taosArrayClear] is missing; it empties the
    array. *)
Definition taosArrayClear (pArray : list A) : list A := [].

(** Modelled from the spec: [taosArrayGetSize] is missing. *)
Definition taosArrayGetSize (pArray : list A) : nat := length pArray.

(** The loop of a binary search between the bounds [lo] (inclusive)
    and [hi] (exclusive).  The distance [hi - lo] shrinks in every
    round, so [fuel >= hi - lo] rounds are always enough
    ([bsearch_loop_fuel] below). *)
Fixpoint bsearch_loop (fuel : nat) (compar : A → A → Z) (target : A)
    (base : list A) (lo hi : nat) : option nat :=
  match fuel with
  | O => None
  | S fuel' =>
      if (lo <? hi)%nat then
        let idx := ((lo + hi) / 2)%nat in
        match base !! idx with
        | None => None
        | Some p =>
            let c := compar target p in
            if c <? 0 then bsearch_loop fuel' compar target base lo idx
            else if 0 <? c then bsearch_loop fuel' compar target base (S idx) hi
            else Some idx
        end
      else None
  end.

(** Modelled from the spec: [taosArraySearch] is missing; the spec
    says "binary search by uid".  The result is the index of the
    element found ([None] for [NULL]). *)
Definition taosArraySearch (pArray : list A) (target : A)
    (compar : A → A → Z) : option nat :=
  bsearch_loop (length pArray) compar target pArray 0 (length pArray).

(** [x] may stand before [y] in an array sorted by [compar]. *)
Definition compar_le (compar : A → A → Z) : relation A :=
  λ x y, compar x y <= 0.

Global Instance compar_le_dec compar : RelDecision (compar_le compar).
Proof. intros x y. unfold compar_le. apply Z.le_dec. Defined.

(** Modelled from the spec: [taosArraySort] is missing; the spec says
    the array is sorted by the comparator.  A merge sort, as the C
    library's [qsort] is. *)
Definition taosArraySort (pArray : list A) (compar : A → A → Z) : list A :=
  merge_sort (compar_le compar) pArray.
End tarray.

(** ** The subscription object (lines 34-46)

    [SSqlObj] is declared in [tsclient.h]; these are the fields of it
    that [tscSub.c] reads or writes.  Of [SSub], the self-pointer
    [signature], the connection [taos] and the callback argument [param]
    carry no data of their own and are left out. *)

Record STableMetaInfo : Type := MkTableMetaInfo {
  (** value of [UTIL_TABLE_IS_NORMAL_TABLE] on this table *)
  isNormalTable : bool;
  (** value of [UTIL_TABLE_IS_SUPER_TABLE] on this table *)
  isSuperTable : bool;
  (** [pTableMeta->uid] *)
  tableUid : Z;
  vgroupIndex : Z;
  (** what [tscBuildVgroupTableInfo] was last given, as uids *)
  vgroupTables : list Z
}.

Record SSqlObj : Type := MkSqlObj {
  sqlstr : list ascii;
  cmd_command : Z;
  cmd_tableMetaInfo : STableMetaInfo;
  queryInfo_type : Z;
  res_code : Z;
  res_numOfRows : Z;
  res_qhandle : Z
}.

Record SSub : Type := MkSub {
  topic : list ascii;
  lastSyncTime : Z;
  lastConsumeTime : Z;
  pTimer : option Z;
  pSql : SSqlObj;
  interval : Z;
  fp : option Z;
  progress : list SSubscriptionProgress
}.

Definition set_progress (pSub : SSub) (pr : list SSubscriptionProgress) : SSub :=
  MkSub (topic pSub) (lastSyncTime pSub) (lastConsumeTime pSub) (pTimer pSub)
        (pSql pSub) (interval pSub) (fp pSub) pr.

Definition set_lastSyncTime (pSub : SSub) (t : Z) : SSub :=
  MkSub (topic pSub) t (lastConsumeTime pSub) (pTimer pSub)
        (pSql pSub) (interval pSub) (fp pSub) (progress pSub).

Definition set_lastConsumeTime (pSub : SSub) (t : Z) : SSub :=
  MkSub (topic pSub) (lastSyncTime pSub) t (pTimer pSub)
        (pSql pSub) (interval pSub) (fp pSub) (progress pSub).

Definition set_pSql (pSub : SSub) (q : SSqlObj) : SSub :=
  MkSub (topic pSub) (lastSyncTime pSub) (lastConsumeTime pSub) (pTimer pSub)
        q (interval pSub) (fp pSub) (progress pSub).

(** ** Progress lookup and update (lines 57-81)

    The handle [sub] is a [void*]: [None] is [NULL]. *)

Definition tscGetSubscriptionProgress (sub : option SSub) (uid0 : Z) (dflt : TSKEY)
    : TSKEY :=
  match sub with
  | None => dflt
  | Some pSub =>
      let target := MkProgress uid0 0 in
      match taosArraySearch (progress pSub) target tscCompareSubscriptionProgress with
      | None => dflt
      | Some i =>
          match progress pSub !! i with
          | Some p => key p
          | None => dflt
          end
      end
  end.

Definition tscUpdateSubscriptionProgress (sub : option SSub) (uid0 : Z) (ts : TSKEY)
    : option SSub :=
  match sub with
  | None => None
  | Some pSub =>
      let target := MkProgress uid0 ts in
      match taosArraySearch (progress pSub) target tscCompareSubscriptionProgress with
      | Some i =>
          Some (set_progress pSub
                  (alter (λ p, MkProgress (uid p) ts) i (progress pSub)))
      | None => Some pSub
      end
  end.

(** ** Characters and C strings *)

Definition NUL : ascii := "000"%char.
Definition LF : ascii := "010"%char.
Definition CR : ascii := "013"%char.

(** The C string held in a buffer: the bytes before the first [NUL]. *)
Fixpoint c_str (buf : list ascii) : list ascii :=
  match buf with
  | [] => []
  | c :: t => if (c =? NUL)%char then [] else c :: c_str t
  end.

(** [strcmp]: the sign of the first differing byte, [0] when the two C
    strings are equal. *)
Fixpoint strcmp_cstr (a b : list ascii) : Z :=
  match a, b with
  | [], [] => 0
  | [], _ :: _ => -1
  | _ :: _, [] => 1
  | x :: a', y :: b' =>
      if (x =? y)%char then strcmp_cstr a' b'
      else if (N_of_ascii x <? N_of_ascii y)%N then -1 else 1
  end.

Definition strcmp (a b : list ascii) : Z := strcmp_cstr (c_str a) (c_str b).

Fixpoint is_prefix_of (needle hay : list ascii) : bool :=
  match needle, hay with
  | [], _ => true
  | _ :: _, [] => false
  | x :: n', y :: h' => (x =? y)%char && is_prefix_of n' h'
  end.

(** [strstr]: the suffix of [hay] that starts at the first occurrence of
    [needle]; [None] is [NULL]. *)
Fixpoint strstr (hay needle : list ascii) : option (list ascii) :=
  if is_prefix_of needle hay then Some hay
  else match hay with
       | [] => None
       | _ :: t => strstr t needle
       end.

(** [isspace] and [isdigit] in the C locale. *)
Definition isspace (c : ascii) : bool :=
  let n := N_of_ascii c in ((n =? 32) || ((9 <=? n) && (n <=? 13)))%N.

Definition isdigit (c : ascii) : bool :=
  let n := N_of_ascii c in ((48 <=? n) && (n <=? 57))%N.

Definition digit_value (c : ascii) : Z := Z.of_N (N_of_ascii c) - 48.

Definition digit_char (d : Z) : ascii := ascii_of_N (Z.to_N (48 + d)).

(** ** Reading: [fgets] and [sscanf] *)

(** [fgets_chars n fp]: at most [n] bytes from the stream [fp], ending
    after the first line feed; the bytes read and the rest of the
    stream. *)
Fixpoint fgets_chars (n : nat) (fp : list ascii) : list ascii * list ascii :=
  match n with
  | O => ([], fp)
  | S n' =>
      match fp with
      | [] => ([], [])
      | c :: fp' =>
          if (c =? LF)%char then ([c], fp')
          else let '(buf, rest) := fgets_chars n' fp' in (c :: buf, rest)
      end
  end.

(** [fgets(buf, size, fp)]: [None] ([NULL]) at end of file, otherwise
    the at most [size - 1] bytes stored before the terminating [NUL]. *)
Definition fgets (size : nat) (fp : list ascii)
    : option (list ascii * list ascii) :=
  match fp with
  | [] => None
  | _ :: _ => Some (fgets_chars (size - 1) fp)
  end.

Fixpoint skip_space (s : list ascii) : list ascii :=
  match s with
  | [] => []
  | c :: t => if isspace c then skip_space t else s
  end.

Fixpoint scan_digits (acc : Z) (s : list ascii) : Z * list ascii :=
  match s with
  | [] => (acc, [])
  | c :: t => if isdigit c then scan_digits (10 * acc + digit_value c) t
              else (acc, s)
  end.

(** A decimal number too large for [int64_t] is stored by the C library
    as the nearest bound. *)
Definition saturate_int64 (z : Z) : Z := Z.max INT64_MIN (Z.min INT64_MAX z).

(** One [%lld] conversion ([SCNd64]): white space, an optional sign, one
    or more digits.  [None] when nothing is converted. *)
Definition scan_d64 (s : list ascii) : option (Z * list ascii) :=
  let s1 := skip_space s in
  let '(neg, s2) :=
    match s1 with
    | c :: t => if (c =? "-")%char then (true, t)
                else if (c =? "+")%char then (false, t)
                else (false, s1)
    | [] => (false, [])
    end in
  match s2 with
  | c :: _ =>
      if isdigit c then
        let '(n, rest) := scan_digits 0 s2 in
        Some (saturate_int64 (if neg then - n else n), rest)
      else None
  | [] => None
  end.

(** [sscanf(buf, "%lld:%lld", &a, &b)]: the values stored through the
    two pointers; [None] for a pointer that is not written. *)
Definition sscanf_d64_d64 (buf : list ascii) : option Z * option Z :=
  match scan_d64 (c_str buf) with
  | None => (None, None)
  | Some (a, rest) =>
      match rest with
      | c :: rest' =>
          if (c =? ":")%char then
            match scan_d64 rest' with
            | Some (b, _) => (Some a, Some b)
            | None => (Some a, None)
            end
          else (Some a, None)
      | [] => (Some a, None)
      end
  end.

(** ** Writing: [fprintf] with [PRId64] *)

(** Decimal digits of [n >= 0], least significant first.  [fuel] bounds
    the number of digits. *)
Fixpoint digits_rev (fuel : nat) (n : Z) : list ascii :=
  match fuel with
  | O => []
  | S fuel' =>
      digit_char (n mod 10) ::
        (if n <? 10 then [] else digits_rev fuel' (n / 10))
  end.

Definition print_unsigned (n : Z) : list ascii :=
  rev (digits_rev (S (Z.to_nat (Z.log2 n))) n).

(** [%lld] ([PRId64]). *)
Definition print_d64 (z : Z) : list ascii :=
  if z <? 0 then "-"%char :: print_unsigned (- z) else print_unsigned z.

(** The line [fprintf(fp, "%lld:%lld\n", p->uid, p->key)] writes. *)
Definition progress_line (p : SSubscriptionProgress) : list ascii :=
  print_d64 (uid p) ++ ":"%char :: print_d64 (key p) ++ [LF].

(** ** The outside world *)

(** One row of the resolver's answer ([STidTags], declared in
    [tsclient.h]): the table's uid and the rest of the record. *)
Record STidTags : Type := MkTidTags {
  tt_uid : Z;
  tt_vgId : Z
}.

(** What [tsParseSql] leaves in the query object. *)
Record SParsed : Type := MkParsed {
  parsed_code : Z;
  parsed_command : Z;
  parsed_tableMetaInfo : STableMetaInfo;
  parsed_type : Z
}.

(** Constants and collaborators that [tscSub.c] uses and does not
    define.  The collaborators answer by the number of the call: the
    [n]-th reading of the clock, the [n]-th execution of the query, the
    [n]-th auxiliary query of the resolver. *)
Record Env : Type := MkEnv {
  tsDataDir : list ascii;
  TSDB_MAX_SQL_LEN : nat;
  TSDB_CODE_SUCCESS : Z;
  TSDB_SQL_SELECT : Z;
  TSDB_QUERY_TYPE_MULTITABLE_QUERY : Z;
  (** [taosGetTimestampMs()] *)
  clock : nat → Z;
  (** the code [asyncCallback] stores in [pRes->code] after [tscDoQuery] *)
  query_code : nat → Z;
  (** the rows [taos_query] and [taos_fetch_row] give [getTableList];
      [None] when the query object is [NULL] or carries an error *)
  table_rows : nat → list ascii → option (list STidTags);
  tscCompareTidTags : STidTags → STidTags → Z;
  (** whether [fopen(path, "w+")] succeeds *)
  fopen_w_ok : list ascii → bool;
  (** the indeterminate contents of the local [p] of the load loop at
      the start of its [n]-th round *)
  indeterminate : nat → SSubscriptionProgress;
  strtolower : list ascii → list ascii;
  tsParseSql : list ascii → SParsed;
  (** the handle [taosTmrReset] stores *)
  tmr_handle : Z;
  (** whether [tscError] formats its arguments: the macro (in
      [tscLog.h]) does so only when the error level of the client log is
      on, as it is by default *)
  tscError_formats : bool;
  (** whether the acquisitions of lines 97-123 succeed ([calloc_throw],
      [tsem_init], [tscAllocPayload], [strdup_throw]) *)
  alloc_query_ok : bool;
  (** whether those of lines 142-152 succeed ([calloc_throw],
      [taosArrayInit]) *)
  alloc_sub_ok : bool
}.

Record World : Type := MkWorld {
  files : gmap (list ascii) (list ascii);
  clock_reads : nat;
  queries : nat;
  resolves : nat;
  sleeps : list Z;
  (** the directories [tmkdir] was asked for, in the order of the calls *)
  mkdirs : list (list ascii)
}.

Definition set_files (w : World) (f : gmap (list ascii) (list ascii)) : World :=
  MkWorld f (clock_reads w) (queries w) (resolves w) (sleeps w) (mkdirs w).

(** The monad of the effectful code. *)
Definition M (A : Type) : Type := World → option (A * World).

Global Instance M_ret : MRet M := λ A a w, Some (a, w).

Global Instance M_bind : MBind M := λ A B k m w,
  match m w with
  | None => None
  | Some (a, w') => k a w'
  end.

(** No defined result. *)
Definition undefined {A} : M A := λ _, None.

Section engine.
Variable E : Env.

Definition taosGetTimestampMs : M Z := λ w,
  Some (clock E (clock_reads w),
        MkWorld (files w) (S (clock_reads w)) (queries w) (resolves w) (sleeps w) (mkdirs w)).

Definition taosMsleep (ms : Z) : M unit := λ w,
  Some (tt, MkWorld (files w) (clock_reads w) (queries w) (resolves w)
                    (sleeps w ++ [ms]) (mkdirs w)).

(** [tscDoQuery] followed by [sem_wait]: the code the callback left. *)
Definition tscDoQuery : M Z := λ w,
  Some (query_code E (queries w),
        MkWorld (files w) (clock_reads w) (S (queries w)) (resolves w) (sleeps w) (mkdirs w)).

Definition taos_query_rows (sql : list ascii) : M (option (list STidTags)) := λ w,
  Some (table_rows E (resolves w) sql,
        MkWorld (files w) (clock_reads w) (queries w) (S (resolves w)) (sleeps w) (mkdirs w)).

(** [sprintf(buf, "%s/subscribe/%s", tsDataDir, pSub->topic)]. *)
Definition progress_path (pSub : SSub) : list ascii :=
  tsDataDir E ++ list_ascii_of_string "/subscribe/" ++ topic pSub.

(** *** Lines 180-206 *)
Definition getTableList (q : SSqlObj) : M (option (list STidTags)) :=
  match strstr (sqlstr q) (list_ascii_of_string " from ") with
  | None => undefined
  | Some p =>
      taos_query_rows (list_ascii_of_string "select tbid(tbname)" ++ p)
  end.

(** *** Lines 209-254 *)

(** The loop of lines 235-240. *)
Definition rebuild_progress (pSub : SSub) (tables : list STidTags)
    : list SSubscriptionProgress :=
  fold_left
    (λ pr tt0,
       taosArrayPush pr
         (MkProgress (tt_uid tt0)
            (tscGetSubscriptionProgress (Some pSub) (tt_uid tt0) INT64_MIN)))
    tables (taosArrayInit (taosArrayGetSize tables)).

Definition set_vgroupTables (q : SSqlObj) (tables : list STidTags) : SSqlObj :=
  let info := cmd_tableMetaInfo q in
  MkSqlObj (sqlstr q) (cmd_command q)
    (MkTableMetaInfo (isNormalTable info) (isSuperTable info) (tableUid info)
       (vgroupIndex info) (tt_uid <$> tables))
    (queryInfo_type q) (res_code q) (res_numOfRows q) (res_qhandle q).

Definition set_queryInfo_type (q : SSqlObj) (ty : Z) : SSqlObj :=
  MkSqlObj (sqlstr q) (cmd_command q) (cmd_tableMetaInfo q) ty
    (res_code q) (res_numOfRows q) (res_qhandle q).

Definition tscUpdateSubscription (pSub : SSub) : M (Z * SSub) :=
  now ← taosGetTimestampMs;
  let pSub := set_lastSyncTime pSub now in
  let pTableMetaInfo := cmd_tableMetaInfo (pSql pSub) in
  if isNormalTable pTableMetaInfo then
    let target := MkProgress (tableUid pTableMetaInfo) 0 in
    match taosArraySearch (progress pSub) target tscCompareSubscriptionProgress with
    | None =>
        mret (1, set_progress pSub
                   (taosArrayPush (taosArrayClear (progress pSub)) target))
    | Some _ => mret (1, pSub)
    end
  else
    tables ← getTableList (pSql pSub);
    match tables with
    | None => mret (0, pSub)
    | Some tables =>
        let progress' :=
          taosArraySort (rebuild_progress pSub tables)
                        tscCompareSubscriptionProgress in
        let pSub := set_progress pSub progress' in
        let q := pSql pSub in
        let q := if isSuperTable pTableMetaInfo
                 then set_vgroupTables q (taosArraySort tables (tscCompareTidTags E))
                 else q in
        let q := set_queryInfo_type q
                   (Z.lor (queryInfo_type q) (TSDB_QUERY_TYPE_MULTITABLE_QUERY E)) in
        mret (1, set_pSql pSub q)
    end.

(** *** Lines 257-304 *)

(** Lines 273-280 followed by the reading of [buf] as a C string: the
    bytes before the first [NUL], carriage return or line feed. *)
Fixpoint cut_line (buf : list ascii) : list ascii :=
  match buf with
  | [] => []
  | c :: t =>
      if (c =? NUL)%char then []
      else if (c =? CR)%char || (c =? LF)%char then []
      else c :: cut_line t
  end.

(** What [p] holds after [sscanf] in round [n]: the fields [sscanf]
    does not write keep their indeterminate contents. *)
Definition scan_progress (n : nat) (buf : list ascii) : SSubscriptionProgress :=
  let '(a, b) := sscanf_d64_d64 buf in
  MkProgress (default (uid (indeterminate E n)) a)
             (default (key (indeterminate E n)) b).

(** The loop of lines 289-297; its only exit is the [return 0] at end
    of file.  [fuel] bounds the number of rounds, [None] when it is
    used up. *)
Fixpoint load_loop (fuel : nat) (n : nat) (fp : list ascii)
    (pr : list SSubscriptionProgress) : option (list SSubscriptionProgress) :=
  match fuel with
  | O => None
  | S fuel' =>
      match fgets (TSDB_MAX_SQL_LEN E) fp with
      | None => Some pr
      | Some (buf, fp') =>
          load_loop fuel' (S n) fp' (taosArrayPush pr (scan_progress n buf))
      end
  end.

Definition tscLoadSubscriptionProgress (pSub : SSub) : M (Z * SSub) := λ w,
  match files w !! progress_path pSub with
  | None => Some ((1, pSub), w)
  | Some content =>
      match fgets (TSDB_MAX_SQL_LEN E) content with
      | None => Some ((0, pSub), w)
      | Some (buf, fp) =>
          if negb (strcmp (cut_line buf) (sqlstr (pSql pSub)) =? 0)
          then Some ((0, pSub), w)
          else
            match load_loop (S (length fp)) 0 fp
                    (taosArrayClear (progress pSub)) with
            | None => None
            | Some pr => Some ((0, set_progress pSub pr), w)
            end
      end
  end.

(** *** Lines 306-330 *)

(** [tmkdir(path, 0777)]: the directory is asked for.  The value the
    call returns only decides whether a line is logged (lines 311-313);
    whether the file can then be created is [fopen_w_ok]. *)
Definition tmkdir (path : list ascii) : M unit := λ w,
  Some (tt, MkWorld (files w) (clock_reads w) (queries w) (resolves w) (sleeps w)
                    (mkdirs w ++ [path])).

(** [sprintf(path, "%s/subscribe", tsDataDir)]. *)
Definition subscribe_dir : list ascii :=
  tsDataDir E ++ list_ascii_of_string "/subscribe".

(** What the open file holds after [fputs], [fprintf] and the loop of
    lines 324-327. *)
Definition progress_file (pSub : SSub) : list ascii :=
  fold_left (λ content p, content ++ progress_line p) (progress pSub)
    (c_str (sqlstr (pSql pSub)) ++ [LF]).

Definition tscSaveSubscriptionProgress (pSub : SSub) : M unit :=
  tmkdir subscribe_dir;;
  ((λ w,
      if fopen_w_ok E (progress_path pSub)
      then Some (tt, set_files w
                       (<[progress_path pSub := progress_file pSub]> (files w)))
      else Some (tt, w)) : M unit).

(** *** Lines 370-429 *)

(** Lines 398-405: the query object made ready for the next run. *)
Definition reset_query (q : SSqlObj) : SSqlObj :=
  let info := cmd_tableMetaInfo q in
  MkSqlObj (sqlstr q) (TSDB_SQL_SELECT E)
    (MkTableMetaInfo (isNormalTable info) (isSuperTable info) (tableUid info)
       0 (vgroupTables info))
    (queryInfo_type q) (res_code q) 1 0.

Definition set_res_code (q : SSqlObj) (code : Z) : SSqlObj :=
  MkSqlObj (sqlstr q) (cmd_command q) (cmd_tableMetaInfo q) (queryInfo_type q)
    code (res_numOfRows q) (res_qhandle q).

(** The loop of lines 387-419 with [n] rounds left.  The flag of the
    result is [true] when the loop is left by the [return NULL] of
    line 392. *)
Fixpoint consume_retry (n : nat) (pSub : SSub) : M (bool * SSub) :=
  match n with
  | O => mret (false, pSub)
  | S n' =>
      now ← taosGetTimestampMs;
      '(ok, pSub) ← (if int64_sub now (lastSyncTime pSub) >? 10 * 60 * 1000
                     then tscUpdateSubscription pSub
                     else mret (1, pSub));
      if ok =? 0 then mret (true, pSub)
      else
        let pSub := set_pSql pSub (reset_query (pSql pSub)) in
        code ← tscDoQuery;
        let pSub := set_pSql pSub (set_res_code (pSql pSub) code) in
        if negb (code =? TSDB_CODE_SUCCESS E) then consume_retry n' pSub
        else mret (false, set_lastSyncTime pSub 0)
  end.

(** Lines 379-385. *)
Definition consume_pace (pSub : SSub) : M unit :=
  if pTimer pSub is None then
    now ← taosGetTimestampMs;
    let duration := int64_sub now (lastConsumeTime pSub) in
    if duration <? interval pSub
    then taosMsleep (int32_sub (interval pSub) (to_int32 duration))
    else mret tt
  else mret tt.

(** The result is the pair of the value returned ([None] for [NULL])
    and the subscription as the call leaves it. *)
Definition taos_consume (tsub : option SSub) : M (option SSqlObj * option SSub) :=
  match tsub with
  | None => mret (None, None)
  | Some pSub =>
      tscSaveSubscriptionProgress pSub;;
      consume_pace pSub;;
      '(aborted, pSub) ← consume_retry 3 pSub;
      if aborted : bool then mret (None, Some pSub)
      else
        if negb (res_code (pSql pSub) =? TSDB_CODE_SUCCESS E)
        then mret (None, Some pSub)
        else
          now ← taosGetTimestampMs;
          let pSub := set_lastConsumeTime pSub now in
          mret (Some (pSql pSub), Some pSub)
  end.

(** *** Lines 93-164

    [tsParseSql] stands for the parse and the wait for its callback.
    The result is [None] when the call has no defined result,
    [Some None] when it returns [NULL].  Every [THROW] is caught at
    line 156 and makes the function return [NULL]; but on a failed parse
    and on a statement that is no [select], lines 133 and 138 first hand
    [pSub->topic] to [tscError] while [pSub] is still the [NULL] of line
    94 (it is assigned at line 142): when [tscError] formats its
    arguments, a string is read through that pointer. *)
Definition tscCreateSubscription (topic0 sql : list ascii) : option (option SSub) :=
  if negb (alloc_query_ok E) then Some None
  else
    let sqlstr0 := strtolower E (c_str sql) in
    let parsed := tsParseSql E sqlstr0 in
    if negb (parsed_code parsed =? TSDB_CODE_SUCCESS E) then
      (if tscError_formats E then None else Some None)
    else if negb (parsed_command parsed =? TSDB_SQL_SELECT E) then
      (if tscError_formats E then None else Some None)
    else if negb (alloc_sub_ok E) then Some None
    else
      Some (Some (MkSub (take 31 (c_str topic0)) 0 0 None
                    (MkSqlObj sqlstr0 (parsed_command parsed)
                       (parsed_tableMetaInfo parsed) (parsed_type parsed)
                       (parsed_code parsed) 1 0)
                    0 None (taosArrayInit 32))).

(** *** Lines 431-453 *)
Definition taos_unsubscribe (tsub : option SSub) (keepProgress : Z) : M unit :=
  match tsub with
  | None => mret tt
  | Some pSub =>
      if negb (keepProgress =? 0) then tscSaveSubscriptionProgress pSub
      else λ w, Some (tt, set_files w (delete (progress_path pSub) (files w)))
  end.

(** *** Lines 332-366

    [connected] tells whether [taos] is a live connection. *)
Definition taos_subscribe (connected : bool) (restart : Z)
    (topic0 sql : list ascii) (fp0 : option Z) (interval0 : Z)
    : M (option SSub) :=
  if negb connected then mret None
  else
    match tscCreateSubscription topic0 sql with
    | None => undefined
    | Some None => mret None
    | Some (Some pSub) =>
        pSub ← (if negb (restart =? 0) then mret pSub
                else '(_, pSub) ← tscLoadSubscriptionProgress pSub; mret pSub);
        '(ok, pSub) ← tscUpdateSubscription pSub;
        if ok =? 0 then taos_unsubscribe (Some pSub) 1;; mret None
        else
          let pSub := MkSub (topic pSub) (lastSyncTime pSub) (lastConsumeTime pSub)
                        (pTimer pSub) (pSql pSub) interval0 (fp pSub)
                        (progress pSub) in
          match fp0 with
          | Some f =>
              mret (Some (MkSub (topic pSub) (lastSyncTime pSub)
                            (lastConsumeTime pSub) (Some (tmr_handle E))
                            (pSql pSub) (interval pSub) (Some f) (progress pSub)))
          | None => mret (Some pSub)
          end
    end.
End engine.

(** ** Predicates on progress sets *)

(** The uids of a progress set, in order. *)
Definition uids (pr : list SSubscriptionProgress) : list Z := uid <$> pr.

(** The invariant of the data model: strictly ascending by uid, hence
    every uid at most once. *)
Definition sorted_unique (pr : list SSubscriptionProgress) : Prop :=
  StronglySorted (λ x y, uid x < uid y) pr.

Global Instance sorted_unique_dec pr : Decision (sorted_unique pr).
Proof.
  unfold sorted_unique.
  induction pr as [|x pr IH].
  - left. constructor.
  - destruct IH as [IH|IH].
    + destruct (decide (Forall (λ y, uid x < uid y) pr)) as [HF|HF].
      * left. by constructor.
      * right. intros H. by inversion H.
    + right. intros H. by inversion H.
Defined.



(** No topology refresh of this subscription can fail: the table is a
    Normal one, or the query text has its [" from "] and the resolver
    always answers. *)
Definition refresh_never_fails (E : Env) (pSub : SSub) : Prop :=
  isNormalTable (cmd_tableMetaInfo (pSql pSub)) = true ∨
  (is_Some (strstr (sqlstr (pSql pSub)) (list_ascii_of_string " from ")) ∧
   ∀ n sql, is_Some (table_rows E n sql)).

(** ** The operations on a live subscription *)

Inductive operation : Type :=
  | OpConsume
  | OpProgressUpdate (uid0 : Z) (ts : TSKEY)
  | OpRefresh
  | OpSave.

Definition apply_operation (E : Env) (op : operation) (st : SSub * World)
    : option (SSub * World) :=
  let '(pSub, w) := st in
  match op with
  | OpConsume =>
      match taos_consume E (Some pSub) w with
      | Some ((_, Some pSub'), w') => Some (pSub', w')
      | _ => None
      end
  | OpProgressUpdate uid0 ts =>
      match tscUpdateSubscriptionProgress (Some pSub) uid0 ts with
      | Some pSub' => Some (pSub', w)
      | None => None
      end
  | OpRefresh =>
      match tscUpdateSubscription E pSub w with
      | Some ((_, pSub'), w') => Some (pSub', w')
      | None => None
      end
  | OpSave =>
      match tscSaveSubscriptionProgress E pSub w with
      | Some (_, w') => Some (pSub, w')
      | None => None
      end
  end.

Fixpoint apply_operations (E : Env) (ops : list operation) (st : SSub * World)
    : option (SSub * World) :=
  match ops with
  | [] => Some st
  | op :: ops' =>
      match apply_operation E op st with
      | Some st' => apply_operations E ops' st'
      | None => None
      end
  end.

(** ** The progress file, in the words of the specification *)

(** The lines of a file, each with its line feed (the last one may lack
    it). *)
Fixpoint file_lines (content : list ascii) : list (list ascii) :=
  match content with
  | [] => []
  | c :: t =>
      if (c =? LF)%char then [c] :: file_lines t
      else match file_lines t with
           | [] => [[c]]
           | l :: ls => (c :: l) :: ls
           end
  end.

(** "After CR/LF stripping": the line without the carriage returns and
    line feeds at its end. *)
Fixpoint strip_trailing_crlf (line : list ascii) : list ascii :=
  match line with
  | [] => []
  | c :: t =>
      match strip_trailing_crlf t with
      | [] => if (c =? CR)%char || (c =? LF)%char then [] else [c]
      | t' => c :: t'
      end
  end.

(** "The well-formed entries that precede the first malformed line": a
    line is well formed when both numbers of [<int64>:<int64>] are
    read. *)
Fixpoint entries_before_malformed (ls : list (list ascii))
    : list SSubscriptionProgress :=
  match ls with
  | [] => []
  | l :: ls' =>
      match sscanf_d64_d64 l with
      | (Some a, Some b) => MkProgress a b :: entries_before_malformed ls'
      | _ => []
      end
  end.

(** "Insert preserving sort order". *)
Fixpoint insert_sorted (p : SSubscriptionProgress)
    (pr : list SSubscriptionProgress) : list SSubscriptionProgress :=
  match pr with
  | [] => [p]
  | q :: pr' => if uid p <? uid q then p :: pr else q :: insert_sorted p pr'
  end.

(** The characters of a printed number. *)
Definition num_char (c : ascii) : Prop := isdigit c = true ∨ c = "-"%char.

(** ** Sample data *)

Definition bytes (s : string) : list ascii := list_ascii_of_string s.

Definition sample_super : STableMetaInfo := MkTableMetaInfo false true 0 0 [].
Definition sample_normal : STableMetaInfo := MkTableMetaInfo true false 7 0 [].

(** An environment whose clock reads [time], whose queries end with
    [codes] and whose resolver answers [rows]. *)
Definition sample_env (time : nat → Z) (codes : nat → Z)
    (rows : option (list STidTags)) : Env :=
  MkEnv (bytes "/var/lib/taos") 256 0 4 128
    time codes (λ _ _, rows)
    (λ a b, if tt_uid a >? tt_uid b then 1 else if tt_uid a <? tt_uid b then -1 else 0)
    (λ _, true) (λ _, MkProgress (-1) (-1)) (λ s, s)
    (λ _, MkParsed 0 4 sample_super 0) 1 true true true.

Definition sample_sub (meta : STableMetaInfo) (lastSync : Z)
    (pr : list SSubscriptionProgress) : SSub :=
  MkSub (bytes "t1") lastSync 0 None
    (MkSqlObj (bytes "select * from s") 4 meta 0 0 1 0) 1000 None pr.

Definition sample_world (content : option (list ascii)) : World :=
  MkWorld
    (match content with
     | Some c => {[ bytes "/var/lib/taos/subscribe/t1" := c ]}
     | None => ∅
     end) 0 0 0 [] [].

(** A file whose entries are not in the order of their uids. *)
Definition file_unsorted : list ascii :=
  bytes "select * from s" ++ [LF] ++ bytes "20:6" ++ [LF] ++ bytes "10:5" ++ [LF].

(** A file with a line that is no entry between two that are. *)
Definition file_malformed : list ascii :=
  bytes "select * from s" ++ [LF] ++ bytes "1:2" ++ [LF] ++ bytes "xyz" ++ [LF]
  ++ bytes "3:4" ++ [LF].

(** A file whose first line has a carriage return in its middle. *)
Definition file_cr_inside : list ascii :=
  bytes "select * from s" ++ [CR] ++ bytes "x" ++ [LF] ++ bytes "1:2" ++ [LF].

(** A file written for another query text. *)
Definition file_other_sql : list ascii :=
  bytes "select ts from s" ++ [LF] ++ bytes "10:5" ++ [LF].

(** ** The timer callback (lines 167-177) *)

Definition set_pTimer (pSub : SSub) (t : option Z) : SSub :=
  MkSub (topic pSub) (lastSyncTime pSub) (lastConsumeTime pSub) t
        (pSql pSub) (interval pSub) (fp pSub) (progress pSub).

Section timer.
Variable E : Env.

(** The function of the user that [pSub->fp] points to, by its handle:
    what a call of it with the subscription and the result does to the
    subscription and to the world (fetching the rows of the result moves
    the keys of the ProgressSet on). *)
Variable callback : Z → SSub → SSqlObj → M SSub.

(** [None] for [tmrId] is a [NULL] token.  The result is the
    subscription as the fire leaves it; [taosTmrReset] stores the handle
    of the new timer in [pSub->pTimer]. *)
Definition tscProcessSubscriptionTimer (handle : option SSub)
    (tmrId : option Z) : M (option SSub) :=
  match handle with
  | None => mret None
  | Some pSub =>
      if negb (bool_decide (pTimer pSub = tmrId)) then mret (Some pSub)
      else
        '(res, tsub) ← taos_consume E (Some pSub);
        match tsub with
        | None => undefined
        | Some pSub =>
            pSub ← match res with
                   | None => mret pSub
                   | Some r =>
                       match fp pSub with
                       | Some f => callback f pSub r
                       | None => undefined
                       end
                   end;
            mret (Some (set_pTimer pSub (Some (tmr_handle E))))
        end
  end.
End timer.

(** What identifies a subscription and its query: the fields no
    operation on a live subscription should change. *)
Definition same_identity (pSub pSub' : SSub) : Prop :=
  topic pSub' = topic pSub ∧ pTimer pSub' = pTimer pSub ∧
  interval pSub' = interval pSub ∧ fp pSub' = fp pSub ∧
  sqlstr (pSql pSub') = sqlstr (pSql pSub) ∧
  isNormalTable (cmd_tableMetaInfo (pSql pSub'))
  = isNormalTable (cmd_tableMetaInfo (pSql pSub)) ∧
  isSuperTable (cmd_tableMetaInfo (pSql pSub'))
  = isSuperTable (cmd_tableMetaInfo (pSql pSub)) ∧
  tableUid (cmd_tableMetaInfo (pSql pSub'))
  = tableUid (cmd_tableMetaInfo (pSql pSub)).

(** ** Conditions on the environment and on a subscription *)

(** The resolver never returns a uid twice in one answer. *)
Definition resolver_distinct (E : Env) : Prop :=
  ∀ n sql rows, table_rows E n sql = Some rows → NoDup (tt_uid <$> rows).

(** Every refresh of this subscription has a defined result: the table
    is a Normal one, or the query text has its [" from "]. *)
Definition refresh_defined (pSub : SSub) : Prop :=
  isNormalTable (cmd_tableMetaInfo (pSql pSub)) = true ∨
  is_Some (strstr (sqlstr (pSql pSub)) (list_ascii_of_string " from ")).

(** The test of line 390 at the reading [n] of the clock: whether it is
    more than ten minutes after [lastSyncTime]. *)
Definition refresh_due (E : Env) (pSub : SSub) (n : nat) : bool :=
  int64_sub (clock E n) (lastSyncTime pSub) >? 10 * 60 * 1000.

(** The reading of the clock that the first round of the loop of
    [taos_consume] makes: a call without a timer has read the clock once
    before, for the pacing. *)
Definition first_round_clock (pSub : SSub) (w : World) : nat :=
  (clock_reads w + (if pTimer pSub is None then 1 else 0))%nat.

(** ** More sample data *)

(** What [tscCreateSubscription] gives in a sample environment for the
    topic [t1] and the query [select * from s]. *)
Definition sample_created : SSub :=
  MkSub (bytes "t1") 0 0 None
    (MkSqlObj (bytes "select * from s") 4 sample_super 0 0 1 0) 0 None [].

(** A subscription that is driven by the timer of handle 1, with the
    callback of handle 5. *)
Definition sample_timed (pr : list SSubscriptionProgress) : SSub :=
  MkSub (bytes "t1") 0 0 (Some 1)
    (MkSqlObj (bytes "select * from s") 4 sample_super 0 0 1 0) 1000 (Some 5) pr.

(** A callback that fetches rows of the table 10 up to the key 99. *)
Definition sample_callback (f : Z) (pSub : SSub) (r : SSqlObj) : M SSub :=
  mret (default pSub (tscUpdateSubscriptionProgress (Some pSub) 10 99)).

(** Query codes: one failure, then success. *)
Definition fail_once (n : nat) : Z :=
  match n with
  | O => 1
  | S _ => 0
  end.

(** A clock that reads [early] before its reading [n] and [late] from
    there on. *)
Definition clock_jump (n : nat) (early late : Z) (k : nat) : Z :=
  if (k <? n)%nat then early else late.

(** A file whose second line is longer than a buffer of 256 bytes. *)
Definition file_long_line : list ascii :=
  bytes "select * from s" ++ [LF]
  ++ replicate 260 " "%char ++ bytes "1:2" ++ [LF]
  ++ bytes "3:4" ++ [LF].

(** A query text of two lines. *)
Definition sql_two_lines : list ascii :=
  bytes "select * from s" ++ [LF] ++ bytes "where a > 1".
(** * Properties of the progress set *)

Lemma compare_lt x y :
  (tscCompareSubscriptionProgress x y <? 0) = true ↔ uid x < uid y.
Proof.
  unfold tscCompareSubscriptionProgress. rewrite Z.gtb_ltb.
  destruct (uid y <? uid x) eqn:H1; destruct (uid x <? uid y) eqn:H2; simpl;
    rewrite ?Z.ltb_lt, ?Z.ltb_ge in *; split; intros; try lia; try done.
Qed.

Lemma compare_gt x y :
  (0 <? tscCompareSubscriptionProgress x y) = true ↔ uid y < uid x.
Proof.
  unfold tscCompareSubscriptionProgress. rewrite Z.gtb_ltb.
  destruct (uid y <? uid x) eqn:H1; destruct (uid x <? uid y) eqn:H2; simpl;
    rewrite ?Z.ltb_lt, ?Z.ltb_ge in *; split; intros; try lia; try done.
Qed.

Lemma compare_le x y :
  compar_le tscCompareSubscriptionProgress x y ↔ uid x <= uid y.
Proof.
  unfold compar_le, tscCompareSubscriptionProgress. rewrite Z.gtb_ltb.
  destruct (uid y <? uid x) eqn:H1; destruct (uid x <? uid y) eqn:H2;
    rewrite ?Z.ltb_lt, ?Z.ltb_ge in *; split; intros; try lia.
Qed.

Lemma midpoint_bounds (lo hi : nat) :
  (lo < hi)%nat → (lo ≤ (lo + hi) / 2 < hi)%nat.
Proof.
  intros H. split.
  - apply Nat.div_le_lower_bound; lia.
  - apply Nat.Div0.div_lt_upper_bound; lia.
Qed.

Section search.
Context {A : Type} (compar : A → A → Z).

(** Rounds beyond [hi - lo] are never used: the search has a result
    (an index or [NULL]) that does not depend on the fuel. *)
Lemma bsearch_loop_fuel fuel fuel' target base lo hi :
  (hi - lo ≤ fuel)%nat → (hi - lo ≤ fuel')%nat →
  bsearch_loop fuel compar target base lo hi
  = bsearch_loop fuel' compar target base lo hi.
Proof.
  revert fuel' lo hi.
  induction fuel as [|fuel IH]; intros fuel' lo hi H1 H2.
  - destruct fuel' as [|fuel']; [done|]. simpl.
    destruct (lo <? hi)%nat eqn:Hlt; [|done].
    apply Nat.ltb_lt in Hlt. lia.
  - destruct fuel' as [|fuel'].
    + cbn [bsearch_loop]. destruct (lo <? hi)%nat eqn:Hlt; [|done].
      apply Nat.ltb_lt in Hlt. lia.
    + cbn [bsearch_loop]. destruct (lo <? hi)%nat eqn:Hlt; [|done].
      apply Nat.ltb_lt in Hlt.
      pose proof (midpoint_bounds lo hi Hlt) as [Hm1 Hm2].
      destruct (base !! ((lo + hi) / 2)%nat) as [p|]; [|done].
      destruct (compar target p <? 0).
      * apply IH; lia.
      * destruct (0 <? compar target p); [|done]. apply IH; lia.
Qed.

(** What the search returns is an element the comparator calls
    equal to the target. *)
Lemma bsearch_loop_sound fuel target base lo hi i :
  bsearch_loop fuel compar target base lo hi = Some i →
  (lo ≤ i < hi)%nat ∧
  ∃ p, base !! i = Some p ∧ compar target p = 0.
Proof.
  revert lo hi. induction fuel as [|fuel IH]; intros lo hi; [done|].
  cbn [bsearch_loop]. destruct (lo <? hi)%nat eqn:Hlt; [|done].
  apply Nat.ltb_lt in Hlt.
  pose proof (midpoint_bounds lo hi Hlt) as [Hm1 Hm2].
  destruct (base !! ((lo + hi) / 2)%nat) as [p|] eqn:Hp; [|done].
  destruct (compar target p <? 0) eqn:Hc1.
  - intros H. apply IH in H as [? ?]. split; [lia|done].
  - destruct (0 <? compar target p) eqn:Hc2.
    + intros H. apply IH in H as [? ?]. split; [lia|done].
    + intros [= <-]. split; [done|]. exists p. split; [done|].
      apply Z.ltb_ge in Hc1, Hc2. lia.
Qed.
End search.

Lemma compare_0 x y :
  tscCompareSubscriptionProgress x y = 0 ↔ uid x = uid y.
Proof.
  unfold tscCompareSubscriptionProgress. rewrite Z.gtb_ltb.
  destruct (uid y <? uid x) eqn:H1; destruct (uid x <? uid y) eqn:H2;
    rewrite ?Z.ltb_lt, ?Z.ltb_ge in *; split; intros; try lia; try done.
Qed.

Lemma sorted_unique_lookup pr i j x y :
  sorted_unique pr → pr !! i = Some x → pr !! j = Some y → (i < j)%nat →
  uid x < uid y.
Proof.
  intros Hs. revert i j. induction Hs as [|a l Hs IH Hall]; intros i j Hi Hj Hlt.
  - done.
  - destruct i as [|i], j as [|j]; try lia; simpl in *.
    + injection Hi as ->.
      rewrite Forall_forall in Hall. apply Hall.
      eapply list_elem_of_lookup_2. exact Hj.
    + eapply IH; eauto. lia.
Qed.

(** On a sorted set the search finds the entry of a uid that is there. *)
Lemma bsearch_loop_complete fuel target pr lo hi j p :
  sorted_unique pr → (hi - lo ≤ fuel)%nat → (hi ≤ length pr)%nat →
  (lo ≤ j < hi)%nat → pr !! j = Some p → uid p = uid target →
  bsearch_loop fuel tscCompareSubscriptionProgress target pr lo hi = Some j.
Proof.
  intros Hs. revert lo hi.
  induction fuel as [|fuel IH]; intros lo hi Hfuel Hhi Hj Hp Hu; [lia|].
  cbn [bsearch_loop].
  destruct (lo <? hi)%nat eqn:Hlt; [|apply Nat.ltb_ge in Hlt; lia].
  apply Nat.ltb_lt in Hlt.
  pose proof (midpoint_bounds lo hi Hlt) as [Hm1 Hm2].
  generalize dependent ((lo + hi) / 2)%nat. intros mid Hm1 Hm2.
  destruct (pr !! mid) as [q|] eqn:Hq.
  - assert ((mid < j)%nat → uid q < uid p) as Hlow
      by (intros; eapply sorted_unique_lookup; eauto).
    assert ((j < mid)%nat → uid p < uid q) as Hhigh
      by (intros; eapply sorted_unique_lookup; eauto).
    assert (j = mid → uid p = uid q) as Hsame
      by (intros ->; congruence).
    destruct (tscCompareSubscriptionProgress target q <? 0) eqn:Hc1.
    + apply compare_lt in Hc1. apply IH; [lia|lia| |done|done].
      destruct (decide (j < mid)%nat); [lia|].
      destruct (decide (j = mid)); [lia|]. lia.
    + destruct (0 <? tscCompareSubscriptionProgress target q) eqn:Hc2.
      * apply compare_gt in Hc2. apply IH; [lia|lia| |done|done].
        destruct (decide (mid < j)%nat); [lia|].
        destruct (decide (j = mid)); [lia|]. lia.
      * apply Z.ltb_ge in Hc1, Hc2.
        assert (uid target = uid q) as Heq by (apply compare_0; lia).
        f_equal.
        destruct (decide (j = mid)) as [->|]; [done|].
        destruct (decide (j < mid)%nat); lia.
  - apply lookup_ge_None in Hq. lia.
Qed.

Lemma taosArraySearch_Some pr target i :
  taosArraySearch pr target tscCompareSubscriptionProgress = Some i →
  ∃ p, pr !! i = Some p ∧ uid p = uid target.
Proof.
  unfold taosArraySearch. intros H.
  apply bsearch_loop_sound in H as [_ (p & Hp & Hc)].
  exists p. split; [done|]. symmetry. by apply compare_0.
Qed.

Lemma taosArraySearch_found pr target j p :
  sorted_unique pr → pr !! j = Some p → uid p = uid target →
  taosArraySearch pr target tscCompareSubscriptionProgress = Some j.
Proof.
  intros Hs Hp Hu. unfold taosArraySearch.
  apply lookup_lt_Some in Hp as Hlen.
  eapply bsearch_loop_complete; eauto; lia.
Qed.

Lemma taosArraySearch_absent pr target :
  uid target ∉ uids pr →
  taosArraySearch pr target tscCompareSubscriptionProgress = None.
Proof.
  intros Hn.
  destruct (taosArraySearch pr target tscCompareSubscriptionProgress) as [i|] eqn:H;
    [|done].
  apply taosArraySearch_Some in H as (p & Hp & Hu).
  exfalso. apply Hn. unfold uids. rewrite <- Hu.
  apply list_elem_of_fmap. exists p. split; [done|].
  eapply list_elem_of_lookup_2. exact Hp.
Qed.

Lemma taosArraySearch_None pr target :
  sorted_unique pr →
  taosArraySearch pr target tscCompareSubscriptionProgress = None →
  uid target ∉ uids pr.
Proof.
  intros Hs HN Hin. unfold uids in Hin.
  apply list_elem_of_fmap in Hin as (p & Hu & Hp).
  apply list_elem_of_lookup_1 in Hp as [j Hj].
  erewrite taosArraySearch_found in HN; eauto. done.
Qed.

(** Unfolds the monad so that a run of effectful code computes. *)
Ltac run_monad :=
  unfold mbind, M_bind, mret, M_ret, undefined, taosGetTimestampMs, taosMsleep,
    tscDoQuery, taos_query_rows in *;
  simpl in *.

Lemma get_progress_present pSub u k dflt :
  sorted_unique (progress pSub) →
  MkProgress u k ∈ progress pSub →
  tscGetSubscriptionProgress (Some pSub) u dflt = k.
Proof.
  intros Hs Hin. apply list_elem_of_lookup_1 in Hin as [j Hj].
  unfold tscGetSubscriptionProgress.
  erewrite taosArraySearch_found; eauto. by rewrite Hj.
Qed.

Lemma get_progress_absent pSub u dflt :
  u ∉ uids (progress pSub) →
  tscGetSubscriptionProgress (Some pSub) u dflt = dflt.
Proof.
  intros Hn. unfold tscGetSubscriptionProgress.
  by rewrite taosArraySearch_absent.
Qed.

Lemma sorted_unique_key_unique pr u k k' :
  sorted_unique pr → MkProgress u k ∈ pr → MkProgress u k' ∈ pr → k = k'.
Proof.
  intros Hs H1 H2.
  apply list_elem_of_lookup_1 in H1 as [i Hi].
  apply list_elem_of_lookup_1 in H2 as [j Hj].
  destruct (decide (i = j)) as [->|Hne]; [congruence|].
  destruct (decide (i < j)%nat).
  - pose proof (sorted_unique_lookup _ _ _ _ _ Hs Hi Hj ltac:(lia)). simpl in *. lia.
  - pose proof (sorted_unique_lookup _ _ _ _ _ Hs Hj Hi ltac:(lia)). simpl in *. lia.
Qed.

Lemma fold_left_push {A B} (f : A → B) (l : list A) (acc : list B) :
  fold_left (λ pr x, taosArrayPush pr (f x)) l acc = acc ++ (f <$> l).
Proof.
  revert acc. induction l as [|x l IH]; intros acc; simpl.
  - by rewrite app_nil_r.
  - rewrite IH. unfold taosArrayPush. by rewrite <- app_assoc.
Qed.

(** The loop of lines 235-240 makes one entry per row of the resolver,
    in the order of the rows. *)
Lemma rebuild_progress_map pSub tables :
  rebuild_progress pSub tables
  = (λ tt0, MkProgress (tt_uid tt0)
              (tscGetSubscriptionProgress (Some pSub) (tt_uid tt0) INT64_MIN))
    <$> tables.
Proof. unfold rebuild_progress. by rewrite fold_left_push. Qed.

Lemma elem_of_taosArraySort {A} (compar : A → A → Z) (l : list A) (x : A) :
  x ∈ taosArraySort l compar ↔ x ∈ l.
Proof. unfold taosArraySort. by rewrite merge_sort_Permutation. Qed.

(** What a successful refresh of a table that is not Normal leaves. *)
Lemma tscUpdateSubscription_refresh E pSub w p tables :
  isNormalTable (cmd_tableMetaInfo (pSql pSub)) = false →
  strstr (sqlstr (pSql pSub)) (list_ascii_of_string " from ") = Some p →
  table_rows E (resolves w) (list_ascii_of_string "select tbid(tbname)" ++ p)
    = Some tables →
  ∃ pSub' w',
    tscUpdateSubscription E pSub w = Some ((1, pSub'), w') ∧
    progress pSub'
    = taosArraySort
        (rebuild_progress (set_lastSyncTime pSub (clock E (clock_reads w))) tables)
        tscCompareSubscriptionProgress ∧
    queries w' = queries w.
Proof.
  intros Hn Hstr Hrows. unfold tscUpdateSubscription, getTableList.
  run_monad. rewrite Hn, Hstr. simpl. rewrite Hrows. simpl.
  eexists _, _. split; [reflexivity|]. split; reflexivity.
Qed.

(** ** Topology refresh *)

#[local] Instance compare_le_total :
  Total (compar_le tscCompareSubscriptionProgress).
Proof. intros x y. rewrite !compare_le. lia. Qed.

#[local] Instance compare_le_trans :
  Transitive (compar_le tscCompareSubscriptionProgress).
Proof. intros x y z. rewrite !compare_le. lia. Qed.

Lemma sorted_le_nodup_strict pr :
  StronglySorted (compar_le tscCompareSubscriptionProgress) pr →
  NoDup (uids pr) → sorted_unique pr.
Proof.
  unfold sorted_unique, uids.
  induction 1 as [|a l Hs IH Hall]; intros Hnd; [constructor|].
  rewrite fmap_cons in Hnd. apply NoDup_cons in Hnd as [Hnotin Hnd].
  constructor; [by apply IH|].
  rewrite Forall_forall in *. intros y Hy.
  pose proof (Hall y Hy) as Hle. apply compare_le in Hle.
  assert (uid a ≠ uid y); [|lia].
  intros Heq. apply Hnotin. rewrite Heq. apply list_elem_of_fmap. eauto.
Qed.

(** Sorting entries of distinct uids gives a set that meets the
    invariant. *)
Lemma taosArraySort_sorted_unique pr :
  NoDup (uids pr) →
  sorted_unique (taosArraySort pr tscCompareSubscriptionProgress).
Proof.
  intros Hnd. apply sorted_le_nodup_strict.
  - apply StronglySorted_merge_sort; apply _.
  - unfold uids, taosArraySort. by rewrite merge_sort_Permutation.
Qed.

(** C1 as the code has it. A topology refresh of a subscription whose
    table is not a Normal one (a super-table is not), with the resolver
    answering, returns 1 and leaves this, whatever the old ProgressSet
    was: the entries are the uids the resolver returned, each with the
    key the binary search of line 238 finds for it in the old
    ProgressSet, [INT64_MIN] when it finds none; so every uid the
    resolver returned that was not in the ProgressSet is there with key
    [INT64_MIN], and a uid the resolver did not return is not there.
    Every uid the resolver returned that was in the ProgressSet has kept
    its key when the old ProgressSet was sorted, the binary search
    finding only then every uid that is there.  The new ProgressSet has one entry
    for each row of the resolver, and is sorted when the resolver
    returned no uid twice. *)
Theorem tscUpdateSubscription_topology E pSub w p tables :
  isNormalTable (cmd_tableMetaInfo (pSql pSub)) = false →
  strstr (sqlstr (pSql pSub)) (list_ascii_of_string " from ") = Some p →
  table_rows E (resolves w) (list_ascii_of_string "select tbid(tbname)" ++ p)
    = Some tables →
  ∃ pSub' w',
    tscUpdateSubscription E pSub w = Some ((1, pSub'), w') ∧
    (∀ u k', MkProgress u k' ∈ progress pSub' ↔
       u ∈ tt_uid <$> tables ∧
       k' = tscGetSubscriptionProgress (Some pSub) u INT64_MIN) ∧
    (sorted_unique (progress pSub) →
     ∀ u k, u ∈ tt_uid <$> tables → MkProgress u k ∈ progress pSub →
       ∀ k', MkProgress u k' ∈ progress pSub' ↔ k' = k) ∧
    (∀ u, u ∈ tt_uid <$> tables → u ∉ uids (progress pSub) →
       ∀ k', MkProgress u k' ∈ progress pSub' ↔ k' = INT64_MIN) ∧
    (∀ u, u ∉ tt_uid <$> tables → u ∉ uids (progress pSub')) ∧
    uids (progress pSub') ≡ₚ tt_uid <$> tables ∧
    (NoDup (tt_uid <$> tables) → sorted_unique (progress pSub')).
Proof.
  intros Hn Hstr Hrows.
  destruct (tscUpdateSubscription_refresh E pSub w p tables Hn Hstr Hrows)
    as (pSub' & w' & Hrun & Hpr & _).
  exists pSub', w'. split; [done|].
  rewrite Hpr, rebuild_progress_map.

  set (old := set_lastSyncTime pSub (clock E (clock_reads w))).
  assert (∀ u k', MkProgress u k' ∈
            taosArraySort
              ((λ tt0, MkProgress (tt_uid tt0)
                  (tscGetSubscriptionProgress (Some old) (tt_uid tt0) INT64_MIN))
               <$> tables) tscCompareSubscriptionProgress
          ↔ u ∈ tt_uid <$> tables
            ∧ k' = tscGetSubscriptionProgress (Some old) u INT64_MIN) as Hchar.
  { intros u k'. rewrite elem_of_taosArraySort, !list_elem_of_fmap. split.
    - intros (t & [= -> ->] & Ht). split; [|done]. by exists t.
    - intros [(t & -> & Ht) ->]. by exists t. }
  split; [exact Hchar|]. split; [|split; [|split; [|split]]].
  - intros Hs u k Hu Hin k'. rewrite Hchar.
    rewrite (get_progress_present old u k) by done. tauto.
  - intros u Hu Hnot k'. rewrite Hchar.
    rewrite (get_progress_absent old u) by done. tauto.
  - intros u Hnot Hin. unfold uids in Hin.
    apply list_elem_of_fmap in Hin as ([u' k'] & -> & Hin). simpl in Hnot.
    apply Hchar in Hin. tauto.
  - unfold uids, taosArraySort. rewrite merge_sort_Permutation.
    by rewrite <- list_fmap_compose.
  - intros Hnd. apply taosArraySort_sorted_unique. unfold uids.
    by rewrite <- list_fmap_compose.
Qed.

(** ** Progress lookup and update *)

(** C10. With a [NULL] handle the lookup returns the default and the
    update does nothing, whatever the uid, the key and the default. *)
Theorem null_handle_is_harmless (uid0 : Z) (ts dflt : Z) :
  tscGetSubscriptionProgress None uid0 dflt = dflt ∧
  tscUpdateSubscriptionProgress None uid0 ts = None.
Proof. split; reflexivity. Qed.

Lemma sorted_unique_alter_key pr i ts :
  sorted_unique pr →
  sorted_unique (alter (λ p, MkProgress (uid p) ts) i pr).
Proof.
  unfold sorted_unique. intros Hs. revert i.
  induction Hs as [|a l Hs IH Hall]; intros i; [constructor|].
  destruct i as [|i].
  - by constructor.
  - change (StronglySorted (λ x y, uid x < uid y)
              (a :: alter (λ p, MkProgress (uid p) ts) i l)).
    constructor; [apply IH|].
    rewrite Forall_forall in *. intros x Hx.
    apply list_elem_of_lookup_1 in Hx as [j Hj].
    destruct (decide (i = j)) as [->|Hne].
    + rewrite list_lookup_alter_eq in Hj.
      destruct (l !! j) as [q|] eqn:Hq; [|done]. simpl in Hj.
      injection Hj as <-. simpl. apply Hall.
      eapply list_elem_of_lookup_2. exact Hq.
    + rewrite list_lookup_alter_ne in Hj by done.
      apply Hall. eapply list_elem_of_lookup_2. exact Hj.
Qed.

(** C7 as the code has it. The progress update overwrites the key of a
    uid that is in the (sorted) ProgressSet and leaves every other entry
    as it was; for a uid that is not in the ProgressSet it changes
    nothing.  The set stays sorted. *)
Theorem tscUpdateSubscriptionProgress_update_only pSub uid0 ts :
  sorted_unique (progress pSub) →
  ∃ pSub',
    tscUpdateSubscriptionProgress (Some pSub) uid0 ts = Some pSub' ∧
    (∀ i p, progress pSub !! i = Some p → uid p = uid0 →
       pSub' = set_progress pSub (<[i := MkProgress uid0 ts]> (progress pSub))) ∧
    (uid0 ∉ uids (progress pSub) → pSub' = pSub) ∧
    sorted_unique (progress pSub').
Proof.
  intros Hs. unfold tscUpdateSubscriptionProgress.
  destruct (taosArraySearch (progress pSub) (MkProgress uid0 ts)
              tscCompareSubscriptionProgress) as [j|] eqn:Hsearch.
  - eexists. split; [reflexivity|]. split; [|split].
    + intros i p Hp Hu.
      rewrite (taosArraySearch_found _ (MkProgress uid0 ts) i p Hs Hp Hu)
        in Hsearch.
      injection Hsearch as <-. f_equal.
      apply list_eq. intros k. destruct (decide (i = k)) as [->|Hne].
      * rewrite list_lookup_alter_eq, Hp. simpl. rewrite Hu.
        symmetry. apply list_lookup_insert_eq. by eapply lookup_lt_Some.
      * by rewrite list_lookup_alter_ne, list_lookup_insert_ne.
    + intros Hn. apply (taosArraySearch_absent _ (MkProgress uid0 ts)) in Hn.
      congruence.
    + simpl. by apply sorted_unique_alter_key.
  - exists pSub. split; [reflexivity|]. split; [|split]; [|done|done].
    intros i p Hp Hu.
    rewrite (taosArraySearch_found _ (MkProgress uid0 ts) i p Hs Hp Hu)
      in Hsearch. done.
Qed.

(** * Properties of the consume cycle *)

Lemma bind_Some {A B} (m : M A) (k : A → M B) w a w' :
  m w = Some (a, w') → (m ≫= k) w = k a w'.
Proof. intros H. unfold mbind, M_bind. by rewrite H. Qed.

Lemma bind_inv {A B} (m : M A) (k : A → M B) w b w'' :
  (m ≫= k) w = Some (b, w'') →
  ∃ a w', m w = Some (a, w') ∧ k a w' = Some (b, w'').
Proof.
  unfold mbind, M_bind. destruct (m w) as [[a w']|]; [|done]. eauto.
Qed.

Lemma tscSaveSubscriptionProgress_runs E pSub w :
  ∃ w', tscSaveSubscriptionProgress E pSub w = Some (tt, w') ∧
        clock_reads w' = clock_reads w ∧ queries w' = queries w ∧
        resolves w' = resolves w.
Proof.
  unfold tscSaveSubscriptionProgress.
  destruct (fopen_w_ok E (progress_path E pSub)); eauto.
Qed.

Lemma consume_pace_runs E pSub w :
  ∃ w', consume_pace E pSub w = Some (tt, w') ∧ queries w' = queries w ∧
        files w' = files w ∧ resolves w' = resolves w.
Proof.
  unfold consume_pace. destruct (pTimer pSub); run_monad; [eauto|].
  destruct (_ <? _); eauto.
Qed.







(** ** The Normal-table pin *)


(** ** The retry loop *)

Lemma refresh_never_fails_query E pSub code :
  refresh_never_fails E pSub →
  refresh_never_fails E
    (set_pSql (set_pSql pSub (reset_query E (pSql pSub)))
       (set_res_code (reset_query E (pSql pSub)) code)).
Proof. done. Qed.

Lemma tscUpdateSubscription_never_fails E pSub w :
  refresh_never_fails E pSub →
  ∃ pSub' w',
    tscUpdateSubscription E pSub w = Some ((1, pSub'), w') ∧
    queries w' = queries w ∧ refresh_never_fails E pSub'.
Proof.
  intros Hr.
  destruct (isNormalTable (cmd_tableMetaInfo (pSql pSub))) eqn:Hn.
  - unfold tscUpdateSubscription. run_monad. rewrite Hn.
    destruct (taosArraySearch _ _ _);
      (eexists _, _; split; [reflexivity|]; split; [done|]; by left).
  - destruct Hr as [Hr|[[p Hp] Hrows]]; [congruence|].
    destruct (Hrows (resolves w)
                (list_ascii_of_string "select tbid(tbname)" ++ p)) as [rows Hq].
    unfold tscUpdateSubscription, getTableList. run_monad. rewrite Hn, Hp.
    simpl. rewrite Hq. simpl.
    eexists _, _. split; [reflexivity|]. split; [done|]. right.
    split; [|done]. simpl.
    destruct (isSuperTable (cmd_tableMetaInfo (pSql pSub))); simpl; eauto.
Qed.

(** When every query fails and no refresh can fail, the loop runs all
    its rounds, one query per round. *)
Lemma consume_retry_all_fail E n : ∀ pSub w,
  (∀ k, query_code E k ≠ TSDB_CODE_SUCCESS E) →
  refresh_never_fails E pSub →
  ∃ pSub' w',
    consume_retry E n pSub w = Some ((false, pSub'), w') ∧
    queries w' = (queries w + n)%nat ∧
    (res_code (pSql pSub) ≠ TSDB_CODE_SUCCESS E ∨ (0 < n)%nat →
     res_code (pSql pSub') ≠ TSDB_CODE_SUCCESS E).
Proof.
  induction n as [|n IH]; intros pSub w Hfail Hr.
  - exists pSub, w. split; [done|]. split; [lia|].
    intros [?|?]; [done|lia].
  - cbn [consume_retry].
    erewrite bind_Some by reflexivity.
    set (w0 := MkWorld (files w) (S (clock_reads w)) (queries w) (resolves w)
                 (sleeps w) (mkdirs w)).
    assert (∃ s1 w1,
      (if int64_sub (clock E (clock_reads w)) (lastSyncTime pSub) >? 10 * 60 * 1000
       then tscUpdateSubscription E pSub else mret (1, pSub)) w0
      = Some ((1, s1), w1) ∧ queries w1 = queries w ∧ refresh_never_fails E s1)
      as (s1 & w1 & Hrun & Hq1 & Hr1).
    { destruct (_ >? _) eqn:Hdue.
      - destruct (tscUpdateSubscription_never_fails E pSub w0 Hr)
          as (s1 & w1 & Hrun & Hq & Hr1).
        eexists _, _. split; [exact Hrun|]. by split.
      - eexists _, _. split; [reflexivity|]. done. }
    erewrite bind_Some by exact Hrun. simpl.
    erewrite bind_Some by reflexivity.
    pose proof (Hfail (queries w1)) as Hcode.
    apply Z.eqb_neq in Hcode. rewrite Hcode. simpl.
    edestruct IH as (s2 & w2 & Hrun2 & Hq2 & Hc2);
      [exact Hfail|apply refresh_never_fails_query; exact Hr1|].
    eexists _, _. split; [exact Hrun2|]. simpl in *. split; [lia|].
    intros _. apply Hc2. left. by apply Z.eqb_neq.
Qed.

(** ** The retry ceiling *)

(** The refresh when the resolver fails. *)
Lemma tscUpdateSubscription_fails E pSub w p :
  isNormalTable (cmd_tableMetaInfo (pSql pSub)) = false →
  strstr (sqlstr (pSql pSub)) (list_ascii_of_string " from ") = Some p →
  table_rows E (resolves w) (list_ascii_of_string "select tbid(tbname)" ++ p)
    = None →
  tscUpdateSubscription E pSub w
  = Some ((0, set_lastSyncTime pSub (clock E (clock_reads w))),
          MkWorld (files w) (S (clock_reads w)) (queries w) (S (resolves w))
                  (sleeps w) (mkdirs w)).
Proof.
  intros Hn Hstr Hrows. unfold tscUpdateSubscription, getTableList.
  run_monad. rewrite Hn, Hstr. simpl. by rewrite Hrows.
Qed.

Lemma consume_pace_clock E pSub w :
  ∃ w', consume_pace E pSub w = Some (tt, w') ∧ queries w' = queries w ∧
        resolves w' = resolves w ∧
        clock_reads w' = first_round_clock pSub w.
Proof.
  unfold consume_pace, first_round_clock.
  destruct (pTimer pSub); run_monad.
  - eexists. split; [reflexivity|]. repeat split. lia.
  - destruct (_ <? _); (eexists; split; [reflexivity|]); simpl;
      repeat split; lia.
Qed.

(** When every query fails, a refresh that falls due for the first time
    in round [j + 1] and fails ends the loop there, after [j]
    queries. *)
Lemma consume_retry_due_refresh_fails E : ∀ j n pSub w p,
  (j < n)%nat →
  (∀ k, query_code E k ≠ TSDB_CODE_SUCCESS E) →
  (∀ i, (i < j)%nat → refresh_due E pSub (clock_reads w + i) = false) →
  refresh_due E pSub (clock_reads w + j) = true →
  isNormalTable (cmd_tableMetaInfo (pSql pSub)) = false →
  strstr (sqlstr (pSql pSub)) (list_ascii_of_string " from ") = Some p →
  table_rows E (resolves w) (list_ascii_of_string "select tbid(tbname)" ++ p)
    = None →
  ∃ pSub' w',
    consume_retry E n pSub w = Some ((true, pSub'), w') ∧
    queries w' = (queries w + j)%nat ∧ progress pSub' = progress pSub.
Proof.
  induction j as [|j IH]; intros n pSub w p Hj Hfail Hearly Hdue Hn Hstr Hrows;
    (destruct n as [|n]; [lia|]).
  - rewrite Nat.add_0_r in Hdue. unfold refresh_due in Hdue.
    eexists _, _. split.
    + cbn [consume_retry]. erewrite bind_Some by reflexivity. rewrite Hdue.
      erewrite bind_Some
        by (by apply (tscUpdateSubscription_fails E pSub _ p Hn Hstr)).
      cbv beta iota. reflexivity.
    + simpl. split; [lia|done].
  - pose proof (Hearly 0%nat ltac:(lia)) as H0.
    rewrite Nat.add_0_r in H0. unfold refresh_due in H0.
    pose proof (Hfail (queries w)) as Hcode. apply Z.eqb_neq in Hcode.
    destruct (IH n
                (set_pSql (set_pSql pSub (reset_query E (pSql pSub)))
                   (set_res_code (reset_query E (pSql pSub))
                      (query_code E (queries w))))
                (MkWorld (files w) (S (clock_reads w)) (S (queries w))
                   (resolves w) (sleeps w) (mkdirs w)) p)
      as (s2 & w2 & Hrun & Hq & Hpr).
    + lia.
    + exact Hfail.
    + intros i Hi. cbn [clock_reads].
      replace (S (clock_reads w) + i)%nat with (clock_reads w + S i)%nat by lia.
      apply (Hearly (S i)). lia.
    + cbn [clock_reads].
      by replace (S (clock_reads w) + j)%nat with (clock_reads w + S j)%nat by lia.
    + exact Hn.
    + exact Hstr.
    + exact Hrows.
    + exists s2, w2. split.
      * cbn [consume_retry]. erewrite bind_Some by reflexivity. rewrite H0.
        erewrite bind_Some by reflexivity.
        cbv beta iota. change (1 =? 0) with false. cbv iota.
        erewrite bind_Some by reflexivity.
        cbn [queries]. rewrite Hcode. cbn [negb]. exact Hrun.
      * cbn [queries] in Hq. split; [lia|exact Hpr].
Qed.

(** When every query fails and no refresh falls due, the loop runs all
    its rounds, one reading of the clock and one query per round, and
    leaves the ProgressSet alone. *)
Lemma consume_retry_no_refresh E : ∀ n pSub w,
  (∀ k, query_code E k ≠ TSDB_CODE_SUCCESS E) →
  (∀ i, (i < n)%nat → refresh_due E pSub (clock_reads w + i) = false) →
  ∃ pSub' w',
    consume_retry E n pSub w = Some ((false, pSub'), w') ∧
    queries w' = (queries w + n)%nat ∧ resolves w' = resolves w ∧
    progress pSub' = progress pSub ∧
    ((0 < n)%nat → res_code (pSql pSub') ≠ TSDB_CODE_SUCCESS E).
Proof.
  induction n as [|n IH]; intros pSub w Hfail Hearly.
  - exists pSub, w. split; [done|]. split; [lia|]. split; [done|].
    split; [done|lia].
  - pose proof (Hearly 0%nat ltac:(lia)) as H0.
    rewrite Nat.add_0_r in H0. unfold refresh_due in H0.
    pose proof (Hfail (queries w)) as Hcode.
    destruct (IH (set_pSql (set_pSql pSub (reset_query E (pSql pSub)))
                    (set_res_code (reset_query E (pSql pSub))
                       (query_code E (queries w))))
                (MkWorld (files w) (S (clock_reads w)) (S (queries w))
                   (resolves w) (sleeps w) (mkdirs w)) Hfail)
      as (s2 & w2 & Hrun & Hq & Hr & Hpr & Hc).
    { intros i Hi. cbn [clock_reads].
      replace (S (clock_reads w) + i)%nat with (clock_reads w + S i)%nat by lia.
      apply (Hearly (S i)). lia. }
    exists s2, w2. split.
    + cbn [consume_retry]. erewrite bind_Some by reflexivity. rewrite H0.
      erewrite bind_Some by reflexivity.
      cbv beta iota. change (1 =? 0) with false. cbv iota.
      erewrite bind_Some by reflexivity.
      cbn [queries]. apply Z.eqb_neq in Hcode. rewrite Hcode. cbn [negb].
      exact Hrun.
    + cbn [queries resolves] in Hq, Hr. split; [lia|]. split; [done|].
      split; [exact Hpr|]. intros _.
      destruct n as [|n]; [|apply Hc; lia].
      injection Hrun as <- _. exact Hcode.
Qed.

(** C4 as the code has it. When the query fails at every attempt:
    if no topology refresh can fail, [taos_consume] returns [NULL] after
    exactly three executions of the query; if no refresh falls due in
    any of the three rounds, it returns [NULL] after exactly three
    executions of the query and with the ProgressSet as it was; if the
    first refresh that falls due in the call falls due in round [j + 1]
    ([j] being 0, 1 or 2) and the resolver fails, it returns [NULL] at
    once, after the [j] executions of the rounds before and without the
    one of that round, with the ProgressSet as it was. *)
Theorem taos_consume_retry_ceiling E pSub w :
  (∀ k, query_code E k ≠ TSDB_CODE_SUCCESS E) →
  (refresh_never_fails E pSub →
   ∃ pSub' w',
     taos_consume E (Some pSub) w = Some ((None, Some pSub'), w') ∧
     queries w' = (queries w + 3)%nat) ∧
  ((∀ i, (i < 3)%nat →
      refresh_due E pSub (first_round_clock pSub w + i) = false) →
   ∃ pSub' w',
     taos_consume E (Some pSub) w = Some ((None, Some pSub'), w') ∧
     queries w' = (queries w + 3)%nat ∧
     progress pSub' = progress pSub) ∧
  (∀ j p,
     (j < 3)%nat →
     (∀ i, (i < j)%nat →
        refresh_due E pSub (first_round_clock pSub w + i) = false) →
     refresh_due E pSub (first_round_clock pSub w + j) = true →
     isNormalTable (cmd_tableMetaInfo (pSql pSub)) = false →
     strstr (sqlstr (pSql pSub)) (list_ascii_of_string " from ") = Some p →
     table_rows E (resolves w) (list_ascii_of_string "select tbid(tbname)" ++ p)
       = None →
     ∃ pSub' w',
       taos_consume E (Some pSub) w = Some ((None, Some pSub'), w') ∧
       queries w' = (queries w + j)%nat ∧
       progress pSub' = progress pSub).
Proof.
  intros Hfail.
  destruct (tscSaveSubscriptionProgress_runs E pSub w)
    as (w1 & Hsave & Hc1 & Hq1 & Hr1).
  destruct (consume_pace_clock E pSub w1) as (w2 & Hpace & Hq2 & Hr2 & Hc2).
  assert (clock_reads w2 = first_round_clock pSub w) as Hc
    by (rewrite Hc2; unfold first_round_clock; by rewrite Hc1).
  split; [|split].
  - intros Hr. unfold taos_consume.
    erewrite bind_Some by exact Hsave. erewrite bind_Some by exact Hpace.
    destruct (consume_retry_all_fail E 3 pSub w2 Hfail Hr)
      as (s3 & w3 & Hretry & Hq3 & Hc3).
    erewrite bind_Some by exact Hretry. cbv beta iota.
    assert (res_code (pSql s3) ≠ TSDB_CODE_SUCCESS E) as Hcode
      by (apply Hc3; right; lia).
    apply Z.eqb_neq in Hcode. rewrite Hcode. cbn [negb].
    eexists _, _. split; [reflexivity|]. lia.
  - intros Hearly. unfold taos_consume.
    erewrite bind_Some by exact Hsave. erewrite bind_Some by exact Hpace.
    destruct (consume_retry_no_refresh E 3 pSub w2 Hfail)
      as (s3 & w3 & Hretry & Hq3 & _ & Hpr3 & Hc3).
    { intros i Hi. rewrite Hc. by apply Hearly. }
    erewrite bind_Some by exact Hretry. cbv beta iota.
    assert (res_code (pSql s3) ≠ TSDB_CODE_SUCCESS E) as Hcode
      by (apply Hc3; lia).
    apply Z.eqb_neq in Hcode. rewrite Hcode. cbn [negb].
    eexists _, _. split; [reflexivity|]. split; [lia|exact Hpr3].
  - intros j p Hj Hearly Hdue Hn Hstr Hrows. unfold taos_consume.
    erewrite bind_Some by exact Hsave. erewrite bind_Some by exact Hpace.
    destruct (consume_retry_due_refresh_fails E j 3 pSub w2 p Hj Hfail)
      as (s3 & w3 & Hretry & Hq3 & Hpr3).
    + intros i Hi. rewrite Hc. by apply Hearly.
    + by rewrite Hc.
    + exact Hn.
    + exact Hstr.
    + by rewrite Hr2, Hr1.
    + erewrite bind_Some by exact Hretry. cbv beta iota.
      eexists _, _. split; [reflexivity|]. split; [lia|exact Hpr3].
Qed.

(** How the loop ends when it is not left by [return NULL]: all rounds
    used up with the last query failed, or a query succeeded and
    [lastSyncTime] was set to zero. *)
Lemma consume_retry_finished E n : ∀ pSub w pSub' w',
  consume_retry E n pSub w = Some ((false, pSub'), w') →
  (n = 0%nat ∧ pSub' = pSub) ∨
  res_code (pSql pSub') ≠ TSDB_CODE_SUCCESS E ∨
  lastSyncTime pSub' = 0.
Proof.
  induction n as [|n IH]; intros pSub w pSub' w' Hrun.
  - left. by injection Hrun as <- <-.
  - right. cbn [consume_retry] in Hrun.
    apply bind_inv in Hrun as (now & w0 & _ & Hrun).
    apply bind_inv in Hrun as ([ok s1] & w1 & _ & Hrun).
    destruct (ok =? 0); [done|].
    apply bind_inv in Hrun as (code & w2 & Hq & Hrun).
    injection Hq as <- <-.
    destruct (negb _) eqn:Hcode.
    + apply IH in Hrun as [[-> ->]|Hrun]; [|done].
      left. simpl. apply negb_true_iff in Hcode. by apply Z.eqb_neq.
    + injection Hrun as <- <-. by right.
Qed.

(** C8, what the code does: whenever [taos_consume] returns a result,
    it has set [lastSyncTime] to zero, whatever the code of the query
    says, and [lastConsumeTime] to the last reading of the clock. *)
Theorem taos_consume_success E pSub w res tsub' w' :
  taos_consume E (Some pSub) w = Some ((Some res, tsub'), w') →
  ∃ pSub',
    tsub' = Some pSub' ∧ res = pSql pSub' ∧
    res_code res = TSDB_CODE_SUCCESS E ∧
    lastSyncTime pSub' = 0 ∧
    lastConsumeTime pSub' = clock E (Nat.pred (clock_reads w')).
Proof.
  unfold taos_consume. intros Hrun.
  apply bind_inv in Hrun as ([] & w1 & _ & Hrun).
  apply bind_inv in Hrun as ([] & w2 & _ & Hrun).
  apply bind_inv in Hrun as ([aborted s3] & w3 & Hretry & Hrun).
  destruct aborted; [done|].
  destruct (negb _) eqn:Hcode; [done|].
  apply bind_inv in Hrun as (now & w4 & Hclock & Hrun).
  injection Hrun as <- <- <-. injection Hclock as <- <-.
  apply negb_false_iff, Z.eqb_eq in Hcode.
  eexists. split; [reflexivity|]. split; [done|]. split; [done|]. simpl.
  split; [|done].
  apply consume_retry_finished in Hretry as [[? _]|[?|?]]; done.
Qed.

(** * What no operation changes *)

Lemma same_identity_refl pSub : same_identity pSub pSub.
Proof. by repeat split. Qed.

Lemma same_identity_trans s1 s2 s3 :
  same_identity s1 s2 → same_identity s2 s3 → same_identity s1 s3.
Proof.
  unfold same_identity. intros (?&?&?&?&?&?&?&?) (?&?&?&?&?&?&?&?).
  repeat split; congruence.
Qed.

Lemma tscUpdateSubscription_identity E pSub w r w' :
  tscUpdateSubscription E pSub w = Some (r, w') → same_identity pSub r.2.
Proof.
  unfold tscUpdateSubscription, getTableList. run_monad.
  destruct (isNormalTable (cmd_tableMetaInfo (pSql pSub))) eqn:Hn.
  - destruct (taosArraySearch _ _ _); intros [= <- <-]; by repeat split.
  - destruct (strstr _ _) as [p|]; [|done]. simpl.
    destruct (table_rows E _ _) as [rows|]; simpl.
    + intros [= <- <-]. simpl.
      destruct (isSuperTable (cmd_tableMetaInfo (pSql pSub))) eqn:Hs;
        by repeat split.
    + intros [= <- <-]. by repeat split.
Qed.

Lemma consume_retry_identity E n : ∀ pSub w r w',
  consume_retry E n pSub w = Some (r, w') → same_identity pSub r.2.
Proof.
  induction n as [|n IH]; intros pSub w r w' Hrun.
  - injection Hrun as <- <-. apply same_identity_refl.
  - cbn [consume_retry] in Hrun.
    apply bind_inv in Hrun as (now & w0 & _ & Hrun).
    apply bind_inv in Hrun as ([ok s1] & w1 & Hupd & Hrun).
    assert (same_identity pSub s1) as Hid.
    { destruct (_ >? _).
      - by apply tscUpdateSubscription_identity in Hupd.
      - injection Hupd as <- <- <-. apply same_identity_refl. }
    destruct (ok =? 0); [by injection Hrun as <- <-|].
    apply bind_inv in Hrun as (code & w2 & _ & Hrun).
    destruct (negb _).
    + apply IH in Hrun. eapply same_identity_trans; [exact Hid|].
      eapply same_identity_trans; [|exact Hrun]. by repeat split.
    + injection Hrun as <- <-. eapply same_identity_trans; [exact Hid|].
      by repeat split.
Qed.

(** The subscription a consume hands back. *)
Lemma taos_consume_keeps_identity E pSub w res tsub w' :
  taos_consume E (Some pSub) w = Some ((res, tsub), w') →
  ∃ pSub', tsub = Some pSub' ∧ same_identity pSub pSub'.
Proof.
  unfold taos_consume. intros Hrun.
  apply bind_inv in Hrun as ([] & w1 & _ & Hrun).
  apply bind_inv in Hrun as ([] & w2 & _ & Hrun).
  apply bind_inv in Hrun as ([aborted s3] & w3 & Hretry & Hrun).
  apply consume_retry_identity in Hretry. simpl in Hretry.
  destruct aborted; [injection Hrun as <- <- <-; eauto|].
  destruct (negb _); [injection Hrun as <- <- <-; eauto|].
  apply bind_inv in Hrun as (now & w4 & _ & Hrun).
  injection Hrun as <- <- <-. eexists. split; [reflexivity|].
  eapply same_identity_trans; [exact Hretry|]. by repeat split.
Qed.

(** What a subscription is like when [tscCreateSubscription] has made
    one. *)
Lemma tscCreateSubscription_fresh E topic0 sql pSub :
  tscCreateSubscription E topic0 sql = Some (Some pSub) →
  progress pSub = [] ∧ pTimer pSub = None ∧ fp pSub = None.
Proof.
  unfold tscCreateSubscription.
  destruct (negb (alloc_query_ok E)); [done|].
  destruct (negb (_ =? _)); [by destruct (tscError_formats E)|].
  destruct (negb (_ =? _)); [by destruct (tscError_formats E)|].
  destruct (negb (alloc_sub_ok E)); [done|]. by intros [= <-].
Qed.

(** * The sorted ProgressSet as an invariant *)

Lemma refresh_defined_identity s s' :
  same_identity s s' → refresh_defined s → refresh_defined s'.
Proof.
  intros (_ & _ & _ & _ & Hsql & Hn & _) [H|H]; [left|right]; congruence.
Qed.

Lemma tscUpdateSubscription_returns E pSub w :
  refresh_defined pSub →
  ∃ ok pSub' w', tscUpdateSubscription E pSub w = Some ((ok, pSub'), w').
Proof.
  intros Hd.
  destruct (isNormalTable (cmd_tableMetaInfo (pSql pSub))) eqn:Hn.
  - unfold tscUpdateSubscription. run_monad. rewrite Hn.
    destruct (taosArraySearch _ _ _); eauto.
  - destruct Hd as [Hd|[p Hp]]; [congruence|].
    unfold tscUpdateSubscription, getTableList. run_monad. rewrite Hn, Hp.
    simpl. destruct (table_rows E _ _); simpl; eauto.
Qed.

Lemma tscUpdateSubscription_keeps_sorted E pSub w r w' :
  resolver_distinct E →
  sorted_unique (progress pSub) →
  tscUpdateSubscription E pSub w = Some (r, w') →
  sorted_unique (progress r.2).
Proof.
  intros Hdist Hs. unfold tscUpdateSubscription, getTableList. run_monad.
  destruct (isNormalTable (cmd_tableMetaInfo (pSql pSub))) eqn:Hn.
  - destruct (taosArraySearch _ _ _); intros [= <- <-]; simpl; [done|].
    repeat constructor.
  - destruct (strstr _ _) as [p|]; [|done]. simpl.
    destruct (table_rows E _ _) as [rows|] eqn:Hrows; simpl.
    + intros [= <- <-]. simpl. apply taosArraySort_sorted_unique.
      rewrite rebuild_progress_map. unfold uids.
      rewrite <- list_fmap_compose. by eapply Hdist.
    + by intros [= <- <-].
Qed.

Lemma consume_retry_returns E n : ∀ pSub w,
  refresh_defined pSub →
  ∃ r w', consume_retry E n pSub w = Some (r, w').
Proof.
  induction n as [|n IH]; intros pSub w Hd; [by eexists _, _|].
  cbn [consume_retry]. erewrite bind_Some by reflexivity.
  set (w0 := MkWorld _ _ _ _ _ _).
  assert (∃ ok s1 w1,
    (if int64_sub (clock E (clock_reads w)) (lastSyncTime pSub) >? 10 * 60 * 1000
     then tscUpdateSubscription E pSub else mret (1, pSub)) w0
    = Some ((ok, s1), w1) ∧ refresh_defined s1) as (ok & s1 & w1 & Hrun & Hd1).
  { destruct (_ >? _).
    - destruct (tscUpdateSubscription_returns E pSub w0 Hd) as (ok & s1 & w1 & Hrun).
      exists ok, s1, w1. split; [done|].
      eapply refresh_defined_identity; [|exact Hd].
      by apply tscUpdateSubscription_identity in Hrun.
    - by eexists _, _, _. }
  erewrite bind_Some by exact Hrun. cbv beta iota.
  destruct (ok =? 0); [by eexists _, _|].
  erewrite bind_Some by reflexivity.
  destruct (negb _); [|by eexists _, _].
  apply IH. destruct Hd1 as [?|?]; [by left|by right].
Qed.

Lemma consume_retry_keeps_sorted E n : ∀ pSub w r w',
  resolver_distinct E →
  sorted_unique (progress pSub) →
  consume_retry E n pSub w = Some (r, w') →
  sorted_unique (progress r.2).
Proof.
  induction n as [|n IH]; intros pSub w r w' Hdist Hs Hrun.
  - by injection Hrun as <- <-.
  - cbn [consume_retry] in Hrun.
    apply bind_inv in Hrun as (now & w0 & _ & Hrun).
    apply bind_inv in Hrun as ([ok s1] & w1 & Hupd & Hrun).
    assert (sorted_unique (progress s1)) as Hs1.
    { destruct (_ >? _).
      - by apply (tscUpdateSubscription_keeps_sorted _ _ _ _ _ Hdist Hs) in Hupd.
      - by injection Hupd as <- <- <-. }
    destruct (ok =? 0); [by injection Hrun as <- <-|].
    apply bind_inv in Hrun as (code & w2 & _ & Hrun).
    destruct (negb _).
    + by apply IH in Hrun.
    + by injection Hrun as <- <-.
Qed.

(** A consume always returns, and hands the subscription back. *)
Lemma taos_consume_returns E pSub w :
  refresh_defined pSub →
  ∃ res pSub' w', taos_consume E (Some pSub) w = Some ((res, Some pSub'), w').
Proof.
  intros Hd. unfold taos_consume.
  destruct (tscSaveSubscriptionProgress_runs E pSub w) as (w1 & Hsave & _).
  erewrite bind_Some by exact Hsave.
  destruct (consume_pace_runs E pSub w1) as (w2 & Hpace & _).
  erewrite bind_Some by exact Hpace.
  destruct (consume_retry_returns E 3 pSub w2 Hd) as ([aborted s3] & w3 & Hretry).
  erewrite bind_Some by exact Hretry. cbv beta iota.
  destruct aborted; [by eexists _, _, _|].
  destruct (negb _); [by eexists _, _, _|].
  erewrite bind_Some by reflexivity. by eexists _, _, _.
Qed.

Lemma taos_consume_keeps_sorted E pSub w res pSub' w' :
  resolver_distinct E →
  sorted_unique (progress pSub) →
  taos_consume E (Some pSub) w = Some ((res, Some pSub'), w') →
  sorted_unique (progress pSub').
Proof.
  intros Hdist Hs. unfold taos_consume. intros Hrun.
  apply bind_inv in Hrun as ([] & w1 & _ & Hrun).
  apply bind_inv in Hrun as ([] & w2 & _ & Hrun).
  apply bind_inv in Hrun as ([aborted s3] & w3 & Hretry & Hrun).
  apply (consume_retry_keeps_sorted _ _ _ _ _ _ Hdist Hs) in Hretry.
  destruct aborted; [by injection Hrun as _ <- _|].
  destruct (negb _); [by injection Hrun as _ <- _|].
  apply bind_inv in Hrun as (now & w4 & _ & Hrun).
  by injection Hrun as _ <- _.
Qed.

Lemma apply_operation_sorted E op pSub w :
  resolver_distinct E →
  refresh_defined pSub →
  sorted_unique (progress pSub) →
  ∃ pSub' w', apply_operation E op (pSub, w) = Some (pSub', w') ∧
              refresh_defined pSub' ∧ sorted_unique (progress pSub').
Proof.
  intros Hdist Hd Hs. destruct op as [|uid0 ts| |]; unfold apply_operation.
  - destruct (taos_consume_returns E pSub w Hd) as (res & s & w' & Hrun).
    rewrite Hrun. exists s, w'. split; [done|]. split.
    + destruct (taos_consume_keeps_identity _ _ _ _ _ _ Hrun) as (s' & [= <-] & Hid).
      by eapply refresh_defined_identity.
    + by eapply taos_consume_keeps_sorted.
  - unfold tscUpdateSubscriptionProgress.
    destruct (taosArraySearch _ _ _) as [i|]; [|by eexists _, _].
    eexists _, _. split; [reflexivity|]. split; [done|].
    simpl. by apply sorted_unique_alter_key.
  - destruct (tscUpdateSubscription_returns E pSub w Hd) as (ok & s & w' & Hrun).
    rewrite Hrun. exists s, w'. split; [done|]. split.
    + eapply refresh_defined_identity; [|exact Hd].
      by apply tscUpdateSubscription_identity in Hrun.
    + by apply (tscUpdateSubscription_keeps_sorted _ _ _ _ _ Hdist Hs) in Hrun.
  - destruct (tscSaveSubscriptionProgress_runs E pSub w) as (w' & -> & _).
    by eexists _, _.
Qed.

(** C2 as the code has it, the load apart. When the resolver never
    returns a uid twice: the ProgressSet of a new subscription is
    sorted, strictly ascending by uid; so is the one [taos_subscribe]
    returns when it is called with [restart]; and from a sorted
    ProgressSet every sequence of consumes, progress updates, refreshes
    and saves runs through and leaves a sorted ProgressSet (on a Normal
    table, or with a query text that has its [" from "]). *)
Theorem progress_stays_sorted E :
  resolver_distinct E →
  (∀ topic0 sql pSub,
     tscCreateSubscription E topic0 sql = Some (Some pSub) →
     sorted_unique (progress pSub)) ∧
  (∀ restart topic0 sql fp0 interval0 w pSub w',
     restart ≠ 0 →
     taos_subscribe E true restart topic0 sql fp0 interval0 w
     = Some (Some pSub, w') →
     sorted_unique (progress pSub)) ∧
  (∀ ops pSub w,
     refresh_defined pSub →
     sorted_unique (progress pSub) →
     ∃ pSub' w',
       apply_operations E ops (pSub, w) = Some (pSub', w') ∧
       sorted_unique (progress pSub')).
Proof.
  intros Hdist. split; [|split].
  - intros topic0 sql pSub Hcreate.
    destruct (tscCreateSubscription_fresh _ _ _ _ Hcreate) as (-> & _).
    constructor.
  - intros restart topic0 sql fp0 interval0 w pSub w' Hrestart.
    unfold taos_subscribe. cbn [negb].
    destruct (tscCreateSubscription E topic0 sql) as [[s0|]|] eqn:Hcreate;
      [|done..].
    destruct (tscCreateSubscription_fresh _ _ _ _ Hcreate) as (Hnil & _).
    apply Z.eqb_neq in Hrestart. rewrite Hrestart. cbn [negb].
    rewrite (bind_Some _ _ _ s0 _ eq_refl). intros Hrun.
    apply bind_inv in Hrun as ([ok s1] & w1 & Hupd & Hrun).
    apply (tscUpdateSubscription_keeps_sorted _ _ _ _ _ Hdist) in Hupd;
      [|rewrite Hnil; constructor].
    destruct (ok =? 0).
    + apply bind_inv in Hrun as ([] & w2 & _ & Hrun). done.
    + destruct fp0; by injection Hrun as <- _.
  - induction ops as [|op ops IH]; intros pSub w Hd Hs; cbn [apply_operations].
    + by eexists _, _.
    + destruct (apply_operation_sorted E op pSub w Hdist Hd Hs)
        as (s1 & w1 & -> & Hd1 & Hs1).
      by apply IH.
Qed.

(** * Properties of the progress file *)

(** ** Printing and scanning a number *)

Lemma digit_cases d :
  0 <= d < 10 →
  d = 0 ∨ d = 1 ∨ d = 2 ∨ d = 3 ∨ d = 4 ∨ d = 5 ∨ d = 6 ∨ d = 7 ∨ d = 8 ∨ d = 9.
Proof. lia. Qed.

Lemma isdigit_digit_char d : 0 <= d < 10 → isdigit (digit_char d) = true.
Proof.
  intros H. apply digit_cases in H.
  repeat (destruct H as [->|H]; [reflexivity|]). by subst.
Qed.

Lemma digit_value_digit_char d : 0 <= d < 10 → digit_value (digit_char d) = d.
Proof.
  intros H. apply digit_cases in H.
  repeat (destruct H as [->|H]; [reflexivity|]). by subst.
Qed.

(** A digit is no white space, no sign, no separator and no line or
    string end. *)
Lemma isdigit_plain c :
  isdigit c = true →
  isspace c = false ∧ (c =? "-")%char = false ∧ (c =? "+")%char = false ∧
  (c =? ":")%char = false ∧ (c =? LF)%char = false ∧ (c =? NUL)%char = false.
Proof.
  destruct c as [[] [] [] [] [] [] [] []]; vm_compute; intros H;
    first [discriminate H | repeat split].
Qed.

Lemma digits_rev_isdigit fuel n :
  0 <= n → Forall (λ c, isdigit c = true) (digits_rev fuel n).
Proof.
  revert n. induction fuel as [|fuel IH]; intros n Hn; simpl; [constructor|].
  constructor.
  - apply isdigit_digit_char. apply Z.mod_pos_bound. lia.
  - destruct (n <? 10); [constructor|]. apply IH. apply Z.div_pos; lia.
Qed.

Lemma digits_rev_length fuel n : (length (digits_rev fuel n) ≤ fuel)%nat.
Proof.
  revert n. induction fuel as [|fuel IH]; intros n; simpl; [lia|].
  destruct (n <? 10); simpl; [lia|]. specialize (IH (n / 10)). lia.
Qed.

Lemma digits_rev_value fuel n :
  0 <= n < 2 ^ Z.of_nat fuel →
  fold_right (λ c a, 10 * a + digit_value c) 0 (digits_rev fuel n) = n.
Proof.
  revert n. induction fuel as [|fuel IH]; intros n Hn.
  - simpl in Hn. simpl. lia.
  - cbn [digits_rev fold_right].
    rewrite digit_value_digit_char by (apply Z.mod_pos_bound; lia).
    destruct (n <? 10) eqn:Hlt.
    + apply Z.ltb_lt in Hlt. simpl. rewrite Z.mod_small; lia.
    + apply Z.ltb_ge in Hlt. rewrite IH.
      * pose proof (Z.div_mod n 10). lia.
      * rewrite Nat2Z.inj_succ, Z.pow_succ_r in Hn by lia.
        split; [apply Z.div_pos; lia|].
        apply Z.div_lt_upper_bound; lia.
Qed.

Lemma scan_digits_stop acc rest :
  (∀ c t, rest = c :: t → isdigit c = false) →
  scan_digits acc rest = (acc, rest).
Proof.
  intros H. destruct rest as [|c t]; [done|]. simpl.
  by rewrite (H c t).
Qed.

Lemma scan_digits_app l rest acc :
  Forall (λ c, isdigit c = true) l →
  scan_digits acc (l ++ rest)
  = scan_digits (fold_left (λ a c, 10 * a + digit_value c) l acc) rest.
Proof.
  intros Hl. revert acc. induction Hl as [|c l Hc Hl IH]; intros acc; [done|].
  simpl. rewrite Hc. apply IH.
Qed.

Lemma print_unsigned_scan n rest :
  0 <= n →
  (∀ c t, rest = c :: t → isdigit c = false) →
  scan_digits 0 (print_unsigned n ++ rest) = (n, rest).
Proof.
  intros Hn Hrest. unfold print_unsigned.
  rewrite scan_digits_app by (apply Forall_rev, digits_rev_isdigit; done).
  rewrite <- fold_left_rev_right, rev_involutive.
  rewrite digits_rev_value; [by apply scan_digits_stop|].
  split; [done|].
  rewrite Nat2Z.inj_succ, Z2Nat.id by apply Z.log2_nonneg.
  destruct (decide (n = 0)) as [->|]; [done|].
  apply Z.log2_spec. lia.
Qed.

Lemma print_unsigned_head n :
  0 <= n →
  ∃ c t, print_unsigned n = c :: t ∧ isdigit c = true.
Proof.
  intros Hn. unfold print_unsigned.
  pose proof (digits_rev_isdigit (S (Z.to_nat (Z.log2 n))) n Hn) as Hall.
  apply Forall_rev in Hall.
  destruct (rev (digits_rev (S (Z.to_nat (Z.log2 n))) n)) as [|c t] eqn:Hrev.
  - apply (f_equal (@length ascii)) in Hrev. rewrite length_rev in Hrev.
    simpl in Hrev. lia.
  - exists c, t. split; [done|]. by inversion Hall.
Qed.

Lemma saturate_int64_id z : is_int64 z → saturate_int64 z = z.
Proof. unfold is_int64, saturate_int64. lia. Qed.

Lemma scan_d64_unsigned c t :
  isdigit c = true →
  scan_d64 (c :: t)
  = Some (saturate_int64 (fst (scan_digits 0 (c :: t))),
          snd (scan_digits 0 (c :: t))).
Proof.
  intros Hc. unfold scan_d64. cbn [skip_space].
  destruct (isdigit_plain c Hc) as (-> & -> & -> & _). rewrite Hc.
  by destruct (scan_digits 0 (c :: t)).
Qed.

Lemma scan_d64_minus c t :
  isdigit c = true →
  scan_d64 ("-"%char :: c :: t)
  = Some (saturate_int64 (- fst (scan_digits 0 (c :: t))),
          snd (scan_digits 0 (c :: t))).
Proof.
  intros Hc. unfold scan_d64. cbn [skip_space].
  replace (isspace "-"%char) with false by reflexivity.
  replace ("-" =? "-")%char with true by reflexivity.
  rewrite Hc. by destruct (scan_digits 0 (c :: t)).
Qed.

(** Scanning what [%lld] printed gives the number back. *)
Lemma scan_d64_print z rest :
  is_int64 z →
  (∀ c t, rest = c :: t → isdigit c = false) →
  scan_d64 (print_d64 z ++ rest) = Some (z, rest).
Proof.
  intros Hz Hrest. unfold print_d64.
  destruct (z <? 0) eqn:Hneg.
  - apply Z.ltb_lt in Hneg.
    destruct (print_unsigned_head (- z)) as (c & t & Hpr & Hc); [lia|].
    pose proof (print_unsigned_scan (- z) rest ltac:(lia) Hrest) as Hscan.
    rewrite Hpr in *.
    change (("-"%char :: c :: t) ++ rest) with ("-"%char :: c :: (t ++ rest)).
    change ((c :: t) ++ rest) with (c :: (t ++ rest)) in Hscan.
    rewrite scan_d64_minus, Hscan by done. simpl.
    rewrite saturate_int64_id; [do 2 f_equal; lia|].
    by replace (- - z) with z by lia.
  - apply Z.ltb_ge in Hneg.
    destruct (print_unsigned_head z) as (c & t & Hpr & Hc); [lia|].
    pose proof (print_unsigned_scan z rest ltac:(lia) Hrest) as Hscan.
    rewrite Hpr in *.
    change ((c :: t) ++ rest) with (c :: (t ++ rest)) in *.
    rewrite scan_d64_unsigned, Hscan by done. simpl.
    by rewrite saturate_int64_id.
Qed.

Lemma print_d64_chars z : Forall num_char (print_d64 z).
Proof.
  assert (∀ n, 0 <= n → Forall num_char (print_unsigned n)) as Hu.
  { intros n Hn. unfold print_unsigned. apply Forall_rev.
    eapply Forall_impl; [by apply digits_rev_isdigit|]. by left. }
  unfold print_d64. destruct (z <? 0) eqn:Hneg.
  - apply Z.ltb_lt in Hneg. constructor; [by right|]. apply Hu. lia.
  - apply Z.ltb_ge in Hneg. by apply Hu.
Qed.

Lemma num_char_plain c :
  num_char c → (c =? LF)%char = false ∧ (c =? NUL)%char = false.
Proof.
  intros [H| ->]; [|done]. by destruct (isdigit_plain c H) as (_ & _ & _ & _ & ? & ?).
Qed.

Lemma print_d64_length z : is_int64 z → (length (print_d64 z) ≤ 65)%nat.
Proof.
  intros [Hlo Hhi]. unfold INT64_MIN, INT64_MAX in *.
  assert (∀ n, 0 <= n <= 2 ^ 63 → (length (print_unsigned n) ≤ 64)%nat) as Hu.
  { intros n Hn. unfold print_unsigned. rewrite length_rev.
    etrans; [apply digits_rev_length|].
    assert (Z.log2 n <= 63); [|lia].
    destruct (decide (n = 0)) as [->|]; [done|].
    etrans; [apply (Z.log2_le_mono n (2 ^ 63)); lia|].
    by rewrite Z.log2_pow2. }
  unfold print_d64. destruct (z <? 0) eqn:Hneg.
  - apply Z.ltb_lt in Hneg. simpl. specialize (Hu (- z)). lia.
  - apply Z.ltb_ge in Hneg. specialize (Hu z). lia.
Qed.

(** ** C strings and lines *)

Lemma strcmp_cstr_0 a b : strcmp_cstr a b = 0 ↔ a = b.
Proof.
  revert b. induction a as [|x a IH]; intros [|y b]; simpl; try done.
  destruct (Ascii.eqb_spec x y) as [->|Hne].
  - rewrite IH. split; [by intros ->|by intros [= ->]].
  - split; [destruct (_ <? _)%N; done|]. intros [= ? ?]. done.
Qed.

Lemma strcmp_0 a b : (strcmp a b =? 0) = true ↔ c_str a = c_str b.
Proof. unfold strcmp. rewrite Z.eqb_eq. apply strcmp_cstr_0. Qed.

Lemma c_str_idemp l : c_str (c_str l) = c_str l.
Proof.
  induction l as [|c l IH]; [done|]. simpl.
  destruct (c =? NUL)%char eqn:Hc; [done|]. simpl. by rewrite Hc, IH.
Qed.

Lemma c_str_plain l :
  Forall (λ c, (c =? NUL)%char = false) l → c_str l = l.
Proof. induction 1 as [|c l Hc _ IH]; [done|]. simpl. by rewrite Hc, IH. Qed.

Lemma c_str_cut_line buf : c_str (cut_line buf) = cut_line buf.
Proof.
  induction buf as [|c buf IH]; [done|]. simpl.
  destruct (c =? NUL)%char eqn:Hc; [done|].
  destruct ((c =? CR)%char || (c =? LF)%char); [done|].
  simpl. by rewrite Hc, IH.
Qed.

(** A line that holds a C string free of carriage returns and line
    feeds, and its line feed, is cut back to that string. *)
Lemma cut_line_c_str s :
  Forall (λ c, c ≠ CR ∧ c ≠ LF) (c_str s) →
  cut_line (c_str s ++ [LF]) = c_str s.
Proof.
  induction s as [|c s IH]; [done|]. simpl.
  destruct (c =? NUL)%char eqn:Hc; [done|]. intros Hall.
  apply Forall_cons in Hall as [[H1 H2] Hall]. simpl. rewrite Hc.
  apply Ascii.eqb_neq in H1, H2. rewrite H1, H2. simpl. by rewrite IH.
Qed.

Lemma file_lines_nil content : file_lines content = [] → content = [].
Proof.
  destruct content as [|c t]; [done|]. simpl.
  destruct (c =? LF)%char; [done|]. by destruct (file_lines t).
Qed.

Lemma file_lines_length content :
  (length (file_lines content) ≤ length content)%nat.
Proof.
  induction content as [|c t IH]; simpl; [lia|].
  destruct (c =? LF)%char; simpl; [lia|].
  destruct (file_lines t); simpl in *; lia.
Qed.

Lemma file_lines_app_LF l rest :
  Forall (λ c, (c =? LF)%char = false) l →
  file_lines (l ++ LF :: rest) = (l ++ [LF]) :: file_lines rest.
Proof.
  induction 1 as [|c l Hc _ IH]; [done|]. simpl. by rewrite Hc, IH.
Qed.

(** ** Reading line by line *)

(** [fgets] reads a whole line when the line fits the buffer. *)
Lemma fgets_chars_line : ∀ content k l ls,
  file_lines content = l :: ls → (length l ≤ k)%nat →
  ∃ fp, fgets_chars k content = (l, fp) ∧ file_lines fp = ls.
Proof.
  induction content as [|c t IH]; intros k l ls Hl Hk; [done|].
  simpl in Hl. destruct (c =? LF)%char eqn:HLF.
  - injection Hl as <- <-. destruct k; [simpl in Hk; lia|].
    simpl. rewrite HLF. eauto.
  - destruct (file_lines t) as [|l' ls'] eqn:Ht.
    + injection Hl as <- <-. destruct k; [simpl in Hk; lia|].
      simpl. rewrite HLF. apply file_lines_nil in Ht as ->.
      destruct k; simpl; eauto.
    + injection Hl as <- <-. destruct k; [simpl in Hk; lia|].
      simpl. rewrite HLF.
      destruct (IH k l' ls' eq_refl) as (fp & -> & Hfp); [simpl in Hk; lia|].
      eauto.
Qed.

Lemma fgets_line size content l ls :
  file_lines content = l :: ls → (length l < size)%nat →
  ∃ fp, fgets size content = Some (l, fp) ∧ file_lines fp = ls.
Proof.
  intros Hl Hk.
  destruct (fgets_chars_line content (size - 1) l ls Hl) as (fp & Hfp & Hls);
    [lia|].
  exists fp. split; [|done]. unfold fgets. rewrite Hfp.
  by destruct content.
Qed.

(** The load loop makes one entry of every line, whatever the line
    holds, and ends only at the end of the file. *)
Lemma load_loop_lines E : ∀ ls fuel n content pr,
  file_lines content = ls →
  Forall (λ l, (length l < TSDB_MAX_SQL_LEN E)%nat) ls →
  (length ls < fuel)%nat →
  load_loop E fuel n content pr
  = Some (pr ++ imap (λ i buf, scan_progress E (n + i) buf) ls).
Proof.
  induction ls as [|l ls IH]; intros fuel n content pr Hl Hfit Hfuel.
  - apply file_lines_nil in Hl as ->.
    destruct fuel; [simpl in Hfuel; lia|]. simpl. by rewrite app_nil_r.
  - destruct fuel; [simpl in Hfuel; lia|].
    apply Forall_cons in Hfit as [Hfit1 Hfit].
    destruct (fgets_line _ content l ls Hl Hfit1) as (fp & Hfp & Hls).
    cbn [load_loop]. rewrite Hfp.
    rewrite (IH fuel (S n) fp _ Hls Hfit) by (simpl in Hfuel; lia).
    unfold taosArrayPush. rewrite <- app_assoc. simpl.
    rewrite Nat.add_0_r. do 3 f_equal.
    apply imap_ext. intros i x _. simpl. f_equal. lia.
Qed.

(** ** The load of the progress file *)

(** What the load gives when the first line of the file is the query
    text: one entry for each remaining line. *)
Lemma load_lines_result E pSub w content first rest :
  files w !! progress_path E pSub = Some content →
  file_lines content = first :: rest →
  Forall (λ l, (length l < TSDB_MAX_SQL_LEN E)%nat) (first :: rest) →
  cut_line first = c_str (sqlstr (pSql pSub)) →
  ∃ pr,
    tscLoadSubscriptionProgress E pSub w = Some ((0, set_progress pSub pr), w) ∧
    length pr = length rest ∧
    ∀ i line a b,
      rest !! i = Some line → sscanf_d64_d64 line = (Some a, Some b) →
      pr !! i = Some (MkProgress a b).
Proof.
  intros Hfile Hlines Hfit Hsql.
  apply Forall_cons in Hfit as [Hfit1 Hfit].
  destruct (fgets_line _ content first rest Hlines Hfit1) as (fp & Hfp & Hrest).
  unfold tscLoadSubscriptionProgress. rewrite Hfile, Hfp.
  assert ((strcmp (cut_line first) (sqlstr (pSql pSub)) =? 0) = true) as ->.
  { apply strcmp_0. by rewrite c_str_cut_line. }
  simpl negb. cbv iota.
  rewrite (load_loop_lines E rest _ 0 fp _ Hrest Hfit).
  - eexists. split; [reflexivity|]. unfold taosArrayClear. simpl.
    split; [by rewrite length_imap|].
    intros i line a b Hi Hscan. rewrite list_lookup_imap, Hi. simpl.
    unfold scan_progress. by rewrite Hscan.
  - pose proof (file_lines_length fp). rewrite Hrest in *. lia.
Qed.

(** C6 as the code has it. When the first line of the file is the
    query text and every line of the file, with its line feed, is
    shorter than the read buffer of [TSDB_MAX_SQL_LEN] bytes, the load
    does not stop at a line that is not [<int64>:<int64>]: it returns 0
    with one entry for each remaining line of the file, in the order of
    the lines, and every line that is [<int64>:<int64>] gives its two
    numbers, also after a line that is not. *)
Theorem load_reads_every_line E pSub w content first rest :
  files w !! progress_path E pSub = Some content →
  file_lines content = first :: rest →
  Forall (λ l, (length l < TSDB_MAX_SQL_LEN E)%nat) (first :: rest) →
  cut_line first = c_str (sqlstr (pSql pSub)) →
  ∃ pr,
    tscLoadSubscriptionProgress E pSub w = Some ((0, set_progress pSub pr), w) ∧
    length pr = length rest ∧
    ∀ i line a b,
      rest !! i = Some line → sscanf_d64_d64 line = (Some a, Some b) →
      pr !! i = Some (MkProgress a b).
Proof. apply load_lines_result. Qed.

(** C5 as the code has it. When the first line of the file, cut at its
    first NUL, carriage return or line feed, is not the query text of
    the subscription, the load returns 0 and leaves the subscription as
    it was: with the empty ProgressSet [tscCreateSubscription] gave it,
    when the subscription is a new one. *)
Theorem load_sql_gate E pSub w content first rest :
  files w !! progress_path E pSub = Some content →
  file_lines content = first :: rest →
  (length first < TSDB_MAX_SQL_LEN E)%nat →
  cut_line first ≠ c_str (sqlstr (pSql pSub)) →
  tscLoadSubscriptionProgress E pSub w = Some ((0, pSub), w) ∧
  ∀ topic0 sql, tscCreateSubscription E topic0 sql = Some (Some pSub) →
                progress pSub = [].
Proof.
  intros Hfile Hlines Hfit Hsql. split.
  - destruct (fgets_line _ content first rest Hlines Hfit) as (fp & Hfp & _).
    unfold tscLoadSubscriptionProgress. rewrite Hfile, Hfp.
    destruct (strcmp (cut_line first) (sqlstr (pSql pSub)) =? 0) eqn:Hcmp; [|done].
    apply strcmp_0 in Hcmp. by rewrite c_str_cut_line in Hcmp.
  - intros topic0 sql Hcreate.
    by destruct (tscCreateSubscription_fresh _ _ _ _ Hcreate).
Qed.

(** ** The saved file *)

Lemma progress_line_body p :
  progress_line p = (print_d64 (uid p) ++ ":"%char :: print_d64 (key p)) ++ [LF].
Proof. unfold progress_line. by rewrite <- app_assoc. Qed.

Lemma progress_line_no_LF p :
  Forall (λ c, (c =? LF)%char = false)
    (print_d64 (uid p) ++ ":"%char :: print_d64 (key p)).
Proof.
  apply Forall_app. split; [|constructor; [done|]];
    (eapply Forall_impl; [apply print_d64_chars|]);
    intros c Hc; by destruct (num_char_plain c Hc).
Qed.

Lemma progress_line_no_NUL p :
  Forall (λ c, (c =? NUL)%char = false) (progress_line p).
Proof.
  unfold progress_line.
  apply Forall_app. split; [|constructor; [done|apply Forall_app; split]].
  - eapply Forall_impl; [apply print_d64_chars|].
    intros c Hc; by destruct (num_char_plain c Hc).
  - eapply Forall_impl; [apply print_d64_chars|].
    intros c Hc; by destruct (num_char_plain c Hc).
  - by constructor.
Qed.

Lemma progress_line_length p :
  is_int64 (uid p) → is_int64 (key p) → (length (progress_line p) ≤ 132)%nat.
Proof.
  intros Hu Hk. unfold progress_line. rewrite length_app. simpl.
  rewrite length_app. simpl.
  pose proof (print_d64_length _ Hu). pose proof (print_d64_length _ Hk). lia.
Qed.

(** What [sscanf] reads in a line [fprintf] wrote. *)
Lemma sscanf_progress_line p :
  is_int64 (uid p) → is_int64 (key p) →
  sscanf_d64_d64 (progress_line p) = (Some (uid p), Some (key p)).
Proof.
  intros Hu Hk. unfold sscanf_d64_d64.
  rewrite c_str_plain by apply progress_line_no_NUL.
  unfold progress_line.
  rewrite scan_d64_print; [|done|by intros c t [= <- _]].
  replace (":" =? ":")%char with true by reflexivity.
  rewrite scan_d64_print; [done|done|by intros c t [= <- _]].
Qed.

Lemma file_lines_progress pr :
  file_lines (concat (progress_line <$> pr)) = progress_line <$> pr.
Proof.
  induction pr as [|p pr IH]; [done|].
  rewrite fmap_cons. cbn [concat]. rewrite progress_line_body at 1.
  rewrite <- app_assoc. cbn [app].
  rewrite file_lines_app_LF by apply progress_line_no_LF.
  by rewrite IH, <- progress_line_body.
Qed.

Lemma progress_file_concat pSub :
  progress_file pSub
  = c_str (sqlstr (pSql pSub)) ++ LF :: concat (progress_line <$> progress pSub).
Proof.
  unfold progress_file.
  assert (∀ pr init,
    fold_left (λ content p, content ++ progress_line p) pr init
    = init ++ concat (progress_line <$> pr)) as Hfold.
  { induction pr as [|p pr IH]; intros init; simpl.
    - by rewrite app_nil_r.
    - by rewrite IH, <- app_assoc. }
  rewrite Hfold, <- app_assoc. done.
Qed.

Lemma file_lines_progress_file pSub :
  Forall (λ c, c ≠ CR ∧ c ≠ LF) (c_str (sqlstr (pSql pSub))) →
  file_lines (progress_file pSub)
  = (c_str (sqlstr (pSql pSub)) ++ [LF]) :: (progress_line <$> progress pSub).
Proof.
  intros Hsql. rewrite progress_file_concat, file_lines_app_LF.
  - by rewrite file_lines_progress.
  - eapply Forall_impl; [exact Hsql|]. intros c [_ Hc]. by apply Ascii.eqb_neq.
Qed.

(** ** Save, then load *)

(** What a load finds in the file a save wrote. *)
Lemma load_saved_file E pSub pSub0 w :
  files w !! progress_path E pSub0 = Some (progress_file pSub) →
  sqlstr (pSql pSub0) = sqlstr (pSql pSub) →
  Forall (λ c, c ≠ CR ∧ c ≠ LF) (c_str (sqlstr (pSql pSub))) →
  (length (c_str (sqlstr (pSql pSub))) + 1 < TSDB_MAX_SQL_LEN E)%nat →
  (133 ≤ TSDB_MAX_SQL_LEN E)%nat →
  Forall (λ p, is_int64 (uid p) ∧ is_int64 (key p)) (progress pSub) →
  tscLoadSubscriptionProgress E pSub0 w
  = Some ((0, set_progress pSub0 (progress pSub)), w).
Proof.
  intros Hfile Hsame Hsql Hlen Hbuf Hint.
  edestruct (load_lines_result E pSub0 w) as (pr & Hload & Hlength & Hpr).
  - exact Hfile.
  - by apply file_lines_progress_file.
  - constructor.
    + rewrite length_app. simpl. lia.
    + apply Forall_fmap. eapply Forall_impl; [exact Hint|].
      intros q [Hu Hk]. simpl.
      pose proof (progress_line_length q Hu Hk). lia.
  - rewrite Hsame. by apply cut_line_c_str.
  - rewrite Hload. do 4 f_equal.
    apply list_eq. intros i. rewrite length_fmap in Hlength.
    destruct (progress pSub !! i) as [q|] eqn:Hq.
    + rewrite Forall_forall in Hint.
      destruct (Hint q) as [Hu Hk]; [by eapply list_elem_of_lookup_2|].
      rewrite (Hpr i (progress_line q) (uid q) (key q)).
      * by destruct q.
      * by rewrite list_lookup_fmap, Hq.
      * by apply sscanf_progress_line.
    + apply lookup_ge_None in Hq. apply lookup_ge_None. lia.
Qed.

(** C3, what the code does. After [tscSaveSubscriptionProgress] has
    written the file, [tscLoadSubscriptionProgress] on a subscription of
    the same topic and query text restores the saved ProgressSet, and
    the value it returns is 0, the value it returns for a file it
    rejects, not 1. *)
Theorem save_then_load E pSub w :
  fopen_w_ok E (progress_path E pSub) = true →
  Forall (λ c, c ≠ CR ∧ c ≠ LF) (c_str (sqlstr (pSql pSub))) →
  (length (c_str (sqlstr (pSql pSub))) + 1 < TSDB_MAX_SQL_LEN E)%nat →
  (133 ≤ TSDB_MAX_SQL_LEN E)%nat →
  Forall (λ p, is_int64 (uid p) ∧ is_int64 (key p)) (progress pSub) →
  ∃ w1,
    tscSaveSubscriptionProgress E pSub w = Some (tt, w1) ∧
    ∀ pSub0,
      topic pSub0 = topic pSub → sqlstr (pSql pSub0) = sqlstr (pSql pSub) →
      tscLoadSubscriptionProgress E pSub0 w1
      = Some ((0, set_progress pSub0 (progress pSub)), w1).
Proof.
  intros Hopen Hsql Hlen Hbuf Hint.
  unfold tscSaveSubscriptionProgress, mbind, M_bind, tmkdir. rewrite Hopen.
  eexists. split; [reflexivity|]. intros pSub0 Htopic Hsame.
  apply load_saved_file; try done.
  unfold progress_path. rewrite Htopic. apply lookup_insert_eq.
Qed.

(** * The properties at sample data *)

(** C1 at a sample: the resolver returns the uids 30 and 10 to a
    subscription that holds 10 and 20. *)
Lemma tscUpdateSubscription_topology_witness :
  ∃ pSub' w',
    tscUpdateSubscription
      (sample_env (λ _, 100) (λ _, 0) (Some [MkTidTags 30 1; MkTidTags 10 1]))
      (sample_sub sample_super 0 [MkProgress 10 5; MkProgress 20 6])
      (sample_world None) = Some ((1, pSub'), w') ∧
    MkProgress 10 5 ∈ progress pSub' ∧
    MkProgress 30 INT64_MIN ∈ progress pSub' ∧
    (20 ∉ uids (progress pSub')) ∧
    sorted_unique (progress pSub').
Proof.
  destruct (tscUpdateSubscription_topology
              (sample_env (λ _, 100) (λ _, 0) (Some [MkTidTags 30 1; MkTidTags 10 1]))
              (sample_sub sample_super 0 [MkProgress 10 5; MkProgress 20 6])
              (sample_world None) (bytes " from s")
              [MkTidTags 30 1; MkTidTags 10 1])
    as (pSub' & w' & Hrun & _ & Hkeep & Hnew & Hgone & _ & Hsorted).
  - reflexivity.
  - reflexivity.
  - reflexivity.
  - exists pSub', w'. split; [exact Hrun|]. split; [|split; [|split]].
    + assert (sorted_unique [MkProgress 10 5; MkProgress 20 6]) as Hs
        by compute_done.
      apply (Hkeep Hs 10 5); [compute_done|compute_done|reflexivity].
    + apply (Hnew 30); [compute_done|compute_done|reflexivity].
    + apply Hgone. compute_done.
    + apply Hsorted. compute_done.
Defined.

(** C1 as stated fails: the ProgressSet holds the uids 20 and 10 in
    this order, the order of the lines of a progress file that the load
    has left as it found them; the resolver returns 10 and 20, and the
    uid 20, which was there with the key 6, comes out with the key
    [INT64_MIN].  The same through [taos_subscribe] on that file. *)
Lemma tscUpdateSubscription_unsorted_loses_key :
  (∃ pSub' w',
     tscUpdateSubscription
       (sample_env (λ _, 100) (λ _, 0) (Some [MkTidTags 10 1; MkTidTags 20 1]))
       (sample_sub sample_super 0 [MkProgress 20 6; MkProgress 10 5])
       (sample_world None) = Some ((1, pSub'), w') ∧
     20 ∈ tt_uid <$> [MkTidTags 10 1; MkTidTags 20 1] ∧
     MkProgress 20 6 ∈ [MkProgress 20 6; MkProgress 10 5] ∧
     progress pSub' = [MkProgress 10 5; MkProgress 20 INT64_MIN] ∧
     MkProgress 20 6 ∉ progress pSub') ∧
  (∃ pSub' w',
     taos_subscribe
       (sample_env (λ _, 100) (λ _, 0) (Some [MkTidTags 10 1; MkTidTags 20 1]))
       true 0 (bytes "t1") (bytes "select * from s") None 1000
       (sample_world (Some file_unsorted)) = Some (Some pSub', w') ∧
     progress pSub' = [MkProgress 10 5; MkProgress 20 INT64_MIN]).
Proof.
  split.
  - eexists _, _. split; [by vm_compute|]. cbn [progress].
    split; [compute_done|]. split; [compute_done|]. split; [reflexivity|].
    compute_done.
  - eexists _, _. split; [by vm_compute|]. reflexivity.
Qed.

(** C2 at a sample: a new subscription, as [tscCreateSubscription]
    gives it and as [taos_subscribe] with [restart] returns it; then
    refreshed to the tables 10 and 30, updated, consumed and saved. *)
Lemma progress_stays_sorted_witness :
  sorted_unique (progress sample_created) ∧
  (∃ pSub w',
     taos_subscribe
       (sample_env (λ _, 1000000) (λ _, 0) (Some [MkTidTags 30 1; MkTidTags 10 1]))
       true 1 (bytes "t1") (bytes "select * from s") None 1000 (sample_world None)
     = Some (Some pSub, w') ∧
     sorted_unique (progress pSub)) ∧
  ∃ pSub' w',
    apply_operations
      (sample_env (λ _, 1000000) (λ _, 0) (Some [MkTidTags 30 1; MkTidTags 10 1]))
      [OpRefresh; OpProgressUpdate 10 42; OpConsume; OpSave; OpConsume]
      (sample_created, sample_world None) = Some (pSub', w') ∧
    sorted_unique (progress pSub').
Proof.
  destruct (progress_stays_sorted
              (sample_env (λ _, 1000000) (λ _, 0)
                 (Some [MkTidTags 30 1; MkTidTags 10 1])))
    as (Hcreate & Hsubscribe & Hops).
  - intros n sql rows [= <-]. compute_done.
  - split; [|split].
    + apply (Hcreate (bytes "t1") (bytes "select * from s")). reflexivity.
    + assert (∃ pSub w',
        taos_subscribe
          (sample_env (λ _, 1000000) (λ _, 0)
             (Some [MkTidTags 30 1; MkTidTags 10 1]))
          true 1 (bytes "t1") (bytes "select * from s") None 1000
          (sample_world None) = Some (Some pSub, w')) as (pSub & w' & Hrun)
        by (eexists _, _; by vm_compute).
      exists pSub, w'. split; [exact Hrun|].
      apply (Hsubscribe 1 _ _ _ _ _ _ _ ltac:(lia) Hrun).
    + apply Hops; [right; eexists; reflexivity|constructor].
Defined.

(** C2 as stated fails.  At a file whose entries are not in the order
    of the uids the load returns from inside its loop, before the sort
    of line 301, and the ProgressSet is left in the order of the file.
    And a resolver that returns a uid twice leaves it twice in the
    ProgressSet: the refresh sorts, it removes nothing. *)
Lemma progress_set_not_always_sorted :
  (tscLoadSubscriptionProgress (sample_env (λ _, 100) (λ _, 0) None)
     (sample_sub sample_super 0 []) (sample_world (Some file_unsorted))
   = Some ((0, sample_sub sample_super 0 [MkProgress 20 6; MkProgress 10 5]),
           sample_world (Some file_unsorted)) ∧
   ¬ sorted_unique [MkProgress 20 6; MkProgress 10 5]) ∧
  (∃ pSub' w',
     tscUpdateSubscription
       (sample_env (λ _, 100) (λ _, 0) (Some [MkTidTags 10 1; MkTidTags 10 1]))
       (sample_sub sample_super 0 []) (sample_world None)
     = Some ((1, pSub'), w') ∧
     progress pSub' = [MkProgress 10 INT64_MIN; MkProgress 10 INT64_MIN] ∧
     ¬ sorted_unique (progress pSub')).
Proof.
  split; [split; [by vm_compute|compute_done]|].
  eexists _, _. split; [by vm_compute|]. cbn [progress].
  split; [reflexivity|compute_done].
Qed.

(** C3 at a sample: two entries saved and loaded again. *)
Lemma save_then_load_witness :
  ∃ w1,
    tscSaveSubscriptionProgress (sample_env (λ _, 100) (λ _, 0) None)
      (sample_sub sample_super 0 [MkProgress 10 5; MkProgress 20 (-7)])
      (sample_world None) = Some (tt, w1) ∧
    tscLoadSubscriptionProgress (sample_env (λ _, 100) (λ _, 0) None)
      (sample_sub sample_super 0 []) w1
    = Some ((0, sample_sub sample_super 0 [MkProgress 10 5; MkProgress 20 (-7)]),
            w1).
Proof.
  destruct (save_then_load (sample_env (λ _, 100) (λ _, 0) None)
              (sample_sub sample_super 0 [MkProgress 10 5; MkProgress 20 (-7)])
              (sample_world None))
    as (w1 & Hsave & Hload).
  - reflexivity.
  - compute_done.
  - vm_compute. lia.
  - vm_compute. lia.
  - compute_done.
  - exists w1. split; [exact Hsave|].
    apply (Hload (sample_sub sample_super 0 [])); reflexivity.
Defined.

(** C4 at three samples.  Every query ends with the code 1.  In the
    first the resolver answers, a refresh is due and done: three queries
    are run.  In the second no refresh is due: three queries are run and
    the ProgressSet is as before.  In the third the clock jumps before
    the second round, a refresh falls due there and the resolver fails:
    one query is run. *)
Lemma taos_consume_retry_ceiling_witness :
  (∃ pSub' w',
     taos_consume (sample_env (λ _, 1000000) (λ _, 1) (Some []))
       (Some (sample_sub sample_super 0 [MkProgress 10 5]))
       (sample_world None) = Some ((None, Some pSub'), w') ∧
     queries w' = 3%nat) ∧
  (∃ pSub' w',
     taos_consume (sample_env (λ _, 100) (λ _, 1) None)
       (Some (sample_sub sample_super 0 [MkProgress 10 5]))
       (sample_world None) = Some ((None, Some pSub'), w') ∧
     queries w' = 3%nat ∧
     progress pSub' = [MkProgress 10 5]) ∧
  (∃ pSub' w',
     taos_consume (sample_env (clock_jump 2 100 1000000) (λ _, 1) None)
       (Some (sample_sub sample_super 0 [MkProgress 10 5]))
       (sample_world None) = Some ((None, Some pSub'), w') ∧
     queries w' = 1%nat ∧
     progress pSub' = [MkProgress 10 5]).
Proof.
  split; [|split].
  - destruct (taos_consume_retry_ceiling
                (sample_env (λ _, 1000000) (λ _, 1) (Some []))
                (sample_sub sample_super 0 [MkProgress 10 5]) (sample_world None))
      as (Hceiling & _).
    + intros k. vm_compute. discriminate.
    + apply Hceiling. right. split; [by eexists|]. intros n sql. by eexists.
  - destruct (taos_consume_retry_ceiling (sample_env (λ _, 100) (λ _, 1) None)
                (sample_sub sample_super 0 [MkProgress 10 5]) (sample_world None))
      as (_ & Hquiet & _).
    + intros k. vm_compute. discriminate.
    + apply Hquiet. intros i Hi. reflexivity.
  - destruct (taos_consume_retry_ceiling
                (sample_env (clock_jump 2 100 1000000) (λ _, 1) None)
                (sample_sub sample_super 0 [MkProgress 10 5]) (sample_world None))
      as (_ & _ & Hfails).
    + intros k. vm_compute. discriminate.
    + apply (Hfails 1%nat (bytes " from s")).
      * lia.
      * intros i Hi. assert (i = 0%nat) as -> by lia. reflexivity.
      * reflexivity.
      * reflexivity.
      * reflexivity.
      * reflexivity.
Defined.

(** C4 as stated fails, in both its parts: every query would fail, but
    with the last refresh more than ten minutes ago and a resolver that
    fails [taos_consume] returns [NULL] before it runs any; and with a
    resolver that answers it runs three and returns [NULL], but the
    refresh has replaced the ProgressSet, the uid 10 and its key 5 are
    gone. *)
Lemma taos_consume_all_fail_counterexamples :
  (∀ k, query_code (sample_env (λ _, 1000000) (λ _, 1) None) k
        ≠ TSDB_CODE_SUCCESS (sample_env (λ _, 1000000) (λ _, 1) None)) ∧
  (∃ pSub' w',
     taos_consume (sample_env (λ _, 1000000) (λ _, 1) None)
       (Some (sample_sub sample_super 0 [MkProgress 10 5]))
       (sample_world None) = Some ((None, Some pSub'), w') ∧
     queries w' = 0%nat) ∧
  (∃ pSub' w',
     taos_consume (sample_env (λ _, 1000000) (λ _, 1) (Some [MkTidTags 30 1]))
       (Some (sample_sub sample_super 0 [MkProgress 10 5]))
       (sample_world None) = Some ((None, Some pSub'), w') ∧
     queries w' = 3%nat ∧
     progress pSub' = [MkProgress 30 INT64_MIN]).
Proof.
  split; [intros k; vm_compute; discriminate|]. split.
  - eexists _, _. split; [by vm_compute|reflexivity].
  - eexists _, _. split; [by vm_compute|]. split; reflexivity.
Qed.

(** C5 at a sample: a file written for another query text. *)
Lemma load_sql_gate_witness :
  tscLoadSubscriptionProgress (sample_env (λ _, 100) (λ _, 0) None)
    (sample_sub sample_super 0 []) (sample_world (Some file_other_sql))
  = Some ((0, sample_sub sample_super 0 []), sample_world (Some file_other_sql)).
Proof.
  refine (proj1 (load_sql_gate (sample_env (λ _, 100) (λ _, 0) None)
                   (sample_sub sample_super 0 [])
                   (sample_world (Some file_other_sql)) file_other_sql
                   (bytes "select ts from s" ++ [LF]) [bytes "10:5" ++ [LF]]
                   _ _ _ _)).
  - reflexivity.
  - reflexivity.
  - vm_compute. lia.
  - vm_compute. discriminate.
Defined.

(** C5 as stated fails: the first line differs from the query text
    also after the carriage returns and line feeds at its end are
    taken off, and yet the entry of the file is loaded. *)
Lemma load_cuts_at_first_cr :
  strip_trailing_crlf (bytes "select * from s" ++ [CR] ++ bytes "x" ++ [LF])
    ≠ bytes "select * from s" ∧
  tscLoadSubscriptionProgress (sample_env (λ _, 100) (λ _, 0) None)
    (sample_sub sample_super 0 []) (sample_world (Some file_cr_inside))
  = Some ((0, sample_sub sample_super 0 [MkProgress 1 2]),
          sample_world (Some file_cr_inside)).
Proof. split; [vm_compute; discriminate|by vm_compute]. Qed.

(** C6 at a sample: the entry after the malformed line is loaded. *)
Lemma load_reads_every_line_witness :
  ∃ pr,
    tscLoadSubscriptionProgress (sample_env (λ _, 100) (λ _, 0) None)
      (sample_sub sample_super 0 []) (sample_world (Some file_malformed))
    = Some ((0, sample_sub sample_super 0 pr), sample_world (Some file_malformed)) ∧
    length pr = 3%nat ∧ pr !! 2%nat = Some (MkProgress 3 4).
Proof.
  destruct (load_reads_every_line (sample_env (λ _, 100) (λ _, 0) None)
              (sample_sub sample_super 0 [])
              (sample_world (Some file_malformed)) file_malformed
              (bytes "select * from s" ++ [LF])
              [bytes "1:2" ++ [LF]; bytes "xyz" ++ [LF]; bytes "3:4" ++ [LF]])
    as (pr & Hload & Hlen & Hpr).
  - reflexivity.
  - reflexivity.
  - compute_done.
  - reflexivity.
  - exists pr. split; [exact Hload|]. split; [exact Hlen|].
    apply (Hpr 2%nat (bytes "3:4" ++ [LF])); reflexivity.
Defined.

(** C6 as stated fails: the load does not stop at the malformed line,
    so the ProgressSet is not the entries before it. *)
Lemma load_goes_past_malformed_line :
  entries_before_malformed (tail (file_lines file_malformed)) = [MkProgress 1 2] ∧
  tscLoadSubscriptionProgress (sample_env (λ _, 100) (λ _, 0) None)
    (sample_sub sample_super 0 []) (sample_world (Some file_malformed))
  = Some ((0, sample_sub sample_super 0
                [MkProgress 1 2; MkProgress (-1) (-1); MkProgress 3 4]),
          sample_world (Some file_malformed)).
Proof. split; by vm_compute. Qed.

(** Why the lines of C6 must fit the buffer: [fgets] reads a line of
    264 bytes in two pieces with a buffer of 256 bytes, each piece makes
    an entry, and the entry of the next line stands one place further
    than its line. *)
Lemma load_splits_long_line :
  length <$> file_lines file_long_line = [16; 264; 4]%nat ∧
  sscanf_d64_d64 <$> tail (file_lines file_long_line)
  = [(Some 1, Some 2); (Some 3, Some 4)] ∧
  tscLoadSubscriptionProgress (sample_env (λ _, 100) (λ _, 0) None)
    (sample_sub sample_super 0 []) (sample_world (Some file_long_line))
  = Some ((0, sample_sub sample_super 0
                [MkProgress (-1) (-1); MkProgress 1 2; MkProgress 3 4]),
          sample_world (Some file_long_line)).
Proof. split; [|split]; by vm_compute. Qed.

(** C7 at a sample: the key of a uid that is there. *)
Lemma tscUpdateSubscriptionProgress_update_only_witness :
  tscUpdateSubscriptionProgress
    (Some (sample_sub sample_super 0 [MkProgress 1 0; MkProgress 3 4])) 3 9
  = Some (sample_sub sample_super 0 [MkProgress 1 0; MkProgress 3 9]).
Proof.
  destruct (tscUpdateSubscriptionProgress_update_only
              (sample_sub sample_super 0 [MkProgress 1 0; MkProgress 3 4]) 3 9)
    as (pSub' & Hrun & Hthere & _).
  - compute_done.
  - rewrite Hrun. f_equal. apply (Hthere 1%nat (MkProgress 3 4)); reflexivity.
Defined.

(** C7 as stated fails: a uid that is not in the ProgressSet is not
    inserted. *)
Lemma tscUpdateSubscriptionProgress_no_insert :
  (2 ∉ uids [MkProgress 1 0]) ∧
  insert_sorted (MkProgress 2 9) [MkProgress 1 0] = [MkProgress 1 0; MkProgress 2 9] ∧
  tscUpdateSubscriptionProgress (Some (sample_sub sample_super 0 [MkProgress 1 0])) 2 9
  = Some (sample_sub sample_super 0 [MkProgress 1 0]).
Proof. split; [compute_done|]. split; by vm_compute. Qed.

(** C8 at a sample: the query succeeds with the code of success, the
    last refresh was five milliseconds before the first reading of the
    clock, and [lastSyncTime] is zero afterwards. *)
Lemma taos_consume_success_witness :
  ∃ pSub' w',
    taos_consume (sample_env (λ n, 10 + Z.of_nat n) (λ _, 0) None)
      (Some (sample_sub sample_super 5 [MkProgress 10 5]))
      (sample_world None)
    = Some ((Some (pSql pSub'), Some pSub'), w') ∧
    lastSyncTime pSub' = 0 ∧ lastConsumeTime pSub' = 12.
Proof.
  assert (∃ res tsub' w',
    taos_consume (sample_env (λ n, 10 + Z.of_nat n) (λ _, 0) None)
      (Some (sample_sub sample_super 5 [MkProgress 10 5]))
      (sample_world None) = Some ((Some res, tsub'), w') ∧
      clock_reads w' = 3%nat) as (res & tsub' & w' & Hrun & Hclock).
  { eexists _, _, _. split; [by vm_compute|reflexivity]. }
  destruct (taos_consume_success _ _ _ _ _ _ Hrun)
    as (pSub' & -> & -> & _ & Hsync & Hconsume).
  exists pSub', w'. split; [exact Hrun|]. split; [exact Hsync|].
  rewrite Hconsume, Hclock. reflexivity.
Defined.



(** * Further properties of the code *)

(** ** The comparator *)

(** X1. The comparator is a valid one for sorting and searching: it
    looks at the uid only, is zero exactly on equal uids, changes sign
    when its arguments are swapped, and is transitive. *)
Theorem tscCompareSubscriptionProgress_order x y z :
  (∀ k k', tscCompareSubscriptionProgress (MkProgress (uid x) k)
             (MkProgress (uid y) k') = tscCompareSubscriptionProgress x y) ∧
  (tscCompareSubscriptionProgress x y = 0 ↔ uid x = uid y) ∧
  tscCompareSubscriptionProgress x y = - tscCompareSubscriptionProgress y x ∧
  (tscCompareSubscriptionProgress x y <= 0 →
   tscCompareSubscriptionProgress y z <= 0 →
   tscCompareSubscriptionProgress x z <= 0).
Proof.
  split; [done|]. split; [apply compare_0|]. split.
  - unfold tscCompareSubscriptionProgress. rewrite !Z.gtb_ltb.
    destruct (uid y <? uid x) eqn:H1; destruct (uid x <? uid y) eqn:H2;
      rewrite ?Z.ltb_lt, ?Z.ltb_ge in *; lia.
  - intros H1 H2. apply compare_le. apply compare_le in H1, H2. lia.
Qed.

(** ** Lookup and update on any array *)

Lemma set_progress_same pSub : set_progress pSub (progress pSub) = pSub.
Proof. by destruct pSub. Qed.

Lemma uids_alter_key pr i ts :
  uids (alter (λ p, MkProgress (uid p) ts) i pr) = uids pr.
Proof.
  unfold uids. apply list_eq. intros j. rewrite !list_lookup_fmap.
  destruct (decide (i = j)) as [->|Hne].
  - rewrite list_lookup_alter_eq. by destruct (pr !! j).
  - by rewrite list_lookup_alter_ne.
Qed.

(** The shape of every progress update: at most the key at the index
    the search found is replaced. *)
Lemma tscUpdateSubscriptionProgress_shape pSub uid0 ts :
  tscUpdateSubscriptionProgress (Some pSub) uid0 ts = Some pSub ∧
  taosArraySearch (progress pSub) (MkProgress uid0 ts)
    tscCompareSubscriptionProgress = None
  ∨ ∃ i p,
      progress pSub !! i = Some p ∧ uid p = uid0 ∧
      taosArraySearch (progress pSub) (MkProgress uid0 ts)
        tscCompareSubscriptionProgress = Some i ∧
      tscUpdateSubscriptionProgress (Some pSub) uid0 ts
      = Some (set_progress pSub (<[i := MkProgress uid0 ts]> (progress pSub))).
Proof.
  unfold tscUpdateSubscriptionProgress.
  destruct (taosArraySearch _ _ _) as [i|] eqn:Hsearch; [right|by left].
  destruct (taosArraySearch_Some _ _ _ Hsearch) as (p & Hp & Hu). simpl in Hu.
  exists i, p. split; [done|]. split; [done|]. split; [done|]. do 2 f_equal.
  apply list_eq. intros k. destruct (decide (i = k)) as [->|Hne].
  - rewrite list_lookup_alter_eq, Hp. simpl. rewrite Hu.
    symmetry. apply list_lookup_insert_eq. by eapply lookup_lt_Some.
  - by rewrite list_lookup_alter_ne, list_lookup_insert_ne.
Qed.

(** X2. On any array, sorted or not, the progress update never adds,
    removes or moves a uid, never touches the entry of another uid, and
    changes nothing of the subscription but the ProgressSet. *)
Theorem tscUpdateSubscriptionProgress_frame pSub uid0 ts :
  ∃ pSub',
    tscUpdateSubscriptionProgress (Some pSub) uid0 ts = Some pSub' ∧
    pSub' = set_progress pSub (progress pSub') ∧
    uids (progress pSub') = uids (progress pSub) ∧
    ∀ j p, progress pSub !! j = Some p → uid p ≠ uid0 →
           progress pSub' !! j = Some p.
Proof.
  destruct (tscUpdateSubscriptionProgress_shape pSub uid0 ts)
    as [[-> _]|(i & p & Hp & Hu & _ & ->)].
  - exists pSub. by rewrite set_progress_same.
  - eexists. split; [reflexivity|]. simpl. split; [done|]. split.
    + unfold uids. rewrite list_fmap_insert. simpl.
      apply list_insert_id. by rewrite list_lookup_fmap, Hp, <- Hu.
    + intros j q Hq Hne. rewrite list_lookup_insert_ne; [done|].
      intros ->. congruence.
Qed.

(** What a lookup can return: the default, or a key stored under the
    uid asked for. *)
Lemma tscGetSubscriptionProgress_sound pSub uid0 dflt :
  tscGetSubscriptionProgress (Some pSub) uid0 dflt = dflt ∨
  MkProgress uid0 (tscGetSubscriptionProgress (Some pSub) uid0 dflt)
    ∈ progress pSub.
Proof.
  unfold tscGetSubscriptionProgress.
  destruct (taosArraySearch _ _ _) as [i|] eqn:Hsearch; [|by left].
  destruct (taosArraySearch_Some _ _ _ Hsearch) as (p & Hp & Hu). simpl in Hu.
  rewrite Hp. right. destruct p as [u k]. simpl in *. subst u.
  by eapply list_elem_of_lookup_2.
Qed.

(** X3. The lookup returns the default for a uid that is in no entry,
    whatever the order of the array; what it returns is never the key
    of another uid; and on a sorted array it returns the key stored
    under the uid. *)
Theorem tscGetSubscriptionProgress_lookup pSub uid0 dflt :
  (uid0 ∉ uids (progress pSub) →
   tscGetSubscriptionProgress (Some pSub) uid0 dflt = dflt) ∧
  (tscGetSubscriptionProgress (Some pSub) uid0 dflt = dflt ∨
   MkProgress uid0 (tscGetSubscriptionProgress (Some pSub) uid0 dflt)
     ∈ progress pSub) ∧
  (sorted_unique (progress pSub) →
   ∀ k, MkProgress uid0 k ∈ progress pSub →
        tscGetSubscriptionProgress (Some pSub) uid0 dflt = k).
Proof.
  split; [apply get_progress_absent|].
  split; [apply tscGetSubscriptionProgress_sound|].
  intros Hs k Hin. by apply get_progress_present.
Qed.

(** X4. Update, then lookup, on a sorted ProgressSet: the lookup of the
    updated uid gives the new key when the uid is in the set and the
    default when it is not (nothing was inserted); the lookup of any
    other uid gives what it gave before. *)
Theorem progress_update_then_get pSub uid0 ts dflt :
  sorted_unique (progress pSub) →
  (uid0 ∈ uids (progress pSub) →
   tscGetSubscriptionProgress
     (tscUpdateSubscriptionProgress (Some pSub) uid0 ts) uid0 dflt = ts) ∧
  (uid0 ∉ uids (progress pSub) →
   tscGetSubscriptionProgress
     (tscUpdateSubscriptionProgress (Some pSub) uid0 ts) uid0 dflt = dflt) ∧
  (∀ u, u ≠ uid0 →
   tscGetSubscriptionProgress
     (tscUpdateSubscriptionProgress (Some pSub) uid0 ts) u dflt
   = tscGetSubscriptionProgress (Some pSub) u dflt).
Proof.
  intros Hs.
  destruct (tscUpdateSubscriptionProgress_shape pSub uid0 ts)
    as [[-> Hnone]|(i & p & Hp & Hu & Hsome & ->)].
  - split; [|split; [apply get_progress_absent|done]].
    intros Hin. by apply taosArraySearch_None in Hnone.
  - assert (sorted_unique (<[i := MkProgress uid0 ts]> (progress pSub))) as Hs'.
    { replace (<[i := MkProgress uid0 ts]> (progress pSub))
        with (alter (λ p, MkProgress (uid p) ts) i (progress pSub));
        [by apply sorted_unique_alter_key|].
      apply list_eq. intros k. destruct (decide (i = k)) as [->|Hne].
      - rewrite list_lookup_alter_eq, Hp. simpl. rewrite Hu.
        symmetry. apply list_lookup_insert_eq. by eapply lookup_lt_Some.
      - by rewrite list_lookup_alter_ne, list_lookup_insert_ne. }
    assert (<[i := MkProgress uid0 ts]> (progress pSub) !! i
            = Some (MkProgress uid0 ts)) as Hi
      by (apply list_lookup_insert_eq; by eapply lookup_lt_Some).
    split; [|split].
    + intros _. apply get_progress_present; [done|].
      by eapply list_elem_of_lookup_2.
    + intros Hnot. exfalso. apply Hnot. unfold uids. rewrite <- Hu.
      apply list_elem_of_fmap. exists p. split; [done|].
      by eapply list_elem_of_lookup_2.
    + intros u Hne.
      destruct (decide (u ∈ uids (progress pSub))) as [Hin|Hnot].
      * unfold uids in Hin. apply list_elem_of_fmap in Hin as (q & -> & Hq).
        apply list_elem_of_lookup_1 in Hq as [j Hj].
        assert (i ≠ j) by (intros ->; congruence).
        rewrite (get_progress_present _ (uid q) (key q)); [|done|].
        -- symmetry. apply get_progress_present; [done|].
           destruct q. by eapply list_elem_of_lookup_2.
        -- simpl. destruct q. eapply list_elem_of_lookup_2.
           by rewrite list_lookup_insert_ne.
      * rewrite !get_progress_absent; [done|done|]. simpl.
        unfold uids in *. rewrite list_fmap_insert. simpl.
        rewrite list_insert_id; [done|]. by rewrite list_lookup_fmap, Hp, <- Hu.
Qed.

(** ** More on the topology refresh *)

(** X5. When the resolver fails, the refresh of a table that is not
    Normal returns 0 and leaves the ProgressSet and the files as they
    were; [lastSyncTime] has been set to the current time all the same
    (line 214 runs before the resolver is asked). *)
Theorem tscUpdateSubscription_resolver_failure E pSub w p :
  isNormalTable (cmd_tableMetaInfo (pSql pSub)) = false →
  strstr (sqlstr (pSql pSub)) (list_ascii_of_string " from ") = Some p →
  table_rows E (resolves w) (list_ascii_of_string "select tbid(tbname)" ++ p)
    = None →
  tscUpdateSubscription E pSub w
  = Some ((0, set_lastSyncTime pSub (clock E (clock_reads w))),
          MkWorld (files w) (S (clock_reads w)) (queries w) (S (resolves w))
                  (sleeps w) (mkdirs w)).
Proof. apply tscUpdateSubscription_fails. Qed.

Lemma StronglySorted_compar_le pr :
  StronglySorted (compar_le tscCompareSubscriptionProgress) pr →
  StronglySorted (λ x y, uid x <= uid y) pr.
Proof.
  induction 1 as [|a l Hs IH Hall]; constructor; [done|].
  eapply Forall_impl; [exact Hall|]. intros y. apply compare_le.
Qed.

(** X6. A successful refresh of a table that is not Normal leaves a
    ProgressSet sorted ascending by uid with one entry for each row of
    the resolver, whatever the order of the old set and of the rows;
    each key is [INT64_MIN] or belongs to an entry of the same uid in
    the old set. *)
Theorem tscUpdateSubscription_sorted E pSub w p tables :
  isNormalTable (cmd_tableMetaInfo (pSql pSub)) = false →
  strstr (sqlstr (pSql pSub)) (list_ascii_of_string " from ") = Some p →
  table_rows E (resolves w) (list_ascii_of_string "select tbid(tbname)" ++ p)
    = Some tables →
  ∃ pSub' w',
    tscUpdateSubscription E pSub w = Some ((1, pSub'), w') ∧
    StronglySorted (λ x y, uid x <= uid y) (progress pSub') ∧
    uids (progress pSub') ≡ₚ tt_uid <$> tables ∧
    ∀ q, q ∈ progress pSub' → key q = INT64_MIN ∨ q ∈ progress pSub.
Proof.
  intros Hn Hstr Hrows.
  destruct (tscUpdateSubscription_refresh E pSub w p tables Hn Hstr Hrows)
    as (pSub' & w' & Hrun & Hpr & _).
  exists pSub', w'. split; [done|]. rewrite Hpr, rebuild_progress_map.
  split; [|split].
  - apply StronglySorted_compar_le, StronglySorted_merge_sort; apply _.
  - unfold uids, taosArraySort. rewrite merge_sort_Permutation.
    by rewrite <- list_fmap_compose.
  - intros q Hq. apply elem_of_taosArraySort, list_elem_of_fmap in Hq
      as (t & -> & _).
    destruct (tscGetSubscriptionProgress_sound
                (set_lastSyncTime pSub (clock E (clock_reads w)))
                (tt_uid t) INT64_MIN) as [Heq|Hin];
      [left; exact Heq|right; exact Hin].
Qed.

Lemma sorted_unique_NoDup pr : sorted_unique pr → NoDup (uids pr).
Proof.
  unfold sorted_unique, uids.
  induction 1 as [|a l Hs IH Hall]; [constructor|].
  rewrite fmap_cons. constructor; [|done].
  intros Hin. apply list_elem_of_fmap in Hin as (y & Hy & Hin).
  rewrite Forall_forall in Hall. specialize (Hall y Hin). lia.
Qed.

(** Two sets that meet the invariant and hold the same entries are the
    same array. *)
Lemma sorted_unique_Permutation pr1 pr2 :
  sorted_unique pr1 → sorted_unique pr2 → pr1 ≡ₚ pr2 → pr1 = pr2.
Proof.
  intros H1 H2 Hp. eapply StronglySorted_unique_strong; [|exact H1|exact H2|done].
  intros x1 x2 _ _ Hlt Hgt. simpl in *. lia.
Qed.

(** A refresh whose resolver returns the uids of the set, each once,
    rebuilds the same set. *)
Lemma rebuild_same_uids pSub tables :
  sorted_unique (progress pSub) →
  tt_uid <$> tables ≡ₚ uids (progress pSub) →
  taosArraySort (rebuild_progress pSub tables) tscCompareSubscriptionProgress
  = progress pSub.
Proof.
  intros Hs Hperm.
  set (h := λ u, MkProgress u (tscGetSubscriptionProgress (Some pSub) u INT64_MIN)).
  assert (rebuild_progress pSub tables ≡ₚ progress pSub) as Hsame.
  { rewrite rebuild_progress_map.
    change ((λ tt0, MkProgress (tt_uid tt0)
               (tscGetSubscriptionProgress (Some pSub) (tt_uid tt0) INT64_MIN))
            <$> tables) with ((h ∘ tt_uid) <$> tables).
    rewrite list_fmap_compose, Hperm. unfold uids.
    rewrite <- list_fmap_compose.
    rewrite (list_fmap_ext (h ∘ uid) id (progress pSub)); [by rewrite list_fmap_id|].
    intros i [u k] Hi. unfold h. simpl. f_equal.
    apply get_progress_present; [done|]. by eapply list_elem_of_lookup_2. }
  apply sorted_unique_Permutation; [|done|].
  - apply taosArraySort_sorted_unique. unfold uids. rewrite Hsame.
    by apply sorted_unique_NoDup.
  - unfold taosArraySort. by rewrite merge_sort_Permutation.
Qed.

(** X7. Topology stability: when the resolver returns exactly the uids
    of a sorted ProgressSet, each once and in any order, the refresh
    leaves the ProgressSet as it was. *)
Theorem tscUpdateSubscription_stable E pSub w p tables :
  isNormalTable (cmd_tableMetaInfo (pSql pSub)) = false →
  strstr (sqlstr (pSql pSub)) (list_ascii_of_string " from ") = Some p →
  table_rows E (resolves w) (list_ascii_of_string "select tbid(tbname)" ++ p)
    = Some tables →
  sorted_unique (progress pSub) →
  tt_uid <$> tables ≡ₚ uids (progress pSub) →
  ∃ pSub' w',
    tscUpdateSubscription E pSub w = Some ((1, pSub'), w') ∧
    progress pSub' = progress pSub.
Proof.
  intros Hn Hstr Hrows Hs Hperm.
  destruct (tscUpdateSubscription_refresh E pSub w p tables Hn Hstr Hrows)
    as (pSub' & w' & Hrun & Hpr & _).
  exists pSub', w'. split; [done|]. rewrite Hpr.
  by apply (rebuild_same_uids (set_lastSyncTime pSub (clock E (clock_reads w)))).
Qed.

(** X8. The refresh of a Normal table never asks the resolver and never
    fails; afterwards the table's uid is in the ProgressSet, which is
    either unchanged or has been replaced by the single entry of the
    table's uid with key 0. *)
Theorem tscUpdateSubscription_normal E pSub w :
  isNormalTable (cmd_tableMetaInfo (pSql pSub)) = true →
  ∃ pSub',
    tscUpdateSubscription E pSub w
    = Some ((1, pSub'),
            MkWorld (files w) (S (clock_reads w)) (queries w) (resolves w)
                    (sleeps w) (mkdirs w)) ∧
    tableUid (cmd_tableMetaInfo (pSql pSub)) ∈ uids (progress pSub') ∧
    (progress pSub' = progress pSub ∨
     progress pSub' = [MkProgress (tableUid (cmd_tableMetaInfo (pSql pSub))) 0]) ∧
    pSql pSub' = pSql pSub.
Proof.
  intros Hn. unfold tscUpdateSubscription. run_monad. rewrite Hn.
  destruct (taosArraySearch _ _ _) as [i|] eqn:Hsearch.
  - eexists. split; [reflexivity|]. simpl. split; [|split; [by left|done]].
    destruct (taosArraySearch_Some _ _ _ Hsearch) as (q & Hq & Hu).
    simpl in *. rewrite <- Hu. unfold uids. apply list_elem_of_fmap.
    exists q. split; [done|]. by eapply list_elem_of_lookup_2.
  - eexists. split; [reflexivity|]. simpl. split; [|split; [by right|done]].
    unfold uids. simpl. apply list_elem_of_here.
Qed.

(** ** More on the progress file *)

(** X9. An entry printed by [fprintf] and read back by [sscanf] is the
    same entry, for every uid and key of 64 bits ([INT64_MIN] too),
    and nothing of the indeterminate contents of [p] is left in it. *)
Theorem progress_line_round_trip E n p :
  is_int64 (uid p) → is_int64 (key p) →
  scan_progress E n (progress_line p) = p.
Proof.
  intros Hu Hk. unfold scan_progress.
  rewrite sscanf_progress_line by done. by destruct p.
Qed.

Lemma file_lines_progress_file_length pSub :
  Forall (λ c, c ≠ LF) (c_str (sqlstr (pSql pSub))) →
  length (file_lines (progress_file pSub)) = S (length (progress pSub)).
Proof.
  intros Hsql. rewrite progress_file_concat, file_lines_app_LF.
  - by rewrite file_lines_progress, length_cons, length_fmap.
  - eapply Forall_impl; [exact Hsql|]. intros c Hc. by apply Ascii.eqb_neq.
Qed.

(** X10. Every save asks [tmkdir] for the directory
    [<dataDir>/subscribe], exactly once, also when the file then cannot
    be opened.  It writes the file of its own topic and no other, and
    reads no clock, runs no query and does not sleep; when the file
    cannot be opened the files are all as they were.  The file written
    has one line for the query text and one for each entry. *)
Theorem tscSaveSubscriptionProgress_effect E pSub w :
  ∃ w',
    tscSaveSubscriptionProgress E pSub w = Some (tt, w') ∧
    mkdirs w' = mkdirs w ++ [tsDataDir E ++ bytes "/subscribe"] ∧
    clock_reads w' = clock_reads w ∧ queries w' = queries w ∧
    resolves w' = resolves w ∧ sleeps w' = sleeps w ∧
    (∀ path, path ≠ progress_path E pSub → files w' !! path = files w !! path) ∧
    (fopen_w_ok E (progress_path E pSub) = false → files w' = files w) ∧
    (fopen_w_ok E (progress_path E pSub) = true →
     files w' !! progress_path E pSub = Some (progress_file pSub)) ∧
    (Forall (λ c, c ≠ LF) (c_str (sqlstr (pSql pSub))) →
     length (file_lines (progress_file pSub)) = S (length (progress pSub))).
Proof.
  unfold tscSaveSubscriptionProgress, mbind, M_bind, tmkdir.
  destruct (fopen_w_ok E (progress_path E pSub)) eqn:Hopen.
  - eexists. split; [reflexivity|]. simpl. repeat split; try done.
    + intros path Hne. by rewrite lookup_insert_ne.
    + intros _. apply lookup_insert_eq.
    + apply file_lines_progress_file_length.
  - eexists. split; [reflexivity|]. simpl. repeat split; try done.
    apply file_lines_progress_file_length.
Qed.

(** X11. The load reads and never writes: the world is as before, and
    of the subscription only the ProgressSet can differ.  It returns 1
    exactly when the file does not exist, with the subscription
    untouched, and 0 for every file that exists. *)
Theorem tscLoadSubscriptionProgress_outcome E pSub w r pSub' w' :
  tscLoadSubscriptionProgress E pSub w = Some ((r, pSub'), w') →
  w' = w ∧ pSub' = set_progress pSub (progress pSub') ∧
  (r = 1 ∧ files w !! progress_path E pSub = None ∧ pSub' = pSub
   ∨ r = 0 ∧ is_Some (files w !! progress_path E pSub)).
Proof.
  unfold tscLoadSubscriptionProgress.
  destruct (files w !! progress_path E pSub) as [content|] eqn:Hfile.
  - destruct (fgets _ content) as [[buf rest]|].
    + destruct (negb _).
      * intros [= <- <- <-]. rewrite set_progress_same. eauto 6.
      * destruct (load_loop _ _ _ _ _) as [pr|]; [|done].
        intros [= <- <- <-]. eauto 6.
    + intros [= <- <- <-]. rewrite set_progress_same. eauto 6.
  - intros [= <- <- <-]. rewrite set_progress_same. eauto 6.
Qed.

Lemma fgets_chars_rest k : ∀ content,
  (length (fgets_chars k content).2 ≤ length content)%nat.
Proof.
  induction k as [|k IH]; intros content; simpl; [lia|].
  destruct content as [|c t]; simpl; [lia|].
  destruct (c =? LF)%char; simpl; [lia|].
  specialize (IH t). destruct (fgets_chars k t). simpl in *. lia.
Qed.

(** With a buffer of two bytes or more every [fgets] takes a byte. *)
Lemma fgets_shrinks size content buf rest :
  (2 ≤ size)%nat → fgets size content = Some (buf, rest) →
  (length rest < length content)%nat.
Proof.
  intros Hsize. unfold fgets. destruct content as [|c t]; [done|].
  destruct (size - 1)%nat as [|k] eqn:Hk; [lia|]. simpl.
  destruct (c =? LF)%char.
  - intros [= <- <-]. simpl. lia.
  - pose proof (fgets_chars_rest k t).
    destruct (fgets_chars k t). intros [= <- <-]. simpl in *. lia.
Qed.

Lemma load_loop_total E :
  (2 ≤ TSDB_MAX_SQL_LEN E)%nat →
  ∀ fuel n content pr,
    (length content < fuel)%nat →
    ∃ pr', load_loop E fuel n content pr = Some pr' ∧
           (length pr' ≤ length pr + length content)%nat.
Proof.
  intros Hsize. induction fuel as [|fuel IH]; intros n content pr Hfuel; [lia|].
  cbn [load_loop].
  destruct (fgets _ content) as [[buf rest]|] eqn:Hfgets.
  - pose proof (fgets_shrinks _ _ _ _ Hsize Hfgets).
    destruct (IH (S n) rest (taosArrayPush pr (scan_progress E n buf)))
      as (pr' & -> & Hlen); [lia|].
    exists pr'. split; [done|]. unfold taosArrayPush in Hlen.
    rewrite length_app in Hlen. simpl in Hlen. lia.
  - exists pr. split; [done|]. lia.
Qed.

(** X12. The load always returns when the buffer has room for a byte:
    no file, however long its lines and whatever its bytes, keeps the
    loop of lines 289-297 running for ever.  The ProgressSet it leaves
    is the old one or has fewer entries than the file has bytes. *)
Theorem tscLoadSubscriptionProgress_total E pSub w :
  (2 ≤ TSDB_MAX_SQL_LEN E)%nat →
  ∃ r pSub',
    tscLoadSubscriptionProgress E pSub w = Some ((r, pSub'), w) ∧
    (progress pSub' = progress pSub ∨
     ∃ content, files w !! progress_path E pSub = Some content ∧
                (length (progress pSub') < length content)%nat).
Proof.
  intros Hsize. unfold tscLoadSubscriptionProgress.
  destruct (files w !! progress_path E pSub) as [content|] eqn:Hfile; [|eauto].
  destruct (fgets _ content) as [[buf rest]|] eqn:Hfgets; [|eauto].
  destruct (negb _); [eauto|].
  pose proof (fgets_shrinks _ _ _ _ Hsize Hfgets).
  destruct (load_loop_total E Hsize (S (length rest)) 0 rest
              (taosArrayClear (progress pSub))) as (pr' & -> & Hlen); [lia|].
  eexists _, _. split; [reflexivity|]. right. exists content.
  split; [done|]. simpl in *. lia.
Qed.

(** ** More on the consume cycle *)

(** What a refresh does to the world: it reads the clock once, asks the
    resolver once unless the table is Normal, and touches nothing
    else. *)
Lemma tscUpdateSubscription_frame E pSub w r w' :
  tscUpdateSubscription E pSub w = Some (r, w') →
  files w' = files w ∧ sleeps w' = sleeps w ∧ queries w' = queries w ∧
  clock_reads w' = S (clock_reads w) ∧
  resolves w' = (if isNormalTable (cmd_tableMetaInfo (pSql pSub))
                 then resolves w else S (resolves w)) ∧
  isNormalTable (cmd_tableMetaInfo (pSql r.2))
  = isNormalTable (cmd_tableMetaInfo (pSql pSub)).
Proof.
  unfold tscUpdateSubscription, getTableList. run_monad.
  destruct (isNormalTable (cmd_tableMetaInfo (pSql pSub))) eqn:Hn.
  - destruct (taosArraySearch _ _ _); intros [= <- <-]; simpl; by rewrite ?Hn.
  - destruct (strstr _ _) as [p|]; [|done]. simpl.
    destruct (table_rows E _ _) as [rows|]; simpl.
    + intros [= <- <-]. simpl.
      destruct (isSuperTable (cmd_tableMetaInfo (pSql pSub))); simpl;
        by rewrite ?Hn.
    + intros [= <- <-]. simpl. by rewrite ?Hn.
Qed.

Lemma consume_retry_frame E n : ∀ pSub w r w',
  consume_retry E n pSub w = Some (r, w') →
  files w' = files w ∧ sleeps w' = sleeps w ∧
  (queries w ≤ queries w' ≤ queries w + n)%nat ∧
  (resolves w ≤ resolves w' ≤ resolves w + n)%nat.
Proof.
  induction n as [|n IH]; intros pSub w r w' Hrun.
  - injection Hrun as <- <-. repeat split; lia.
  - cbn [consume_retry] in Hrun.
    apply bind_inv in Hrun as (now & w0 & Hclock & Hrun).
    injection Hclock as <- <-.
    apply bind_inv in Hrun as ([ok s1] & w1 & Hupd & Hrun).
    assert (files w1 = files w ∧ sleeps w1 = sleeps w ∧ queries w1 = queries w ∧
            (resolves w ≤ resolves w1 ≤ S (resolves w))%nat)
      as (Hf1 & Hs1 & Hq1 & Hr1).
    { destruct (_ >? _).
      - apply tscUpdateSubscription_frame in Hupd
          as (Hf & Hs & Hq & _ & Hr & _). simpl in *.
        repeat split; try done; destruct (isNormalTable _); lia.
      - injection Hupd as <- <- <-. simpl. repeat split; lia. }
    destruct (ok =? 0).
    + injection Hrun as <- <-. repeat split; try done; lia.
    + apply bind_inv in Hrun as (code & w2 & Hq & Hrun).
      injection Hq as <- <-.
      destruct (negb _).
      * apply IH in Hrun as (Hf & Hs & Hq & Hr). simpl in *.
        repeat split; try congruence; lia.
      * injection Hrun as <- <-. simpl. repeat split; try done; lia.
Qed.

(** X13. Persist before work: whatever the call then does and returns,
    the only file [taos_consume] touches is the progress file of the
    topic, and what that file holds afterwards is the state the
    subscription had when the call began (nothing, when the file could
    not be opened). *)
Theorem taos_consume_saves_first E pSub w r w' :
  taos_consume E (Some pSub) w = Some (r, w') →
  files w' = (if fopen_w_ok E (progress_path E pSub)
              then <[progress_path E pSub := progress_file pSub]> (files w)
              else files w).
Proof.
  unfold taos_consume. intros Hrun.
  apply bind_inv in Hrun as ([] & w1 & Hsave & Hrun).
  apply bind_inv in Hrun as ([] & w2 & Hpace & Hrun).
  apply bind_inv in Hrun as ([aborted s3] & w3 & Hretry & Hrun).
  destruct (consume_pace_runs E pSub w1) as (w2' & Hpace' & _ & Hf2 & _).
  assert (w2' = w2) as -> by congruence.
  apply consume_retry_frame in Hretry as (Hf3 & _).
  assert (files w' = files w3) as ->.
  { destruct aborted; [by injection Hrun as <- <-|].
    destruct (negb _); [by injection Hrun as <- <-|].
    apply bind_inv in Hrun as (now & w4 & Hclock & Hrun).
    injection Hclock as <- <-. by injection Hrun as <- <-. }
  rewrite Hf3, Hf2. unfold tscSaveSubscriptionProgress in Hsave.
  destruct (fopen_w_ok E (progress_path E pSub)); by injection Hsave as <-.
Qed.

(** A loop that is not left by [return NULL] has run a query. *)
Lemma consume_retry_runs_query E n pSub w pSub' w' :
  consume_retry E (S n) pSub w = Some ((false, pSub'), w') →
  (queries w < queries w')%nat.
Proof.
  intros Hretry. cbn [consume_retry] in Hretry.
  apply bind_inv in Hretry as (now1 & w5 & Hclock & Hretry).
  injection Hclock as <- <-.
  apply bind_inv in Hretry as ([ok s1] & w6 & Hupd & Hretry).
  destruct (ok =? 0); [done|].
  apply bind_inv in Hretry as (code & w7 & Hq & Hretry).
  injection Hq as <- <-.
  assert (queries w6 = queries w) as Hq6.
  { destruct (_ >? _).
    - by apply tscUpdateSubscription_frame in Hupd as (_ & _ & ? & _).
    - by injection Hupd as <- <- <-. }
  destruct (negb _).
  - apply consume_retry_frame in Hretry as (_ & _ & Hq & _). simpl in Hq. lia.
  - injection Hretry as <- <-. simpl. lia.
Qed.

(** X14. One call of [taos_consume] runs the query at most three times
    and asks the resolver at most three times, whatever the codes and
    the clock are; when it returns a result it has run the query at
    least once. *)
Theorem taos_consume_bounds E pSub w res tsub w' :
  taos_consume E (Some pSub) w = Some ((res, tsub), w') →
  (queries w ≤ queries w' ≤ queries w + 3)%nat ∧
  (resolves w ≤ resolves w' ≤ resolves w + 3)%nat ∧
  (is_Some res → (queries w < queries w')%nat).
Proof.
  unfold taos_consume. intros Hrun.
  apply bind_inv in Hrun as ([] & w1 & Hsave & Hrun).
  apply bind_inv in Hrun as ([] & w2 & Hpace & Hrun).
  apply bind_inv in Hrun as ([aborted s3] & w3 & Hretry & Hrun).
  destruct (tscSaveSubscriptionProgress_runs E pSub w)
    as (w1' & Hsave' & _ & Hq1 & Hr1).
  assert (w1' = w1) as -> by congruence.
  destruct (consume_pace_runs E pSub w1) as (w2' & Hpace' & Hq2 & _ & Hr2).
  assert (w2' = w2) as -> by congruence.
  pose proof (consume_retry_frame _ _ _ _ _ _ Hretry) as (_ & _ & Hq3 & Hr3).
  destruct aborted.
  { injection Hrun as <- <- <-. split; [lia|]. split; [lia|].
    by intros [? ?]. }
  apply consume_retry_runs_query in Hretry.
  destruct (negb _) eqn:Hcode.
  { injection Hrun as <- <- <-. split; [lia|]. split; [lia|].
    by intros [? ?]. }
  apply bind_inv in Hrun as (now & w4 & Hclock & Hrun).
  injection Hclock as <- <-. injection Hrun as <- <- <-. simpl.
  split; [lia|]. split; [lia|]. intros _. lia.
Qed.

(** The loop stops at the first query that succeeds. *)
Lemma consume_retry_first_success E n : ∀ j pSub w,
  (j < n)%nat →
  refresh_never_fails E pSub →
  (∀ i, (i < j)%nat → query_code E (queries w + i) ≠ TSDB_CODE_SUCCESS E) →
  query_code E (queries w + j) = TSDB_CODE_SUCCESS E →
  ∃ pSub' w',
    consume_retry E n pSub w = Some ((false, pSub'), w') ∧
    queries w' = (queries w + j + 1)%nat ∧
    res_code (pSql pSub') = TSDB_CODE_SUCCESS E.
Proof.
  induction n as [|n IH]; intros j pSub w Hj Hr Hfail Hok; [lia|].
  cbn [consume_retry].
  erewrite bind_Some by reflexivity.
  set (w0 := MkWorld (files w) (S (clock_reads w)) (queries w) (resolves w)
               (sleeps w) (mkdirs w)).
  assert (∃ s1 w1,
    (if int64_sub (clock E (clock_reads w)) (lastSyncTime pSub) >? 10 * 60 * 1000
     then tscUpdateSubscription E pSub else mret (1, pSub)) w0
    = Some ((1, s1), w1) ∧ queries w1 = queries w ∧ refresh_never_fails E s1)
    as (s1 & w1 & Hrun & Hq1 & Hr1).
  { destruct (_ >? _).
    - destruct (tscUpdateSubscription_never_fails E pSub w0 Hr)
        as (s1 & w1 & Hrun & Hq & Hr1). eauto 6.
    - eexists _, _. split; [reflexivity|]. done. }
  erewrite bind_Some by exact Hrun. simpl.
  erewrite bind_Some by reflexivity. rewrite Hq1.
  destruct j as [|j].
  - rewrite Nat.add_0_r in Hok. rewrite Hok, Z.eqb_refl. simpl.
    eexists _, _. split; [reflexivity|]. simpl. split; [lia|done].
  - pose proof (Hfail 0%nat ltac:(lia)) as Hcode.
    rewrite Nat.add_0_r in Hcode. apply Z.eqb_neq in Hcode.
    rewrite Hcode. simpl.
    edestruct (IH j) as (s2 & w2 & Hrun2 & Hq2 & Hc2);
      [| |  | |eexists _, _; split; [exact Hrun2|]].
    + lia.
    + apply refresh_never_fails_query. exact Hr1.
    + intros i Hi. simpl.
      replace (S (queries w + i))%nat with (queries w + S i)%nat by lia.
      apply Hfail. lia.
    + simpl.
      by replace (S (queries w + j))%nat with (queries w + S j)%nat by lia.
    + simpl in Hq2. split; [lia|done].
Qed.

(** A consume whose query succeeds after [j] failures. *)
Lemma taos_consume_succeeds_after E pSub w j :
  (j < 3)%nat →
  refresh_never_fails E pSub →
  (∀ i, (i < j)%nat → query_code E (queries w + i) ≠ TSDB_CODE_SUCCESS E) →
  query_code E (queries w + j) = TSDB_CODE_SUCCESS E →
  ∃ pSub' w',
    taos_consume E (Some pSub) w = Some ((Some (pSql pSub'), Some pSub'), w') ∧
    queries w' = (queries w + j + 1)%nat.
Proof.
  intros Hj Hr Hfail Hok. unfold taos_consume.
  destruct (tscSaveSubscriptionProgress_runs E pSub w) as (w1 & Hsave & _ & Hq1 & _).
  erewrite bind_Some by exact Hsave.
  destruct (consume_pace_runs E pSub w1) as (w2 & Hpace & Hq2 & _).
  erewrite bind_Some by exact Hpace.
  destruct (consume_retry_first_success E 3 j pSub w2 Hj Hr)
    as (s3 & w3 & Hretry & Hq3 & Hc3).
  { intros i Hi. rewrite Hq2, Hq1. by apply Hfail. }
  { by rewrite Hq2, Hq1. }
  erewrite bind_Some by exact Hretry. simpl.
  rewrite Hc3, Z.eqb_refl. simpl.
  erewrite bind_Some by reflexivity.
  exists (set_lastConsumeTime s3 (clock E (clock_reads w3))).
  eexists. split; [reflexivity|]. simpl. lia.
Qed.

(** X15. When the query fails [j] times, [j] being 0, 1 or 2, and then
    succeeds, and no refresh can fail, [taos_consume] returns the query
    object after exactly [j + 1] executions of the query. *)
Theorem taos_consume_first_success E pSub w j :
  (j < 3)%nat →
  refresh_never_fails E pSub →
  (∀ i, (i < j)%nat → query_code E (queries w + i) ≠ TSDB_CODE_SUCCESS E) →
  query_code E (queries w + j) = TSDB_CODE_SUCCESS E →
  ∃ pSub' w',
    taos_consume E (Some pSub) w = Some ((Some (pSql pSub'), Some pSub'), w') ∧
    queries w' = (queries w + j + 1)%nat.
Proof. apply taos_consume_succeeds_after. Qed.

Lemma wrap_signed_small w z :
  0 < w → - 2 ^ (w - 1) <= z < 2 ^ (w - 1) → wrap_signed w z = z.
Proof.
  intros Hw Hz. unfold wrap_signed.
  assert (2 ^ w = 2 * 2 ^ (w - 1)) as ->.
  { rewrite <- Z.pow_succ_r by lia. f_equal. lia. }
  rewrite Z.mod_small; lia.
Qed.

(** X16. Pacing: a call driven by the timer never sleeps; a call of a
    synchronous caller sleeps once, for what is left of the interval,
    when less than the interval has passed since [lastConsumeTime], and
    not at all otherwise.  Nothing else in [taos_consume] sleeps. *)
Theorem taos_consume_pacing E pSub w r w' :
  taos_consume E (Some pSub) w = Some (r, w') →
  (is_Some (pTimer pSub) → sleeps w' = sleeps w) ∧
  (pTimer pSub = None →
   interval pSub <= int64_sub (clock E (clock_reads w)) (lastConsumeTime pSub) →
   sleeps w' = sleeps w) ∧
  (pTimer pSub = None →
   0 <= clock E (clock_reads w) - lastConsumeTime pSub < interval pSub →
   interval pSub < 2 ^ 31 →
   sleeps w' = sleeps w ++
                 [interval pSub - (clock E (clock_reads w) - lastConsumeTime pSub)]).
Proof.
  unfold taos_consume. intros Hrun.
  apply bind_inv in Hrun as ([] & w1 & Hsave & Hrun).
  apply bind_inv in Hrun as ([] & w2 & Hpace & Hrun).
  apply bind_inv in Hrun as ([aborted s3] & w3 & Hretry & Hrun).
  apply consume_retry_frame in Hretry as (_ & Hs3 & _).
  assert (sleeps w' = sleeps w2) as ->.
  { rewrite <- Hs3. destruct aborted; [by injection Hrun as <- <-|].
    destruct (negb _); [by injection Hrun as <- <-|].
    apply bind_inv in Hrun as (now & w4 & Hclock & Hrun).
    injection Hclock as <- <-. by injection Hrun as <- <-. }
  assert (sleeps w1 = sleeps w ∧ clock_reads w1 = clock_reads w) as [Hs1 Hc1].
  { unfold tscSaveSubscriptionProgress in Hsave.
    destruct (fopen_w_ok _ _); by injection Hsave as <-. }
  unfold consume_pace in Hpace. split; [|split].
  - intros [t Ht]. rewrite Ht in Hpace. by injection Hpace as <-.
  - intros Ht Hlate. rewrite Ht in Hpace. run_monad. rewrite Hc1 in Hpace.
    apply Z.ltb_ge in Hlate. rewrite Hlate in Hpace. by injection Hpace as <-.
  - intros Ht Hearly Hint. rewrite Ht in Hpace. run_monad.
    rewrite Hc1 in Hpace.
    assert (int64_sub (clock E (clock_reads w)) (lastConsumeTime pSub)
            = clock E (clock_reads w) - lastConsumeTime pSub) as Hd.
    { unfold int64_sub. apply wrap_signed_small; [lia|].
      change (2 ^ (64 - 1)) with 9223372036854775808. lia. }
    rewrite Hd in Hpace.
    assert ((clock E (clock_reads w) - lastConsumeTime pSub <? interval pSub)
            = true) as Hlt by (apply Z.ltb_lt; lia).
    rewrite Hlt in Hpace. injection Hpace as <-. simpl. rewrite Hs1.
    f_equal. f_equal. unfold int32_sub, to_int32.
    change (2 ^ 31) with 2147483648 in Hint.
    rewrite (wrap_signed_small 32
               (clock E (clock_reads w) - lastConsumeTime pSub));
      [|lia|change (2 ^ (32 - 1)) with 2147483648; lia].
    apply wrap_signed_small; [lia|].
    change (2 ^ (32 - 1)) with 2147483648. lia.
Qed.

Lemma consume_retry_kind E n : ∀ pSub w r w',
  consume_retry E n pSub w = Some (r, w') →
  isNormalTable (cmd_tableMetaInfo (pSql r.2))
  = isNormalTable (cmd_tableMetaInfo (pSql pSub)).
Proof.
  induction n as [|n IH]; intros pSub w r w' Hrun.
  - by injection Hrun as <- <-.
  - cbn [consume_retry] in Hrun.
    apply bind_inv in Hrun as (now & w0 & _ & Hrun).
    apply bind_inv in Hrun as ([ok s1] & w1 & Hupd & Hrun).
    assert (isNormalTable (cmd_tableMetaInfo (pSql s1))
            = isNormalTable (cmd_tableMetaInfo (pSql pSub))) as Hk.
    { destruct (_ >? _).
      - by apply tscUpdateSubscription_frame in Hupd as (_ & _ & _ & _ & _ & ?).
      - by injection Hupd as <- <- <-. }
    destruct (ok =? 0); [by injection Hrun as <- <-|].
    apply bind_inv in Hrun as (code & w2 & _ & Hrun).
    destruct (negb _).
    + apply IH in Hrun. by rewrite Hrun.
    + by injection Hrun as <- <-.
Qed.

(** With [lastSyncTime] at zero and a clock that reads more than ten
    minutes, the first round of the loop refreshes. *)
Lemma consume_retry_refreshes_first E n pSub w r w' :
  consume_retry E (S n) pSub w = Some (r, w') →
  lastSyncTime pSub = 0 →
  isNormalTable (cmd_tableMetaInfo (pSql pSub)) = false →
  (∀ k, 10 * 60 * 1000 < clock E k < 2 ^ 63) →
  (resolves w < resolves w')%nat.
Proof.
  intros Hrun Hsync Hn Hclock. cbn [consume_retry] in Hrun.
  apply bind_inv in Hrun as (now & w0 & Hnow & Hrun).
  injection Hnow as <- <-.
  apply bind_inv in Hrun as ([ok s1] & w1 & Hupd & Hrun).
  rewrite Hsync in Hupd.
  assert ((int64_sub (clock E (clock_reads w)) 0 >? 10 * 60 * 1000) = true) as Hdue.
  { unfold int64_sub. rewrite wrap_signed_small.
    - apply Z.gtb_lt. specialize (Hclock (clock_reads w)). lia.
    - lia.
    - change (2 ^ (64 - 1)) with (2 ^ 63).
      specialize (Hclock (clock_reads w)). lia. }
  rewrite Hdue in Hupd.
  apply tscUpdateSubscription_frame in Hupd as (_ & _ & _ & _ & Hr1 & _).
  rewrite Hn in Hr1. simpl in Hr1.
  destruct (ok =? 0); [injection Hrun as <- <-; lia|].
  apply bind_inv in Hrun as (code & w2 & Hq & Hrun).
  injection Hq as <- <-.
  destruct (negb _).
  - apply consume_retry_frame in Hrun as (_ & _ & _ & Hr). simpl in Hr. lia.
  - injection Hrun as <- <-. simpl. lia.
Qed.

(** A round with no refresh due whose query succeeds. *)
Lemma consume_retry_succeeds_at_once E n pSub w :
  refresh_due E pSub (clock_reads w) = false →
  query_code E (queries w) = TSDB_CODE_SUCCESS E →
  ∃ pSub',
    consume_retry E (S n) pSub w
    = Some ((false, pSub'),
            MkWorld (files w) (S (clock_reads w)) (S (queries w)) (resolves w)
                    (sleeps w) (mkdirs w)) ∧
    res_code (pSql pSub') = TSDB_CODE_SUCCESS E ∧
    progress pSub' = progress pSub.
Proof.
  intros Hdue Hok. unfold refresh_due in Hdue. eexists. split.
  - cbn [consume_retry]. erewrite bind_Some by reflexivity. rewrite Hdue.
    erewrite bind_Some by reflexivity. cbv beta iota.
    change (1 =? 0) with false. cbv iota.
    erewrite bind_Some by reflexivity.
    cbn [queries]. rewrite Hok, Z.eqb_refl. reflexivity.
  - done.
Qed.

(** A consume with no refresh due whose first query succeeds. *)
Lemma taos_consume_succeeds_at_once E pSub w :
  refresh_due E pSub (first_round_clock pSub w) = false →
  query_code E (queries w) = TSDB_CODE_SUCCESS E →
  ∃ pSub' w',
    taos_consume E (Some pSub) w = Some ((Some (pSql pSub'), Some pSub'), w') ∧
    queries w' = S (queries w) ∧ resolves w' = resolves w ∧
    progress pSub' = progress pSub.
Proof.
  intros Hdue Hok. unfold taos_consume.
  destruct (tscSaveSubscriptionProgress_runs E pSub w)
    as (w1 & Hsave & Hc1 & Hq1 & Hr1).
  erewrite bind_Some by exact Hsave.
  destruct (consume_pace_clock E pSub w1) as (w2 & Hpace & Hq2 & Hr2 & Hc2).
  erewrite bind_Some by exact Hpace.
  assert (clock_reads w2 = first_round_clock pSub w) as Hc
    by (rewrite Hc2; unfold first_round_clock; by rewrite Hc1).
  destruct (consume_retry_succeeds_at_once E 2 pSub w2)
    as (s3 & Hretry & Hcode & Hpr); [by rewrite Hc|by rewrite Hq2, Hq1|].
  erewrite bind_Some by exact Hretry. cbv beta iota.
  rewrite Hcode, Z.eqb_refl. cbn [negb].
  erewrite bind_Some by reflexivity.
  exists (set_lastConsumeTime s3 (clock E (S (clock_reads w2)))).
  eexists. split; [reflexivity|]. simpl. split; [lia|]. split; [lia|done].
Qed.

(** A round whose refresh is due and fails ends the loop at once: no
    query is run. *)
Lemma consume_retry_refresh_fails_at_once E n pSub w p :
  refresh_due E pSub (clock_reads w) = true →
  isNormalTable (cmd_tableMetaInfo (pSql pSub)) = false →
  strstr (sqlstr (pSql pSub)) (list_ascii_of_string " from ") = Some p →
  table_rows E (resolves w) (list_ascii_of_string "select tbid(tbname)" ++ p)
    = None →
  consume_retry E (S n) pSub w
  = Some ((true, set_lastSyncTime pSub (clock E (S (clock_reads w)))),
          MkWorld (files w) (S (S (clock_reads w))) (queries w) (S (resolves w))
                  (sleeps w) (mkdirs w)).
Proof.
  intros Hdue Hn Hstr Hrows. unfold refresh_due in Hdue.
  cbn [consume_retry]. erewrite bind_Some by reflexivity. rewrite Hdue.
  erewrite bind_Some
    by (by apply (tscUpdateSubscription_fails E pSub _ p Hn Hstr)).
  reflexivity.
Qed.

(** X17. After a call of [taos_consume] that returned a result, the
    next call, on a table that is not Normal, returns and has asked the
    resolver again, however short the time between the two (the clock
    reading more than ten minutes, as every clock of milliseconds since
    1970 does).  The resolver is asked before any query is run: when
    its answer to that question is a failure, the call returns [NULL]
    and has run no query. *)
Theorem taos_consume_refreshes_after_success E pSub w res pSub1 w1 p :
  taos_consume E (Some pSub) w = Some ((Some res, Some pSub1), w1) →
  isNormalTable (cmd_tableMetaInfo (pSql pSub)) = false →
  strstr (sqlstr (pSql pSub)) (list_ascii_of_string " from ") = Some p →
  (∀ k, 10 * 60 * 1000 < clock E k < 2 ^ 63) →
  ∃ r pSub2 w2,
    taos_consume E (Some pSub1) w1 = Some ((r, Some pSub2), w2) ∧
    (resolves w1 < resolves w2)%nat ∧
    (table_rows E (resolves w1)
       (list_ascii_of_string "select tbid(tbname)" ++ p) = None →
     r = None ∧ queries w2 = queries w1 ∧ resolves w2 = S (resolves w1)).
Proof.
  intros Hfirst Hn Hstr Hclock.
  destruct (taos_consume_keeps_identity _ _ _ _ _ _ Hfirst)
    as (s & [= <-] & _ & _ & _ & _ & Hsql & Hn1 & _).
  rewrite Hn in Hn1. rewrite <- Hsql in Hstr.
  assert (lastSyncTime pSub1 = 0) as Hsync.
  { unfold taos_consume in Hfirst.
    apply bind_inv in Hfirst as ([] & wa & _ & Hfirst).
    apply bind_inv in Hfirst as ([] & wb & _ & Hfirst).
    apply bind_inv in Hfirst as ([aborted s3] & wc & Hretry & Hfirst).
    destruct aborted; [done|].
    destruct (negb _) eqn:Hcode; [done|].
    apply bind_inv in Hfirst as (now & wd & _ & Hfirst).
    injection Hfirst as _ <- _. simpl.
    apply negb_false_iff, Z.eqb_eq in Hcode.
    apply consume_retry_finished in Hretry as [[? _]|[?|?]]; done. }
  assert (∀ k, refresh_due E pSub1 k = true) as Hdue.
  { intros k. unfold refresh_due, int64_sub. rewrite Hsync.
    specialize (Hclock k). rewrite wrap_signed_small.
    - apply Z.gtb_lt. lia.
    - lia.
    - change (2 ^ (64 - 1)) with (2 ^ 63). lia. }
  destruct (taos_consume_returns E pSub1 w1) as (r & pSub2 & w2 & Hsecond);
    [right; by eexists|].
  exists r, pSub2, w2. split; [exact Hsecond|].
  unfold taos_consume in Hsecond.
  apply bind_inv in Hsecond as ([] & wa & Hsave & Hsecond).
  apply bind_inv in Hsecond as ([] & wb & Hpace & Hsecond).
  apply bind_inv in Hsecond as ([aborted s3] & wc & Hretry & Hsecond).
  destruct (tscSaveSubscriptionProgress_runs E pSub1 w1)
    as (wa' & Hsave' & _ & Hqa & Hra).
  assert (wa' = wa) as -> by congruence.
  destruct (consume_pace_runs E pSub1 wa) as (wb' & Hpace' & Hqb & _ & Hrb).
  assert (wb' = wb) as -> by congruence.
  split.
  - apply consume_retry_refreshes_first in Hretry; [|done..].
    assert (resolves w2 = resolves wc) as ->; [|lia].
    destruct aborted; [by injection Hsecond as _ _ <-|].
    destruct (negb _); [by injection Hsecond as _ _ <-|].
    apply bind_inv in Hsecond as (now & wd & Hnow & Hsecond).
    injection Hnow as <- <-. by injection Hsecond as _ _ <-.
  - intros Hrows.
    rewrite (consume_retry_refresh_fails_at_once E 2 pSub1 wb p) in Hretry;
      [|apply Hdue|exact Hn1|exact Hstr|by rewrite Hrb, Hra].
    injection Hretry as <- <- <-. cbv iota in Hsecond.
    injection Hsecond as <- <- <-. simpl. split; [done|]. split; lia.
Qed.

(** ** What the operations leave alone *)

(** X18. [taos_consume] always hands back the subscription it was
    given, and never changes its topic, its query text, its interval,
    its timer handle, its callback or the kind and uid of its table,
    whether it returns a result or [NULL]. *)
Theorem taos_consume_identity E pSub w res tsub w' :
  taos_consume E (Some pSub) w = Some ((res, tsub), w') →
  ∃ pSub', tsub = Some pSub' ∧ same_identity pSub pSub'.
Proof. apply taos_consume_keeps_identity. Qed.

(** ** The resolver *)

Lemma is_prefix_of_app needle : ∀ hay,
  is_prefix_of needle hay = true → ∃ post, hay = needle ++ post.
Proof.
  induction needle as [|x needle IH]; intros hay H; [by exists hay|].
  destruct hay as [|y hay]; [done|]. simpl in H.
  apply andb_true_iff in H as [Hxy H]. apply Ascii.eqb_eq in Hxy as ->.
  destruct (IH hay H) as [post ->]. by exists post.
Qed.

Lemma strstr_Some hay needle p :
  strstr hay needle = Some p →
  ∃ pre post, hay = pre ++ p ∧ p = needle ++ post.
Proof.
  induction hay as [|c hay IH]; simpl.
  - destruct (is_prefix_of needle []) eqn:Hpre; [|done]. intros [= <-].
    apply is_prefix_of_app in Hpre as [post ->]. by exists [], post.
  - destruct (is_prefix_of needle (c :: hay)) eqn:Hpre.
    + intros [= <-]. apply is_prefix_of_app in Hpre as [post Hpost].
      by exists [], post.
    + intros H. apply IH in H as (pre & post & -> & ->).
      by exists (c :: pre), post.
Qed.

Lemma strstr_here hay needle :
  is_prefix_of needle hay = true → strstr hay needle = Some hay.
Proof. intros H. destruct hay; simpl; by rewrite H. Qed.

Lemma strstr_None hay needle pre post :
  strstr hay needle = None → hay ≠ pre ++ needle ++ post.
Proof.
  assert (∀ post, is_prefix_of needle (needle ++ post) = true) as Hpre.
  { intros post'. induction needle as [|x needle IH]; [done|]. simpl.
    by rewrite Ascii.eqb_refl, IH. }
  revert hay. induction pre as [|c pre IH]; intros hay Hnone ->.
  - rewrite strstr_here in Hnone; [done|apply Hpre].
  - change (strstr ((c :: pre) ++ needle ++ post) needle)
      with (if is_prefix_of needle (c :: pre ++ needle ++ post)
            then Some (c :: pre ++ needle ++ post)
            else strstr (pre ++ needle ++ post) needle) in Hnone.
    destruct (is_prefix_of needle _); [done|]. by eapply IH.
Qed.

(** X19. [getTableList] asks the resolver once and touches nothing else
    of the world.  The query it sends is [select tbid(tbname)] followed
    by the part of the query text that starts at a [" from "], and what
    it returns is the resolver's answer.  It has a result exactly
    when [" from "] occurs in the query text: without it [strlen] is
    given [NULL]. *)
Theorem getTableList_query E q w :
  (∀ r w', getTableList E q w = Some (r, w') →
     ∃ pre post,
       sqlstr q = pre ++ list_ascii_of_string " from " ++ post ∧
       r = table_rows E (resolves w)
             (list_ascii_of_string "select tbid(tbname) from " ++ post) ∧
       w' = MkWorld (files w) (clock_reads w) (queries w) (S (resolves w))
                    (sleeps w) (mkdirs w)) ∧
  ((∀ pre post, sqlstr q ≠ pre ++ list_ascii_of_string " from " ++ post) →
   getTableList E q w = None) ∧
  (∀ pre post, sqlstr q = pre ++ list_ascii_of_string " from " ++ post →
   is_Some (getTableList E q w)).
Proof.
  unfold getTableList. split; [|split].
  - intros r w'.
    destruct (strstr _ _) as [p|] eqn:Hstr; [|done].
    apply strstr_Some in Hstr as (pre & post & Hhay & ->).
    intros [= <- <-]. exists pre, post. split; [done|]. split; reflexivity.
  - intros Hno. destruct (strstr _ _) as [p|] eqn:Hstr; [|done].
    apply strstr_Some in Hstr as (pre & post & Hhay & ->).
    by destruct (Hno pre post).
  - intros pre post Hsql.
    destruct (strstr _ _) as [p|] eqn:Hstr; [by eexists|].
    by apply (strstr_None _ _ pre post) in Hstr.
Qed.

(** ** Creating and ending a subscription *)

Lemma c_str_no_NUL s : Forall (λ c, c ≠ NUL) (c_str s).
Proof.
  induction s as [|c s IH]; simpl; [constructor|].
  destruct (c =? NUL)%char eqn:Hc; [constructor|].
  constructor; [by apply Ascii.eqb_neq|done].
Qed.

(** X20. [tscCreateSubscription] returns a subscription exactly when
    its acquisitions succeed and the lower-cased query text parses with
    success to a [select].  The new subscription has an empty
    ProgressSet, no timer, times at zero, the lower-cased text as its
    query text, and as its topic the first 31 bytes of the topic given:
    two topics that agree on their first 31 bytes share one progress
    file.  A failed acquisition gives [NULL].  On a failed parse and on
    a statement that is no [select], lines 133 and 138 read the topic
    through [pSub] while it is still [NULL]: the call has no defined
    result when [tscError] formats its arguments, and returns [NULL]
    only when it does not. *)
Theorem tscCreateSubscription_result E topic0 sql :
  let parsed := tsParseSql E (strtolower E (c_str sql)) in
  let is_select :=
    parsed_code parsed = TSDB_CODE_SUCCESS E ∧
    parsed_command parsed = TSDB_SQL_SELECT E in
  (alloc_query_ok E = true → is_select → alloc_sub_ok E = true →
   ∃ pSub,
     tscCreateSubscription E topic0 sql = Some (Some pSub) ∧
     progress pSub = [] ∧ pTimer pSub = None ∧
     lastSyncTime pSub = 0 ∧ lastConsumeTime pSub = 0 ∧
     sqlstr (pSql pSub) = strtolower E (c_str sql) ∧
     topic pSub = take 31 (c_str topic0) ∧
     (length (topic pSub) ≤ 31)%nat ∧ Forall (λ c, c ≠ NUL) (topic pSub)) ∧
  (alloc_query_ok E = false →
   tscCreateSubscription E topic0 sql = Some None) ∧
  (alloc_query_ok E = true → ¬ is_select →
   tscCreateSubscription E topic0 sql
   = if tscError_formats E then None else Some None) ∧
  (alloc_query_ok E = true → is_select → alloc_sub_ok E = false →
   tscCreateSubscription E topic0 sql = Some None) ∧
  (∀ topic1 sql1 pSub pSub1,
     tscCreateSubscription E topic0 sql = Some (Some pSub) →
     tscCreateSubscription E topic1 sql1 = Some (Some pSub1) →
     take 31 (c_str topic1) = take 31 (c_str topic0) →
     progress_path E pSub1 = progress_path E pSub).
Proof.
  intros parsed is_select. subst parsed is_select.
  unfold tscCreateSubscription. repeat split.
  - intros -> [-> ->] ->. rewrite !Z.eqb_refl. simpl.
    eexists. split; [reflexivity|]. simpl. repeat split.
    + rewrite length_take. lia.
    + apply Forall_take, c_str_no_NUL.
  - by intros ->.
  - intros -> Hnot. cbn [negb].
    destruct (Z.eqb_spec (parsed_code (tsParseSql E (strtolower E (c_str sql))))
                (TSDB_CODE_SUCCESS E)) as [H1|]; [|done].
    destruct (Z.eqb_spec (parsed_command (tsParseSql E (strtolower E (c_str sql))))
                (TSDB_SQL_SELECT E)) as [H2|]; [|done].
    by destruct Hnot.
  - intros -> [-> ->] ->. by rewrite !Z.eqb_refl.
  - intros topic1 sql1 pSub pSub1.
    destruct (negb (alloc_query_ok E)); [done|].
    destruct (negb (_ =? _)); [by destruct (tscError_formats E)|].
    destruct (negb (_ =? _)); [by destruct (tscError_formats E)|].
    destruct (negb (alloc_sub_ok E)); [done|]. intros [= <-].
    destruct (negb (_ =? _)); [by destruct (tscError_formats E)|].
    destruct (negb (_ =? _)); [by destruct (tscError_formats E)|].
    intros [= <-].
    unfold progress_path. simpl. by intros ->.
Qed.

(** X21. Ending a subscription without keeping its progress removes
    the progress file of the topic and no other file, so that a later
    load for that topic finds no file: it returns 1 and loads nothing.
    Ending it with [keepProgress] set is a save.  A [NULL] handle does
    nothing. *)
Theorem taos_unsubscribe_effect E pSub w :
  (∃ w',
     taos_unsubscribe E (Some pSub) 0 w = Some (tt, w') ∧
     files w' !! progress_path E pSub = None ∧
     (∀ path, path ≠ progress_path E pSub → files w' !! path = files w !! path) ∧
     ∀ pSub0, topic pSub0 = topic pSub →
              tscLoadSubscriptionProgress E pSub0 w' = Some ((1, pSub0), w')) ∧
  (∀ keepProgress, keepProgress ≠ 0 →
     taos_unsubscribe E (Some pSub) keepProgress w
     = tscSaveSubscriptionProgress E pSub w) ∧
  (∀ keepProgress, taos_unsubscribe E None keepProgress w = Some (tt, w)).
Proof.
  split; [|split].
  - eexists. split; [reflexivity|]. simpl. split; [apply lookup_delete_eq|].
    split; [intros path Hne; by rewrite lookup_delete_ne|].
    intros pSub0 Htopic. unfold tscLoadSubscriptionProgress, progress_path.
    simpl. rewrite Htopic.
    change (tsDataDir E ++ list_ascii_of_string "/subscribe/" ++ topic pSub)
      with (progress_path E pSub).
    by rewrite lookup_delete_eq.
  - intros keep Hkeep. unfold taos_unsubscribe.
    apply Z.eqb_neq in Hkeep. by rewrite Hkeep.
  - done.
Qed.

(** ** Subscribing *)

(** The files play no part in a refresh. *)
Lemma tscUpdateSubscription_files E pSub w f :
  tscUpdateSubscription E pSub (set_files w f)
  = match tscUpdateSubscription E pSub w with
    | Some (r, w') => Some (r, set_files w' f)
    | None => None
    end.
Proof.
  unfold tscUpdateSubscription, getTableList. run_monad.
  destruct (isNormalTable (cmd_tableMetaInfo (pSql pSub))).
  - by destruct (taosArraySearch _ _ _).
  - destruct (strstr _ _) as [p|]; [|done]. simpl.
    by destruct (table_rows E _ _).
Qed.

(** X22. Restart wins: with [restart] set, the subscription that
    [taos_subscribe] returns (or the [NULL] it returns) is the same
    whatever the files hold; nothing of a progress file reaches it. *)
Theorem taos_subscribe_restart_ignores_files E connected restart topic0 sql
    fp0 interval0 w f :
  restart ≠ 0 →
  fst <$> taos_subscribe E connected restart topic0 sql fp0 interval0
            (set_files w f)
  = fst <$> taos_subscribe E connected restart topic0 sql fp0 interval0 w.
Proof.
  intros Hrestart. unfold taos_subscribe.
  destruct connected; [|done]. cbn [negb].
  destruct (tscCreateSubscription E topic0 sql) as [[s0|]|]; [|done..].
  apply Z.eqb_neq in Hrestart. rewrite Hrestart. cbn [negb].
  rewrite !(bind_Some _ _ _ s0 _ eq_refl).
  unfold mbind at 1 3. unfold M_bind.
  rewrite tscUpdateSubscription_files.
  destruct (tscUpdateSubscription E s0 w) as [[[ok s1] w1]|]; [|done].
  destruct (ok =? 0).
  - unfold taos_unsubscribe. cbn [negb].
    destruct (tscSaveSubscriptionProgress_runs E s1 (set_files w1 f))
      as (wa & Ha & _).
    destruct (tscSaveSubscriptionProgress_runs E s1 w1) as (wb & Hb & _).
    by rewrite (bind_Some _ _ _ _ _ Ha), (bind_Some _ _ _ _ _ Hb).
  - by destruct fp0.
Qed.

(** X23. A subscription made with [restart] on a table that is not
    Normal starts from the beginning: its ProgressSet has one entry for
    each row of the resolver, every key is [INT64_MIN], the interval and
    the callback are the ones given, a timer handle is set exactly when
    a callback is given, and no file is touched. *)
Theorem taos_subscribe_restart_fresh E restart topic0 sql fp0 interval0 w
    s0 p tables :
  restart ≠ 0 →
  tscCreateSubscription E topic0 sql = Some (Some s0) →
  isNormalTable (cmd_tableMetaInfo (pSql s0)) = false →
  strstr (sqlstr (pSql s0)) (list_ascii_of_string " from ") = Some p →
  table_rows E (resolves w) (list_ascii_of_string "select tbid(tbname)" ++ p)
    = Some tables →
  ∃ pSub w',
    taos_subscribe E true restart topic0 sql fp0 interval0 w
    = Some (Some pSub, w') ∧
    (∀ q, q ∈ progress pSub → key q = INT64_MIN) ∧
    uids (progress pSub) ≡ₚ tt_uid <$> tables ∧
    interval pSub = interval0 ∧ fp pSub = fp0 ∧
    (is_Some (pTimer pSub) ↔ is_Some fp0) ∧
    files w' = files w.
Proof.
  intros Hrestart Hcreate Hn Hstr Hrows.
  destruct (tscCreateSubscription_fresh _ _ _ _ Hcreate) as (Hnil & Htimer & Hfp).
  destruct (tscUpdateSubscription_refresh E s0 w p tables Hn Hstr Hrows)
    as (s1 & w1 & Hrun & Hpr & _).
  pose proof (tscUpdateSubscription_frame _ _ _ _ _ Hrun) as (Hfiles & _).
  pose proof (tscUpdateSubscription_identity _ _ _ _ _ Hrun)
    as (_ & Htimer1 & _ & Hfp1 & _). simpl in Htimer1, Hfp1.
  assert (∀ q, q ∈ progress s1 → key q = INT64_MIN) as Hkeys.
  { intros q Hq. rewrite Hpr, rebuild_progress_map in Hq.
    apply elem_of_taosArraySort, list_elem_of_fmap in Hq as (t & -> & _).
    apply get_progress_absent. simpl. rewrite Hnil. apply not_elem_of_nil. }
  assert (uids (progress s1) ≡ₚ tt_uid <$> tables) as Huids.
  { rewrite Hpr, rebuild_progress_map. unfold uids, taosArraySort.
    rewrite merge_sort_Permutation. by rewrite <- list_fmap_compose. }
  unfold taos_subscribe. cbn [negb]. rewrite Hcreate.
  apply Z.eqb_neq in Hrestart. rewrite Hrestart. cbn [negb].
  rewrite (bind_Some _ _ _ s0 _ eq_refl).
  rewrite (bind_Some _ _ _ _ _ Hrun).
  change (1 =? 0) with false. cbv iota.
  destruct fp0 as [f|].
  - eexists _, _. split; [reflexivity|]. simpl.
    split; [exact Hkeys|]. split; [exact Huids|]. do 2 (split; [done|]).
    split; [|done]. split; intros _; by eexists.
  - eexists _, _. split; [reflexivity|]. simpl.
    rewrite Htimer1, Htimer, Hfp1, Hfp.
    split; [exact Hkeys|]. split; [exact Huids|]. do 2 (split; [done|]).
    split; [|done]. split; intros [? ?]; done.
Qed.

(** X24. When the refresh of [taos_subscribe] fails, the subscription
    is ended with [keepProgress] set, which saves it: with [restart]
    set, the progress file of the topic is replaced by a file with the
    query text and no entry, and [NULL] is returned. *)
Theorem taos_subscribe_failure_saves E restart topic0 sql fp0 interval0 w s0 p :
  restart ≠ 0 →
  tscCreateSubscription E topic0 sql = Some (Some s0) →
  isNormalTable (cmd_tableMetaInfo (pSql s0)) = false →
  strstr (sqlstr (pSql s0)) (list_ascii_of_string " from ") = Some p →
  table_rows E (resolves w) (list_ascii_of_string "select tbid(tbname)" ++ p)
    = None →
  fopen_w_ok E (progress_path E s0) = true →
  ∃ w',
    taos_subscribe E true restart topic0 sql fp0 interval0 w = Some (None, w') ∧
    files w' !! progress_path E s0 = Some (c_str (sqlstr (pSql s0)) ++ [LF]).
Proof.
  intros Hrestart Hcreate Hn Hstr Hrows Hopen.
  destruct (tscCreateSubscription_fresh _ _ _ _ Hcreate) as (Hnil & _).
  pose proof (tscUpdateSubscription_fails E s0 w p Hn Hstr Hrows) as Hrun.
  unfold taos_subscribe. cbn [negb]. rewrite Hcreate.
  apply Z.eqb_neq in Hrestart. rewrite Hrestart. cbn [negb].
  rewrite (bind_Some _ _ _ s0 _ eq_refl).
  rewrite (bind_Some _ _ _ _ _ Hrun).
  change (0 =? 0) with true. cbv iota.
  unfold taos_unsubscribe. change (negb (1 =? 0)) with true. cbv iota.
  unfold tscSaveSubscriptionProgress at 1.
  change (progress_path E (set_lastSyncTime s0 (clock E (clock_reads w))))
    with (progress_path E s0).
  unfold mbind, M_bind. rewrite Hopen.
  eexists. split; [reflexivity|]. simpl.
  rewrite lookup_insert_eq. unfold progress_file. simpl. by rewrite Hnil.
Qed.

(** X25. Resume: when the progress of a subscription has been saved
    (the file could be written) and the same topic and query are
    subscribed again without [restart], on a table that is not Normal
    whose resolver returns the uids of the saved set, the new
    subscription starts with the saved ProgressSet, every key as it was
    saved.  This for a saved set that is sorted, with uids and keys in
    the range of [int64_t], and for a query text that holds no carriage
    return or line feed and fits, with its line feed, a read buffer of
    at least 133 bytes (room for the longest line of an entry): a query
    text of two lines is cut at its line feed by the load, which then
    finds another text than the one of the subscription, rejects the
    file, and every key starts at [INT64_MIN]. *)
Theorem taos_subscribe_resumes E pSub w topic0 sql fp0 interval0 s0 p tables :
  fopen_w_ok E (progress_path E pSub) = true →
  Forall (λ c, c ≠ CR ∧ c ≠ LF) (c_str (sqlstr (pSql pSub))) →
  (length (c_str (sqlstr (pSql pSub))) + 1 < TSDB_MAX_SQL_LEN E)%nat →
  (133 ≤ TSDB_MAX_SQL_LEN E)%nat →
  Forall (λ q, is_int64 (uid q) ∧ is_int64 (key q)) (progress pSub) →
  sorted_unique (progress pSub) →
  tscCreateSubscription E topic0 sql = Some (Some s0) →
  topic s0 = topic pSub →
  sqlstr (pSql s0) = sqlstr (pSql pSub) →
  isNormalTable (cmd_tableMetaInfo (pSql s0)) = false →
  strstr (sqlstr (pSql s0)) (list_ascii_of_string " from ") = Some p →
  table_rows E (resolves w) (list_ascii_of_string "select tbid(tbname)" ++ p)
    = Some tables →
  tt_uid <$> tables ≡ₚ uids (progress pSub) →
  ∃ w1 pSub' w2,
    tscSaveSubscriptionProgress E pSub w = Some (tt, w1) ∧
    taos_subscribe E true 0 topic0 sql fp0 interval0 w1 = Some (Some pSub', w2) ∧
    progress pSub' = progress pSub.
Proof.
  intros Hopen Hsql Hlen Hbuf Hint Hs Hcreate Htopic Hsame Hn Hstr Hrows Hperm.
  unfold tscSaveSubscriptionProgress at 1. unfold mbind, M_bind, tmkdir.
  rewrite Hopen.
  set (w1 := set_files _ (<[progress_path E pSub := progress_file pSub]> _)).
  exists w1.
  cut (∃ pSub' w2,
         taos_subscribe E true 0 topic0 sql fp0 interval0 w1
         = Some (Some pSub', w2) ∧ progress pSub' = progress pSub).
  { intros (s' & w2 & H1 & H2). by exists s', w2. }
  assert (tscLoadSubscriptionProgress E s0 w1
          = Some ((0, set_progress s0 (progress pSub)), w1)) as Hload.
  { apply load_saved_file; try done.
    unfold progress_path. rewrite Htopic. apply lookup_insert_eq. }
  destruct (tscUpdateSubscription_refresh E (set_progress s0 (progress pSub))
              w1 p tables Hn Hstr Hrows) as (s1 & w2 & Hrun & Hpr & _).
  assert (progress s1 = progress pSub) as Hkeep.
  { rewrite Hpr.
    by apply (rebuild_same_uids
                (set_lastSyncTime (set_progress s0 (progress pSub))
                   (clock E (clock_reads w1)))). }
  unfold taos_subscribe. cbn [negb]. rewrite Hcreate.
  change (negb (0 =? 0)) with false. cbv iota.
  rewrite (bind_Some _ _ _ (set_progress s0 (progress pSub)) w1).
  - rewrite (bind_Some _ _ _ _ _ Hrun). change (1 =? 0) with false. cbv iota.
    destruct fp0; eexists _, _; (split; [reflexivity|exact Hkeep]).
  - by rewrite (bind_Some _ _ _ _ _ Hload).
Qed.

(** ** The timer *)

(** A call driven by the timer does not sleep. *)
Lemma taos_consume_timer_no_sleep E pSub w r w' :
  is_Some (pTimer pSub) →
  taos_consume E (Some pSub) w = Some (r, w') → sleeps w' = sleeps w.
Proof.
  intros [t Ht]. unfold taos_consume. intros Hrun.
  apply bind_inv in Hrun as ([] & w1 & Hsave & Hrun).
  apply bind_inv in Hrun as ([] & w2 & Hpace & Hrun).
  apply bind_inv in Hrun as ([aborted s3] & w3 & Hretry & Hrun).
  apply consume_retry_frame in Hretry as (_ & Hs3 & _).
  unfold consume_pace in Hpace. rewrite Ht in Hpace. injection Hpace as <-.
  assert (sleeps w1 = sleeps w) as Hs1.
  { unfold tscSaveSubscriptionProgress in Hsave.
    destruct (fopen_w_ok _ _); by injection Hsave as <-. }
  rewrite <- Hs1, <- Hs3. destruct aborted; [by injection Hrun as <- <-|].
  destruct (negb _); [by injection Hrun as <- <-|].
  apply bind_inv in Hrun as (now & w4 & Hclock & Hrun).
  injection Hclock as <- <-. by injection Hrun as <- <-.
Qed.

(** X26. A fire of the timer whose token is not the subscription's
    timer handle does nothing, and so does a fire on a [NULL] handle.  A
    fire whose token matches runs one [taos_consume], which returns (the
    table being Normal or the query text having its [" from "]) and does
    not sleep; when it returned [NULL] the callback is not called, when
    it returned a result the callback of the subscription is called
    once, with the subscription as the consume left it and that result;
    then the timer is set again, on the subscription as the callback
    left it.  A result with no callback to hand it to has no defined
    outcome. *)
Theorem tscProcessSubscriptionTimer_fire E callback pSub w t :
  (∀ tmrId, tscProcessSubscriptionTimer E callback None tmrId w = Some (None, w)) ∧
  (pTimer pSub ≠ Some t →
   tscProcessSubscriptionTimer E callback (Some pSub) (Some t) w
   = Some (Some pSub, w)) ∧
  (pTimer pSub = Some t → refresh_defined pSub →
   ∃ res pSub1 w1,
     taos_consume E (Some pSub) w = Some ((res, Some pSub1), w1) ∧
     sleeps w1 = sleeps w ∧
     tscProcessSubscriptionTimer E callback (Some pSub) (Some t) w
     = match res, fp pSub with
       | None, _ => Some (Some (set_pTimer pSub1 (Some (tmr_handle E))), w1)
       | Some r, Some f =>
           match callback f pSub1 r w1 with
           | Some (pSub2, w2) =>
               Some (Some (set_pTimer pSub2 (Some (tmr_handle E))), w2)
           | None => None
           end
       | Some r, None => None
       end).
Proof.
  unfold tscProcessSubscriptionTimer. split; [done|]. split.
  - intros Hne. by rewrite bool_decide_eq_false_2.
  - intros Ht Hd. rewrite bool_decide_eq_true_2 by done. cbn [negb].
    destruct (taos_consume_returns E pSub w Hd) as (res & s1 & w1 & Hconsume).
    exists res, s1, w1. split; [exact Hconsume|].
    destruct (taos_consume_keeps_identity _ _ _ _ _ _ Hconsume)
      as (s & [= <-] & _ & _ & _ & Hfp & _).
    split.
    { apply (taos_consume_timer_no_sleep E pSub w _ _ ltac:(by rewrite Ht) Hconsume). }
    erewrite bind_Some by exact Hconsume. cbv beta iota.
    destruct res as [r|].
    + rewrite Hfp. destruct (fp pSub) as [f|]; [|done].
      unfold mbind, M_bind. by destruct (callback f s1 r w1) as [[s2 w2]|].
    + by destruct (fp pSub).
Qed.

(** * The further properties at sample data *)

Lemma progress_update_then_get_witness :
  tscGetSubscriptionProgress
    (tscUpdateSubscriptionProgress
       (Some (sample_sub sample_super 0 [MkProgress 1 0; MkProgress 3 4])) 3 9)
    3 7 = 9.
Proof.
  apply (proj1 (progress_update_then_get
                  (sample_sub sample_super 0 [MkProgress 1 0; MkProgress 3 4])
                  3 9 7 ltac:(compute_done))).
  compute_done.
Defined.

Lemma tscUpdateSubscription_resolver_failure_witness :
  tscUpdateSubscription (sample_env (λ _, 100) (λ _, 0) None)
    (sample_sub sample_super 0 [MkProgress 10 5]) (sample_world None)
  = Some ((0, sample_sub sample_super 100 [MkProgress 10 5]),
          MkWorld ∅ 1 0 1 [] []).
Proof.
  exact (tscUpdateSubscription_resolver_failure
           (sample_env (λ _, 100) (λ _, 0) None)
           (sample_sub sample_super 0 [MkProgress 10 5]) (sample_world None)
           (bytes " from s") eq_refl eq_refl eq_refl).
Defined.

Lemma tscUpdateSubscription_sorted_witness :
  ∃ pSub' w',
    tscUpdateSubscription
      (sample_env (λ _, 100) (λ _, 0) (Some [MkTidTags 30 1; MkTidTags 10 1]))
      (sample_sub sample_super 0 [MkProgress 20 6; MkProgress 10 5])
      (sample_world None) = Some ((1, pSub'), w') ∧
    StronglySorted (λ x y, uid x <= uid y) (progress pSub').
Proof.
  destruct (tscUpdateSubscription_sorted
              (sample_env (λ _, 100) (λ _, 0) (Some [MkTidTags 30 1; MkTidTags 10 1]))
              (sample_sub sample_super 0 [MkProgress 20 6; MkProgress 10 5])
              (sample_world None) (bytes " from s")
              [MkTidTags 30 1; MkTidTags 10 1] eq_refl eq_refl eq_refl)
    as (pSub' & w' & Hrun & Hsorted & _).
  by exists pSub', w'.
Defined.

Lemma tscUpdateSubscription_stable_witness :
  ∃ pSub' w',
    tscUpdateSubscription
      (sample_env (λ _, 100) (λ _, 0) (Some [MkTidTags 20 1; MkTidTags 10 1]))
      (sample_sub sample_super 0 [MkProgress 10 5; MkProgress 20 6])
      (sample_world None) = Some ((1, pSub'), w') ∧
    progress pSub' = [MkProgress 10 5; MkProgress 20 6].
Proof.
  apply (tscUpdateSubscription_stable
           (sample_env (λ _, 100) (λ _, 0) (Some [MkTidTags 20 1; MkTidTags 10 1]))
           (sample_sub sample_super 0 [MkProgress 10 5; MkProgress 20 6])
           (sample_world None) (bytes " from s")
           [MkTidTags 20 1; MkTidTags 10 1] eq_refl eq_refl eq_refl).
  - compute_done.
  - apply perm_swap.
Defined.

Lemma tscUpdateSubscription_normal_witness :
  ∃ pSub',
    tscUpdateSubscription (sample_env (λ _, 100) (λ _, 0) None)
      (sample_sub sample_normal 0 [MkProgress 5 1]) (sample_world None)
    = Some ((1, pSub'), MkWorld ∅ 1 0 0 [] []) ∧
    7 ∈ uids (progress pSub').
Proof.
  destruct (tscUpdateSubscription_normal (sample_env (λ _, 100) (λ _, 0) None)
              (sample_sub sample_normal 0 [MkProgress 5 1]) (sample_world None)
              eq_refl) as (pSub' & Hrun & Hin & _).
  by exists pSub'.
Defined.

Lemma progress_line_round_trip_witness :
  scan_progress (sample_env (λ _, 100) (λ _, 0) None) 0
    (progress_line (MkProgress 10 INT64_MIN)) = MkProgress 10 INT64_MIN.
Proof.
  apply progress_line_round_trip; unfold is_int64, INT64_MIN, INT64_MAX;
    simpl; lia.
Defined.

Lemma tscLoadSubscriptionProgress_outcome_witness :
  is_Some (files (sample_world (Some file_other_sql))
             !! progress_path (sample_env (λ _, 100) (λ _, 0) None)
                  (sample_sub sample_super 0 [])).
Proof.
  destruct (tscLoadSubscriptionProgress_outcome
              (sample_env (λ _, 100) (λ _, 0) None)
              (sample_sub sample_super 0 []) (sample_world (Some file_other_sql))
              0 (sample_sub sample_super 0 []) (sample_world (Some file_other_sql)))
    as (_ & _ & [[H _]|[_ H]]).
  - by vm_compute.
  - discriminate H.
  - exact H.
Defined.

Lemma tscLoadSubscriptionProgress_total_witness :
  ∃ r pSub',
    tscLoadSubscriptionProgress (sample_env (λ _, 100) (λ _, 0) None)
      (sample_sub sample_super 0 []) (sample_world (Some file_malformed))
    = Some ((r, pSub'), sample_world (Some file_malformed)).
Proof.
  destruct (tscLoadSubscriptionProgress_total
              (sample_env (λ _, 100) (λ _, 0) None)
              (sample_sub sample_super 0 []) (sample_world (Some file_malformed)))
    as (r & pSub' & Hrun & _).
  - simpl. lia.
  - by exists r, pSub'.
Defined.

Lemma taos_consume_saves_first_witness :
  ∃ r w',
    taos_consume (sample_env (λ _, 100) (λ _, 1) None)
      (Some (sample_sub sample_super 0 [MkProgress 10 5])) (sample_world None)
    = Some (r, w') ∧
    files w' !! bytes "/var/lib/taos/subscribe/t1"
    = Some (bytes "select * from s" ++ [LF] ++ bytes "10:5" ++ [LF]).
Proof.
  assert (∃ r w',
    taos_consume (sample_env (λ _, 100) (λ _, 1) None)
      (Some (sample_sub sample_super 0 [MkProgress 10 5])) (sample_world None)
    = Some (r, w')) as (r & w' & Hrun) by (eexists _, _; by vm_compute).
  exists r, w'. split; [exact Hrun|].
  rewrite (taos_consume_saves_first _ _ _ _ _ Hrun).
  change (fopen_w_ok (sample_env (λ _, 100) (λ _, 1) None)
            (progress_path (sample_env (λ _, 100) (λ _, 1) None)
               (sample_sub sample_super 0 [MkProgress 10 5]))) with true.
  cbv iota. apply lookup_insert_eq.
Defined.

Lemma taos_consume_bounds_witness :
  ∃ res tsub w',
    taos_consume (sample_env (λ _, 100) (λ _, 1) None)
      (Some (sample_sub sample_super 0 [MkProgress 10 5])) (sample_world None)
    = Some ((res, tsub), w') ∧
    (queries w' ≤ 3)%nat.
Proof.
  assert (∃ res tsub w',
    taos_consume (sample_env (λ _, 100) (λ _, 1) None)
      (Some (sample_sub sample_super 0 [MkProgress 10 5])) (sample_world None)
    = Some ((res, tsub), w')) as (res & tsub & w' & Hrun)
    by (eexists _, _, _; by vm_compute).
  exists res, tsub, w'. split; [exact Hrun|].
  destruct (taos_consume_bounds _ _ _ _ _ _ Hrun) as ([_ H] & _). exact H.
Defined.

Lemma taos_consume_first_success_witness :
  ∃ pSub' w',
    taos_consume (sample_env (λ _, 100) fail_once (Some []))
      (Some (sample_sub sample_super 0 [MkProgress 10 5])) (sample_world None)
    = Some ((Some (pSql pSub'), Some pSub'), w') ∧
    queries w' = 2%nat.
Proof.
  apply (taos_consume_first_success (sample_env (λ _, 100) fail_once (Some []))
           (sample_sub sample_super 0 [MkProgress 10 5]) (sample_world None) 1).
  - lia.
  - right. split; [by eexists|]. intros n sql. by eexists.
  - intros [|i] Hi; [by vm_compute|lia].
  - reflexivity.
Defined.

Lemma taos_consume_pacing_witness :
  ∃ r w',
    taos_consume (sample_env (λ _, 100) (λ _, 0) None)
      (Some (sample_sub sample_super 0 [MkProgress 10 5])) (sample_world None)
    = Some (r, w') ∧
    sleeps w' = [900].
Proof.
  assert (∃ r w',
    taos_consume (sample_env (λ _, 100) (λ _, 0) None)
      (Some (sample_sub sample_super 0 [MkProgress 10 5])) (sample_world None)
    = Some (r, w')) as (r & w' & Hrun) by (eexists _, _; by vm_compute).
  exists r, w'. split; [exact Hrun|].
  destruct (taos_consume_pacing _ _ _ _ _ Hrun) as (_ & _ & H).
  apply H; [reflexivity|simpl; lia|simpl; lia].
Defined.

Lemma taos_consume_refreshes_after_success_witness :
  ∃ res pSub1 w1 pSub2 w2,
    taos_consume (sample_env (λ _, 1000000) (λ _, 0) None)
      (Some (sample_sub sample_super 1000000 [])) (sample_world None)
    = Some ((Some res, Some pSub1), w1) ∧
    taos_consume (sample_env (λ _, 1000000) (λ _, 0) None)
      (Some pSub1) w1 = Some ((None, Some pSub2), w2) ∧
    queries w2 = queries w1 ∧ resolves w2 = S (resolves w1).
Proof.
  destruct (taos_consume_succeeds_at_once
              (sample_env (λ _, 1000000) (λ _, 0) None)
              (sample_sub sample_super 1000000 []) (sample_world None))
    as (pSub1 & w1 & Hfirst & _); [reflexivity|reflexivity|].
  destruct (taos_consume_refreshes_after_success _ _ _ _ _ _ (bytes " from s")
              Hfirst)
    as (r & pSub2 & w2 & Hsecond & _ & Hfails).
  - reflexivity.
  - reflexivity.
  - intros k. simpl. lia.
  - destruct Hfails as (-> & Hq & Hr); [reflexivity|].
    exists (pSql pSub1), pSub1, w1, pSub2, w2.
    split; [exact Hfirst|]. split; [exact Hsecond|]. split; [exact Hq|exact Hr].
Defined.

Lemma taos_consume_identity_witness :
  ∃ res pSub' w',
    taos_consume (sample_env (λ _, 100) (λ _, 0) None)
      (Some (sample_sub sample_super 0 [MkProgress 10 5])) (sample_world None)
    = Some ((res, Some pSub'), w') ∧
    topic pSub' = bytes "t1".
Proof.
  assert (∃ res tsub w',
    taos_consume (sample_env (λ _, 100) (λ _, 0) None)
      (Some (sample_sub sample_super 0 [MkProgress 10 5])) (sample_world None)
    = Some ((res, tsub), w')) as (res & tsub & w' & Hrun)
    by (eexists _, _, _; by vm_compute).
  destruct (taos_consume_identity _ _ _ _ _ _ Hrun) as (pSub' & -> & Htopic & _).
  by exists res, pSub', w'.
Defined.

Lemma taos_subscribe_restart_ignores_files_witness :
  fst <$> taos_subscribe (sample_env (λ _, 100) (λ _, 0) (Some [MkTidTags 10 1]))
            true 1 (bytes "t1") (bytes "select * from s") None 1000
            (set_files (sample_world None)
               {[ bytes "/var/lib/taos/subscribe/t1" := file_unsorted ]})
  = fst <$> taos_subscribe (sample_env (λ _, 100) (λ _, 0) (Some [MkTidTags 10 1]))
              true 1 (bytes "t1") (bytes "select * from s") None 1000
              (sample_world None).
Proof. apply taos_subscribe_restart_ignores_files. lia. Defined.

Lemma taos_subscribe_restart_fresh_witness :
  ∃ pSub w',
    taos_subscribe (sample_env (λ _, 100) (λ _, 0)
                      (Some [MkTidTags 30 1; MkTidTags 10 1]))
      true 1 (bytes "t1") (bytes "select * from s") None 1000
      (sample_world (Some file_unsorted)) = Some (Some pSub, w') ∧
    ∀ q, q ∈ progress pSub → key q = INT64_MIN.
Proof.
  destruct (taos_subscribe_restart_fresh
              (sample_env (λ _, 100) (λ _, 0)
                 (Some [MkTidTags 30 1; MkTidTags 10 1]))
              1 (bytes "t1") (bytes "select * from s") None 1000
              (sample_world (Some file_unsorted)) sample_created
              (bytes " from s") [MkTidTags 30 1; MkTidTags 10 1])
    as (pSub & w' & Hrun & Hkeys & _).
  - lia.
  - reflexivity.
  - reflexivity.
  - reflexivity.
  - reflexivity.
  - by exists pSub, w'.
Defined.

Lemma taos_subscribe_failure_saves_witness :
  ∃ w',
    taos_subscribe (sample_env (λ _, 100) (λ _, 0) None)
      true 1 (bytes "t1") (bytes "select * from s") None 1000
      (sample_world (Some file_unsorted)) = Some (None, w') ∧
    files w' !! bytes "/var/lib/taos/subscribe/t1"
    = Some (bytes "select * from s" ++ [LF]).
Proof.
  apply (taos_subscribe_failure_saves (sample_env (λ _, 100) (λ _, 0) None)
           1 (bytes "t1") (bytes "select * from s") None 1000
           (sample_world (Some file_unsorted)) sample_created (bytes " from s")).
  - lia.
  - reflexivity.
  - reflexivity.
  - reflexivity.
  - reflexivity.
  - reflexivity.
Defined.

Lemma taos_subscribe_resumes_witness :
  ∃ w1 pSub' w2,
    tscSaveSubscriptionProgress
      (sample_env (λ _, 100) (λ _, 0) (Some [MkTidTags 20 1; MkTidTags 10 1]))
      (sample_sub sample_super 0 [MkProgress 10 5; MkProgress 20 6])
      (sample_world None) = Some (tt, w1) ∧
    taos_subscribe
      (sample_env (λ _, 100) (λ _, 0) (Some [MkTidTags 20 1; MkTidTags 10 1]))
      true 0 (bytes "t1") (bytes "select * from s") None 1000 w1
    = Some (Some pSub', w2) ∧
    progress pSub' = [MkProgress 10 5; MkProgress 20 6].
Proof.
  apply (taos_subscribe_resumes
           (sample_env (λ _, 100) (λ _, 0) (Some [MkTidTags 20 1; MkTidTags 10 1]))
           (sample_sub sample_super 0 [MkProgress 10 5; MkProgress 20 6])
           (sample_world None) (bytes "t1") (bytes "select * from s") None 1000
           sample_created (bytes " from s") [MkTidTags 20 1; MkTidTags 10 1]).
  - reflexivity.
  - compute_done.
  - vm_compute. lia.
  - vm_compute. lia.
  - compute_done.
  - compute_done.
  - reflexivity.
  - reflexivity.
  - reflexivity.
  - reflexivity.
  - reflexivity.
  - reflexivity.
  - apply perm_swap.
Defined.

(** Why the query text of X25 must hold no line feed: the progress of
    a subscription whose query text has two lines is saved, the same
    topic and query are subscribed again without [restart], and the key
    5 of the table 10 is lost. *)
Lemma taos_subscribe_two_line_query :
  ∃ w1 pSub' w2,
    tscSaveSubscriptionProgress
      (sample_env (λ _, 100) (λ _, 0) (Some [MkTidTags 10 1]))
      (MkSub (bytes "t1") 0 0 None
         (MkSqlObj sql_two_lines 4 sample_super 0 0 1 0) 1000 None
         [MkProgress 10 5])
      (sample_world None) = Some (tt, w1) ∧
    taos_subscribe
      (sample_env (λ _, 100) (λ _, 0) (Some [MkTidTags 10 1]))
      true 0 (bytes "t1") sql_two_lines None 1000 w1
    = Some (Some pSub', w2) ∧
    sqlstr (pSql pSub') = sql_two_lines ∧
    progress pSub' = [MkProgress 10 INT64_MIN].
Proof.
  eexists _, _, _. split; [reflexivity|]. split; [by vm_compute|].
  split; reflexivity.
Qed.

Lemma tscCreateSubscription_result_witness :
  ∃ pSub,
    tscCreateSubscription (sample_env (λ _, 100) (λ _, 0) None)
      (bytes "t1") (bytes "select * from s") = Some (Some pSub) ∧
    progress pSub = [] ∧ topic pSub = bytes "t1".
Proof.
  destruct (tscCreateSubscription_result (sample_env (λ _, 100) (λ _, 0) None)
              (bytes "t1") (bytes "select * from s"))
    as (Hcreated & _).
  destruct Hcreated as (pSub & Hrun & Hpr & _ & _ & _ & _ & Htopic & _);
    [reflexivity|by split|reflexivity|].
  exists pSub. split; [exact Hrun|]. split; [exact Hpr|].
  rewrite Htopic. reflexivity.
Defined.

Lemma tscProcessSubscriptionTimer_fire_witness :
  ∃ pSub2 w2,
    tscProcessSubscriptionTimer (sample_env (λ _, 100) (λ _, 0) None)
      sample_callback (Some (sample_timed [MkProgress 10 5])) (Some 1)
      (sample_world None) = Some (Some pSub2, w2) ∧
    pTimer pSub2 = Some 1 ∧ progress pSub2 = [MkProgress 10 99].
Proof.
  destruct (tscProcessSubscriptionTimer_fire (sample_env (λ _, 100) (λ _, 0) None)
              sample_callback (sample_timed [MkProgress 10 5]) (sample_world None) 1)
    as (_ & _ & Hfire).
  destruct Hfire as (res & pSub1 & w1 & Hconsume & _ & Hfire);
    [reflexivity|right; eexists; reflexivity|].
  destruct (taos_consume_succeeds_at_once (sample_env (λ _, 100) (λ _, 0) None)
              (sample_timed [MkProgress 10 5]) (sample_world None))
    as (s & w' & Hrun & _ & _ & Hpr); [reflexivity|reflexivity|].
  rewrite Hrun in Hconsume. injection Hconsume as <- <- <-.
  cbn [fp sample_timed] in Hfire. unfold sample_callback in Hfire.
  unfold tscUpdateSubscriptionProgress in Hfire. rewrite Hpr in Hfire.
  eexists _, _. split; [exact Hfire|]. split; reflexivity.
Defined.
